(** * Drift tests of the Giskard ML worker: a shallow embedding

    Source files:
    - [python-client/giskard/ml_worker/testing/tests/drift.py]
    - [python-client/giskard/ml_worker/server/ml_worker_service.py]

    Conventions of the embedding.
    - Python [int] is [Z]; [len] of a list is [Z.of_nat (length _)].
    - Python and numpy floats are idealised as real numbers [R] (no rounding).
      Where the code can divide by zero on ordinary input (the chi-squared
      contribution of a category that the reference series lacks) the numpy
      result ([inf], [nan]) is kept explicit in the type [npfloat].
    - A Python [dict] is an association list in insertion order;
      [collections.Counter] is such a dict whose lookup defaults to 0.
    - Raised exceptions are values of [exn], carried by the monad [result].
    - Calls of [model.predict] are recorded in a log (monad [M]), so that
      "before any prediction" can be stated.
    - scipy ([chi2.cdf], [ks_2samp], [wasserstein_distance]) and
      [uuid.uuid1().hex] are outside the repository: class [Libraries]. *)

From Stdlib Require Import List String Ascii ZArith Bool Reals Lra Lia Permutation.
Import ListNotations.
Open Scope string_scope.
Open Scope list_scope.
Open Scope Z_scope.

(** ** Exceptions *)

Inductive exn : Type :=
| KeyError (key : string)
| ValueError (msg : string)
| AssertionError (msg : string)
| TypeError (msg : string)
| ZeroDivisionError (msg : string).

Inductive result (A : Type) : Type :=
| Ok (a : A)
| Raise (e : exn).
Arguments Ok {A} a.
Arguments Raise {A} e.

Definition bind {A B : Type} (c : result A) (k : A -> result B) : result B :=
  match c with
  | Ok a => k a
  | Raise e => Raise e
  end.

Declare Scope result_scope.
Delimit Scope result_scope with result.
Notation "x <- c ;; k" := (bind c (fun x => k))
  (at level 61, c at next level, right associativity) : result_scope.
Notation "' p <- c ;; k" := (bind c (fun x => let 'p := x in k))
  (at level 61, p pattern, c at next level, right associativity) : result_scope.
Open Scope result_scope.

(** [[f(x) for x in xs]] where [f] may raise. *)
Fixpoint mapM {A B : Type} (f : A -> result B) (xs : list A) : result (list B) :=
  match xs with
  | [] => Ok []
  | x :: xs' => y <- f x ;; ys <- mapM f xs' ;; Ok (y :: ys)
  end.

(** ** Python dicts and counters over string keys *)

Definition dict : Type := list (string * Z).

Definition keys (d : dict) : list string := map fst d.
Definition values (d : dict) : list Z := map snd d.

Fixpoint dict_get (d : dict) (k : string) : option Z :=
  match d with
  | [] => None
  | (k', v) :: d' => if String.eqb k' k then Some v else dict_get d' k
  end.

(** [d[k] = v]: an existing key keeps its position, a new one goes last. *)
Fixpoint dict_set (d : dict) (k : string) (v : Z) : dict :=
  match d with
  | [] => [(k, v)]
  | (k', v') :: d' =>
      if String.eqb k' k then (k', v) :: d' else (k', v') :: dict_set d' k v
  end.

(** [d[k]] on a plain dict. *)
Definition dict_getitem (d : dict) (k : string) : result Z :=
  match dict_get d k with
  | Some v => Ok v
  | None => Raise (KeyError k)
  end.

(** [c[k]] on a [Counter]: a missing key counts 0. *)
Definition counter_getitem (c : dict) (k : string) : Z :=
  match dict_get c k with
  | Some v => v
  | None => 0
  end.

(** [dict(items)]. *)
Definition dict_of_items (items : list (string * Z)) : dict :=
  fold_left (fun d kv => dict_set d (fst kv) (snd kv)) items [].

(** Number of occurrences of [x] in a series. *)
Definition count (s : list string) (x : string) : Z :=
  Z.of_nat (count_occ string_dec s x).

(** [Counter(series)]. *)
Definition Counter (series : list string) : dict :=
  fold_left (fun c x => dict_set c x (counter_getitem c x + 1)) series [].

(** Stable sort by decreasing count, as [sorted(items, key=itemgetter(1),
    reverse=True)]: among equal counts the first-encountered key stays first. *)
Fixpoint insert_desc (x : string * Z) (l : list (string * Z)) : list (string * Z) :=
  match l with
  | [] => [x]
  | y :: l' => if snd y <=? snd x then x :: l else y :: insert_desc x l'
  end.

Definition sorted_desc (l : list (string * Z)) : list (string * Z) :=
  fold_right insert_desc [] l.

(** [Counter.most_common(n)] for an integer [n]: [heapq.nlargest] yields
    nothing for [n <= 0] and the first [n] of the sorted items otherwise. *)
Definition most_common (c : dict) (n : Z) : list (string * Z) :=
  if n <=? 0 then [] else firstn (Z.to_nat n) (sorted_desc c).

Definition py_sum (l : list Z) : Z := fold_right Z.add 0 l.

Definition len {A : Type} (l : list A) : Z := Z.of_nat (List.length l).

(** ** numpy floats with the non-finite values made explicit *)

Inductive npfloat : Type :=
| Finite (r : R)
| PosInf
| NegInf
| NaN.

(** ** External libraries *)

Record Ks_2sampResult : Type := { statistic : R; pvalue : R }.

Class Libraries : Type := {
  (** the value of [uuid.uuid1().hex] *)
  uuid1_hex : string;
  (** [scipy.stats.chi2.cdf(x, df)] *)
  chi2_cdf : npfloat -> Z -> npfloat;
  (** [scipy.stats.ks_2samp(data1, data2)] *)
  ks_2samp : list R -> list R -> result Ks_2sampResult;
  (** [scipy.stats.wasserstein_distance(u_values, v_values)] *)
  wasserstein_distance : list R -> list R -> result R
}.

(** ** drift.py: frequency tables *)

Definition other_modalities_prefix : string := "other_modalities_".

(** ["other_modalities_" + uuid.uuid1().hex] *)
Definition other_key `{Libraries} : string :=
  (other_modalities_prefix ++ uuid1_hex)%string.

(** [x in l] *)
Fixpoint contains (l : list string) (x : string) : bool :=
  match l with
  | [] => false
  | y :: l' => if String.eqb x y then true else contains l' x
  end.

Fixpoint distinct (l : list string) : list string :=
  match l with
  | [] => []
  | x :: l' => if contains l' x then distinct l' else x :: distinct l'
  end.

(** [list(set(reference_series).union(set(actual_series)))]: the distinct
    values of both series; the iteration order of a Python set is
    unspecified, the order of [distinct] stands for it. *)
Definition set_union_list (reference_series actual_series : list string) : list string :=
  distinct (reference_series ++ actual_series).

Definition _calculate_frequencies `{Libraries}
    (actual_series reference_series : list string) (max_categories : option Z)
  : result (list string * list Z * list Z) :=
  let all_modalities := set_union_list reference_series actual_series in
  let capped :=
    match max_categories with
    | Some k => len all_modalities >? k
    | None => false
    end in
  if capped then
    let k := match max_categories with Some k => k | None => 0 end in
    let var_count_expected := dict_of_items (most_common (Counter reference_series) k) in
    let other_modalities_key := other_key in
    let var_count_expected :=
      dict_set var_count_expected other_modalities_key
        (len reference_series - py_sum (values var_count_expected)) in
    let categories_list := keys var_count_expected in
    let var_count_actual := Counter actual_series in
    let var_count_actual :=
      dict_of_items
        (map (fun i => (i, counter_getitem var_count_actual i)) categories_list) in
    let var_count_actual :=
      dict_set var_count_actual other_modalities_key
        (len actual_series - py_sum (values var_count_actual)) in
    let all_modalities := categories_list in
    expected_frequencies <- mapM (dict_getitem var_count_expected) all_modalities ;;
    actual_frequencies <- mapM (dict_getitem var_count_actual) all_modalities ;;
    Ok (all_modalities, actual_frequencies, expected_frequencies)
  else
    let var_count_expected := Counter reference_series in
    let var_count_actual := Counter actual_series in
    let expected_frequencies := map (counter_getitem var_count_expected) all_modalities in
    let actual_frequencies := map (counter_getitem var_count_actual) all_modalities in
    Ok (all_modalities, actual_frequencies, expected_frequencies).


(** ** drift.py: Population Stability Index *)

Definition min_distribution_probability : R := 0.0001%R.

Definition Rsum (l : list R) : R := fold_right Rplus 0%R l.

(** [max(p, min_distribution_probability)] *)
Definition bounded (p : R) : R := Rmax p min_distribution_probability.

(** [frequencies / n] for a numpy array of counts and a Python [int] [n].
    The quotient is finite whenever [n] is not zero, that is, whenever the
    series it is the length of is not empty.  For [n = 0] numpy gives [nan]
    or [inf] where there is a count, which the reals do not have (the
    division of reals gives 0 there): what is stated of distributions and of
    PSI values is stated of series that are not empty, or of two empty
    series, where both arrays are empty and nothing is divided. *)
Definition np_true_divide (frequencies : list Z) (n : Z) : list R :=
  map (fun c => (IZR c / IZR n)%R) frequencies.

(** As both distributions have one entry per modality, the index is always
    in range; [nth] needs a default all the same.  The floats are taken as
    reals: the rounding of the quotient, of [ln] and of the running sum is
    not modelled, so that an equality of two PSI values that the code
    computes along different paths holds here up to that rounding only. *)
Definition _calculate_psi (category : nat)
    (actual_distribution expected_distribution : list R) : R :=
  let expected_distribution_bounded :=
    Rmax (nth category expected_distribution 0%R) min_distribution_probability in
  let actual_distribution_bounded :=
    Rmax (nth category actual_distribution 0%R) min_distribution_probability in
  let modality_psi :=
    ((expected_distribution_bounded - actual_distribution_bounded)
     * ln (expected_distribution_bounded / actual_distribution_bounded))%R in
  modality_psi.

(** A row of the [output_data] frame of [_calculate_drift_psi]. *)
Record psi_row : Type := {
  Modality : string;
  Reference_distribution : R;
  Actual_distribution : R;
  Psi : R
}.

Definition psi_loop_body (all_modalities : list string)
    (actual_distribution expected_distribution : list R)
    (state : R * list psi_row) (category : nat) : R * list psi_row :=
  let '(total_psi, output_data) := state in
  let modality_psi := _calculate_psi category actual_distribution expected_distribution in
  let total_psi := (total_psi + modality_psi)%R in
  let row := {| Modality := nth category all_modalities "";
                Reference_distribution := nth category expected_distribution 0%R;
                Actual_distribution := nth category expected_distribution 0%R;
                Psi := modality_psi |} in
  (total_psi, output_data ++ [row]).

Definition _calculate_drift_psi `{Libraries}
    (actual_series reference_series : list string) (max_categories : option Z)
  : result (R * list psi_row) :=
  '(all_modalities, actual_frequencies, expected_frequencies) <-
    _calculate_frequencies actual_series reference_series max_categories ;;
  let expected_distribution := np_true_divide expected_frequencies (len reference_series) in
  let actual_distribution := np_true_divide actual_frequencies (len actual_series) in
  let total_psi := 0%R in
  let output_data := [] in
  Ok (fold_left (psi_loop_body all_modalities actual_distribution expected_distribution)
                (seq 0 (List.length all_modalities)) (total_psi, output_data)).

(** ** drift.py: chi-squared *)

(** numpy division of two finite floats. *)
Definition np_div (x y : R) : npfloat :=
  if Req_dec_T y 0 then
    if Req_dec_T x 0 then NaN else if Rlt_dec 0 x then PosInf else NegInf
  else Finite (x / y).

Definition np_add (x y : npfloat) : npfloat :=
  match x, y with
  | NaN, _ | _, NaN => NaN
  | Finite a, Finite b => Finite (a + b)
  | PosInf, NegInf | NegInf, PosInf => NaN
  | PosInf, _ | _, PosInf => PosInf
  | NegInf, _ | _, NegInf => NegInf
  end.


(** [1 - x] *)
Definition np_one_minus (x : npfloat) : npfloat :=
  match x with
  | Finite r => Finite (1 - r)
  | PosInf => NegInf
  | NegInf => PosInf
  | NaN => NaN
  end.

(** [x != 0] *)
Definition np_ne_zero (x : npfloat) : bool :=
  match x with
  | Finite r => if Req_dec_T r 0 then false else true
  | _ => true
  end.

(** [c * x] for a finite [c]. *)
Definition np_scale (c : R) (x : npfloat) : npfloat :=
  match x with
  | Finite r => Finite (c * r)
  | NaN => NaN
  | PosInf => if Req_dec_T c 0 then NaN else if Rlt_dec 0 c then PosInf else NegInf
  | NegInf => if Req_dec_T c 0 then NaN else if Rlt_dec 0 c then NegInf else PosInf
  end.

(** [x > y] *)
Definition np_gt (x y : npfloat) : bool :=
  match x, y with
  | NaN, _ | _, NaN => false
  | Finite a, Finite b => if Rlt_dec b a then true else false
  | PosInf, PosInf => false
  | PosInf, _ => true
  | _, PosInf => false
  | NegInf, _ => false
  | Finite _, NegInf => true
  end.

(** [a / b] on Python ints. *)
Definition py_truediv (a b : Z) : result R :=
  if b =? 0 then Raise (ZeroDivisionError "division by zero")
  else Ok (IZR a / IZR b)%R.

Record chi_row : Type := {
  chi_Modality : string;
  Reference_frequencies : Z;
  Actual_frequencies : Z;
  Chi_square : npfloat
}.

Definition chi_loop_body (all_modalities : list string)
    (actual_frequencies expected_frequencies : list Z) (k_norm : R)
    (state : npfloat * list chi_row) (i : nat) : npfloat * list chi_row :=
  let '(chi_square, output_data) := state in
  let actual_i := IZR (nth i actual_frequencies 0) in
  let expected_i := IZR (nth i expected_frequencies 0) in
  let chi_square_value :=
    np_div ((actual_i - expected_i * k_norm) ^ 2)%R (expected_i * k_norm)%R in
  let chi_square := np_add chi_square chi_square_value in
  let row := {| chi_Modality := nth i all_modalities "";
                Reference_frequencies := nth i expected_frequencies 0;
                Actual_frequencies := nth i actual_frequencies 0;
                Chi_square := chi_square_value |} in
  (chi_square, output_data ++ [row]).

(** What the chi-squared loop needs of a frequency table: counts are not
    negative, and no category is absent from both series. *)
Definition row_ok (ae : Z * Z) : Prop :=
  0 <= snd ae /\ 0 <= fst ae /\ (snd ae = 0 -> 0 < fst ae).

Definition table_ok (actual_frequencies expected_frequencies : list Z) : Prop :=
  Forall row_ok (combine actual_frequencies expected_frequencies).

Definition _calculate_chi_square `{Libraries}
    (actual_series reference_series : list string) (max_categories : option Z)
  : result (npfloat * npfloat * list chi_row) :=
  '(all_modalities, actual_frequencies, expected_frequencies) <-
    _calculate_frequencies actual_series reference_series max_categories ;;
  let chi_square := Finite 0 in
  k_norm <- py_truediv (len actual_series) (len reference_series) ;;
  let output_data := [] in
  let '(chi_square, output_data) :=
    fold_left (chi_loop_body all_modalities actual_frequencies expected_frequencies k_norm)
              (seq 0 (List.length all_modalities)) (chi_square, output_data) in
  let p_value :=
    if len all_modalities >? 1 then
      let chi_cdf := chi2_cdf chi_square (len all_modalities - 1) in
      if np_ne_zero chi_cdf then np_one_minus chi_cdf else Finite 0
    else Finite 0 in
  Ok (chi_square, p_value, output_data).

(** ** drift.py: Kolmogorov-Smirnov and Earth mover's distance *)

Definition _calculate_ks `{Libraries} (actual_series reference_series : list R)
  : result Ks_2sampResult :=
  ks_2samp reference_series actual_series.

(** [np.unique]: the distinct values (numpy also sorts them, which the set
    built from them right after forgets). *)
Definition np_unique (series : list R) : list R := nodup Req_dec_T series.

(** [max(l)] and [min(l)] of a Python list. *)
Definition py_max (l : list R) : result R :=
  match l with
  | [] => Raise (ValueError "max() arg is an empty sequence")
  | x :: l' => Ok (fold_left Rmax l' x)
  end.

Definition py_min (l : list R) : result R :=
  match l with
  | [] => Raise (ValueError "min() arg is an empty sequence")
  | x :: l' => Ok (fold_left Rmin l' x)
  end.

(** [(series - val_min) / (val_max - val_min)] *)
Definition min_max_normalize (val_min val_max : R) (series : list R) : list R :=
  map (fun x => ((x - val_min) / (val_max - val_min))%R) series.

(** [list(set(unique_reference).union(set(unique_actual)))] *)
Definition set_union_values (unique_reference unique_actual : list R) : list R :=
  nodup Req_dec_T (unique_reference ++ unique_actual).

Definition _calculate_earth_movers_distance `{Libraries}
    (actual_series reference_series : list R) : result R :=
  let unique_reference := np_unique reference_series in
  let unique_actual := np_unique actual_series in
  let sample_space := set_union_values unique_reference unique_actual in
  val_max <- py_max sample_space ;;
  val_min <- py_min sample_space ;;
  if Req_dec_T val_max val_min then
    Ok 0%R
  else
    let reference_series := min_max_normalize val_min val_max reference_series in
    let actual_series := min_max_normalize val_min val_max actual_series in
    wasserstein_distance reference_series actual_series.

(** ** Datasets, models and test results *)

(** A pandas [Series] of the kind its values have (spec, data model): strings
    for a categorical column or predicted labels, numbers for a numerical
    column, predicted values or probabilities. *)
Inductive Series : Type :=
| Categorical (values : list string)
| Numerical (values : list R).

Definition series_len (s : Series) : Z :=
  match s with
  | Categorical l => len l
  | Numerical l => len l
  end.

(** [series.empty] *)
Definition series_empty (s : Series) : bool := series_len s =? 0.

(** The categorical calculators are modelled on strings and the numerical
    ones on numbers.  The code does not look at the kind of the values (it
    compares the declared feature type only) and computes on whatever the
    column holds; here a series of the other kind is reported as a
    [TypeError], so that what is stated of a result is stated of series of
    the expected kind. *)
Definition as_categories (s : Series) : result (list string) :=
  match s with
  | Categorical l => Ok l
  | Numerical _ => Raise (TypeError "categorical values expected")
  end.

Definition as_numbers (s : Series) : result (list R) :=
  match s with
  | Numerical l => Ok l
  | Categorical _ => Raise (TypeError "numerical values expected")
  end.

Fixpoint assoc {V : Type} (l : list (string * V)) (k : string) : option V :=
  match l with
  | [] => None
  | (k', v) :: l' => if String.eqb k' k then Some v else assoc l' k
  end.

(** [d[k]] on a dict or a data frame. *)
Definition getitem {V : Type} (l : list (string * V)) (k : string) : result V :=
  match assoc l k with
  | Some v => Ok v
  | None => Raise (KeyError k)
  end.

(** [giskard.datasets.base.Dataset]: the data frame, column by column, and
    the declared feature type of each column. *)
Record Dataset : Type := {
  df : list (string * Series);
  feature_types : list (string * string)
}.

Definition columns (ds : Dataset) : list string := map fst (df ds).

(** [len(dataset)]: the number of rows. *)
Definition dataset_len (ds : Dataset) : Z :=
  match df ds with
  | [] => 0
  | (_, s) :: _ => series_len s
  end.

Inductive SupportedModelTypes : Type := CLASSIFICATION | REGRESSION.

Record ModelPredictionResults : Type := {
  prediction : Series;
  all_predictions : list (string * list R)
}.

Record ModelMeta : Type := {
  model_type : SupportedModelTypes;
  classification_labels : list string
}.

Record BaseModel : Type := {
  meta : ModelMeta;
  predict : Dataset -> ModelPredictionResults
}.

Definition is_classification (model : BaseModel) : bool :=
  match model_type (meta model) with
  | CLASSIFICATION => true
  | REGRESSION => false
  end.

(** The text of a message: an f-string, kept as its pieces because numbers
    have no string form here. *)
Inductive fragment : Type :=
| Lit (s : string)
| Num (x : R)
| OptNum (x : option R).

Inductive TestMessageType : Type := ERROR | INFO.
Inductive TestMessageLevel : Type := LEVEL_ERROR | LEVEL_INFO.

(** [ml_worker_pb2.TestMessage] *)
Record TestMessage : Type := {
  type : TestMessageType;
  text : list fragment
}.

(** [core.test_result.TestMessage] *)
Record CoreTestMessage : Type := {
  level : TestMessageLevel;
  core_text : list fragment
}.

(** What the [messages] of a [TestResult] may hold: the class declares its own
    message type, the drift tests store protobuf messages. *)
Inductive any_message : Type :=
| PbMessage (m : TestMessage)
| CoreMessage (m : CoreTestMessage).

Definition message_text_of (message : any_message) : list fragment :=
  match message with
  | CoreMessage m => core_text m
  | PbMessage m => text m
  end.

Record PartialUnexpectedCounts : Type := {
  value : list Z;
  count_ : Z
}.

(** [giskard.ml_worker.core.test_result.TestResult].  The class itself is not
    among the sources: the fields are those that
    [map_result_to_single_test_result] reads and the drift tests set. *)
Record TestResult : Type := {
  passed : bool;
  messages : option (list any_message);
  props : list (string * string);
  metric : npfloat;
  missing_count : Z;
  missing_percent : R;
  unexpected_count : Z;
  unexpected_percent : R;
  unexpected_percent_total : R;
  unexpected_percent_nonmissing : R;
  partial_unexpected_index_list : list PartialUnexpectedCounts;
  unexpected_index_list : list Z;
  output_df : option string;
  number_of_perturbed_rows : Z;
  actual_slices_size : list Z;
  reference_slices_size : list Z
}.

(** [TestResult(actual_slices_size=.., reference_slices_size=.., passed=..,
    metric=.., messages=..)]: the fields left out take the neutral value. *)
Definition new_TestResult (actual_size reference_size : list Z) (passed_ : bool)
    (metric_ : npfloat) (messages_ : option (list TestMessage)) : TestResult :=
  {| passed := passed_;
     messages := option_map (map PbMessage) messages_;
     props := [];
     metric := metric_;
     missing_count := 0;
     missing_percent := 0%R;
     unexpected_count := 0;
     unexpected_percent := 0%R;
     unexpected_percent_total := 0%R;
     unexpected_percent_nonmissing := 0%R;
     partial_unexpected_index_list := [];
     unexpected_index_list := [];
     output_df := None;
     number_of_perturbed_rows := 0;
     actual_slices_size := actual_size;
     reference_slices_size := reference_size |}.

(** ** drift.py: validation *)

Definition dquote : string := String (ascii_of_nat 34) EmptyString.

(** [assert cond, msg] *)
Definition py_assert (cond : bool) (msg : string) : result unit :=
  if cond then Ok tt else Raise (AssertionError msg).

Definition _validate_feature_type (gsk_dataset : Dataset)
    (column_name feature_type : string) : result unit :=
  declared <- getitem (feature_types gsk_dataset) column_name ;;
  py_assert (String.eqb declared feature_type)
    ("Column " ++ dquote ++ column_name ++ dquote ++ " is not of type "
       ++ dquote ++ feature_type ++ dquote)%string.

Definition _validate_column_name (actual_ds reference_ds : Dataset)
    (column_name : string) : result unit :=
  _ <- py_assert (existsb (String.eqb column_name) (columns actual_ds))
         (dquote ++ column_name ++ dquote ++ " is not a column of Actual Dataset Columns: "
            ++ String.concat ", " (columns actual_ds))%string ;;
  py_assert (existsb (String.eqb column_name) (columns reference_ds))
    (dquote ++ column_name ++ dquote ++ " is not a column of Reference Dataset Columns: "
       ++ String.concat ", " (columns reference_ds))%string.

Definition _validate_series_notempty (actual_series reference_series : Series)
  : result unit :=
  if series_empty actual_series then
    Raise (ValueError "Actual Series computed from the column is empty")
  else if series_empty reference_series then
    Raise (ValueError "Reference Series computed from the column is empty")
  else Ok tt.

(** [reset_index(drop=True, inplace=True)] renumbers the rows and leaves the
    values and their order as they are: nothing to do on this model. *)
Definition _extract_series (actual_ds reference_ds : Dataset)
    (column_name feature_type : string) : result (Series * Series) :=
  _ <- _validate_column_name actual_ds reference_ds column_name ;;
  _ <- _validate_feature_type actual_ds column_name feature_type ;;
  _ <- _validate_feature_type reference_ds column_name feature_type ;;
  actual_series <- getitem (df actual_ds) column_name ;;
  reference_series <- getitem (df reference_ds) column_name ;;
  _ <- _validate_series_notempty actual_series reference_series ;;
  Ok (actual_series, reference_series).

(** ** drift.py: thresholds and messages *)

(** Comparing a number with [None] raises [TypeError]. *)
Definition none_comparison (op : string) : exn :=
  TypeError (op ++ " not supported between a number and NoneType")%string.

Definition Rle_bool (x y : R) : bool := if Rle_dec x y then true else false.
Definition Rlt_bool (x y : R) : bool := if Rlt_dec x y then true else false.

(** [metric <= threshold] *)
Definition py_le (metric : R) (threshold : option R) : result bool :=
  match threshold with
  | Some t => Ok (Rle_bool metric t)
  | None => Raise (none_comparison "<=")
  end.

(** [pvalue >= threshold] *)
Definition py_ge (pvalue : R) (threshold : option R) : result bool :=
  match threshold with
  | Some t => Ok (Rle_bool t pvalue)
  | None => Raise (none_comparison ">=")
  end.

(** [p_value > threshold] *)
Definition py_gt (p_value : npfloat) (threshold : option R) : result bool :=
  match threshold with
  | Some t => Ok (np_gt p_value (Finite t))
  | None => Raise (none_comparison ">")
  end.

(** [np.round(x, decimals)]: to the nearest multiple of [10^-decimals], ties
    to the even one. *)
Definition np_rint (y : R) : Z :=
  let f := Int_part y in
  let r := (y - IZR f)%R in
  if Rlt_dec r (1 / 2) then f
  else if Rlt_dec (1 / 2) r then f + 1
  else if Z.even f then f else f + 1.

Definition np_round (x : R) (decimals : nat) : R :=
  (IZR (np_rint (x * 10 ^ decimals)) / 10 ^ decimals)%R.

Definition other_modalities_pattern : string := "^other_modalities_[a-z0-9]{32}$".

Definition is_lower_alnum (c : ascii) : bool :=
  let n := nat_of_ascii c in
  ((97 <=? n) && (n <=? 122) || (48 <=? n) && (n <=? 57))%nat.

Fixpoint string_forallb (p : ascii -> bool) (s : string) : bool :=
  match s with
  | EmptyString => true
  | String c s' => p c && string_forallb p s'
  end.

Fixpoint strip_prefix (p s : string) : option string :=
  match p, s with
  | EmptyString, _ => Some s
  | String a p', String b s' => if Ascii.eqb a b then strip_prefix p' s' else None
  | String _ _, EmptyString => None
  end.

Definition newline : string := String (ascii_of_nat 10) EmptyString.

(** [re.match(other_modalities_pattern, w)] as a truth value: the prefix,
    then exactly 32 characters of [a-z0-9], then the end of the string, which
    [$] also finds just before a final newline. *)
Definition re_match_other_modalities (w : string) : bool :=
  match strip_prefix other_modalities_prefix w with
  | None => false
  | Some rest =>
      let hex := String.substring 0 32 rest in
      let tail := String.substring 32 (String.length rest - 32) rest in
      (String.length hex =? 32)%nat && string_forallb is_lower_alnum hex
      && (String.eqb tail "" || String.eqb tail newline)
  end.

(** [frame[mask][column].tolist()] on the column of the modalities. *)
Fixpoint select_rows (mask : list bool) (column : list string) : list string :=
  match mask, column with
  | b :: mask', w :: column' =>
      if b then w :: select_rows mask' column' else select_rows mask' column'
  | _, _ => []
  end.

(** [output_data] is passed as its column of modalities. *)
Definition _generate_message_modalities (main_drifting_modalities_bool : list bool)
    (output_data : list string) (test_data : string) : option (list TestMessage) :=
  let modalities_list := select_rows main_drifting_modalities_bool output_data in
  let filtered_modalities :=
    filter (fun w => negb (re_match_other_modalities w)) modalities_list in
  match filtered_modalities with
  | [] => None
  | _ :: _ =>
      Some [ {| type := ERROR;
                text := [Lit "The "; Lit test_data;
                         Lit " is drifting for the following modalities: ";
                         Lit (String.concat "," filtered_modalities)] |} ]
  end.

Definition _generate_message_ks (passed_ : bool) (result_ : Ks_2sampResult)
    (threshold : option R) (data_type : string) : option (list TestMessage) :=
  if negb passed_ then
    Some [ {| type := ERROR;
              text := [Lit "The "; Lit data_type; Lit " is drifting (p-value is equal to ";
                       Num (np_round (pvalue result_) 9);
                       Lit " and is below the test risk level "; OptNum threshold;
                       Lit ") "] |} ]
  else None.

(** A message reports the metric and the threshold when its text holds the
    metric rounded to 9 decimals and the threshold. *)
Definition reports (metric_ : R) (threshold : option R) (message : any_message) : Prop :=
  In (Num (np_round metric_ 9)) (message_text_of message)
  /\ In (OptNum threshold) (message_text_of message).

(** ** drift.py: the tests on a feature column *)

Definition _test_series_drift_psi `{Libraries}
    (actual_series reference_series : list string) (test_data : string)
    (max_categories : option Z) (psi_contribution_percent : R) (threshold : option R)
  : result (option (list TestMessage) * bool * R) :=
  '(total_psi, output_data) <-
    _calculate_drift_psi actual_series reference_series max_categories ;;
  let passed_ :=
    match threshold with
    | None => true
    | Some t => Rle_bool total_psi t
    end in
  let main_drifting_modalities_bool :=
    map (fun row => Rlt_bool (psi_contribution_percent * total_psi) (Psi row)) output_data in
  let messages_ :=
    _generate_message_modalities main_drifting_modalities_bool
      (map Modality output_data) test_data in
  Ok (messages_, passed_, total_psi).

Definition _test_series_drift_chi `{Libraries}
    (actual_series reference_series : list string) (test_data : string)
    (chi_square_contribution_percent : R) (max_categories : option Z)
    (threshold : option R)
  : result (option (list TestMessage) * npfloat * bool) :=
  '(chi_square, p_value, output_data) <-
    _calculate_chi_square actual_series reference_series max_categories ;;
  passed_ <- py_gt p_value threshold ;;
  let main_drifting_modalities_bool :=
    map (fun row => np_gt (Chi_square row)
                          (np_scale chi_square_contribution_percent chi_square))
        output_data in
  let messages_ :=
    _generate_message_modalities main_drifting_modalities_bool
      (map chi_Modality output_data) test_data in
  Ok (messages_, p_value, passed_).

Definition test_drift_psi `{Libraries} (reference_ds actual_ds : Dataset)
    (column_name : string) (threshold : option R) (max_categories : option Z)
    (psi_contribution_percent : R) : result TestResult :=
  '(actual_series, reference_series) <-
    _extract_series actual_ds reference_ds column_name "category" ;;
  actual_values <- as_categories actual_series ;;
  reference_values <- as_categories reference_series ;;
  '(messages_, passed_, total_psi) <-
    _test_series_drift_psi actual_values reference_values "data"
      max_categories psi_contribution_percent threshold ;;
  Ok (new_TestResult [series_len actual_series] [series_len reference_series]
        passed_ (Finite total_psi) messages_).

Definition test_drift_chi_square `{Libraries} (reference_ds actual_ds : Dataset)
    (column_name : string) (threshold : option R) (max_categories : option Z)
    (chi_square_contribution_percent : R) : result TestResult :=
  '(actual_series, reference_series) <-
    _extract_series actual_ds reference_ds column_name "category" ;;
  actual_values <- as_categories actual_series ;;
  reference_values <- as_categories reference_series ;;
  '(messages_, p_value, passed_) <-
    _test_series_drift_chi actual_values reference_values "data"
      chi_square_contribution_percent max_categories threshold ;;
  Ok (new_TestResult [series_len actual_series] [series_len reference_series]
        passed_ p_value messages_).

Definition test_drift_ks `{Libraries} (reference_ds actual_ds : Dataset)
    (column_name : string) (threshold : option R) : result TestResult :=
  '(actual_series, reference_series) <-
    _extract_series actual_ds reference_ds column_name "numeric" ;;
  actual_values <- as_numbers actual_series ;;
  reference_values <- as_numbers reference_series ;;
  result_ <- _calculate_ks actual_values reference_values ;;
  passed_ <- py_ge (pvalue result_) threshold ;;
  let messages_ := _generate_message_ks passed_ result_ threshold "data" in
  Ok (new_TestResult [series_len actual_series] [series_len reference_series]
        passed_ (Finite (pvalue result_)) messages_).

Definition test_drift_earth_movers_distance `{Libraries}
    (reference_ds actual_ds : Dataset) (column_name : string)
    (threshold : option R) : result TestResult :=
  '(actual_series, reference_series) <-
    _extract_series actual_ds reference_ds column_name "numeric" ;;
  actual_values <- as_numbers actual_series ;;
  reference_values <- as_numbers reference_series ;;
  metric_ <- _calculate_earth_movers_distance actual_values reference_values ;;
  passed_ <- py_le metric_ threshold ;;
  let messages_ :=
    if negb passed_ then
      Some [ {| type := ERROR;
                text := [Lit "The data is drifting (metric is equal to ";
                         Num (np_round metric_ 9);
                         Lit " and is below the test risk level "; OptNum threshold;
                         Lit ") "] |} ]
    else None in
  Ok (new_TestResult [series_len actual_series] [series_len reference_series]
        (match threshold with None => true | Some _ => passed_ end)
        (Finite metric_) messages_).

(** ** drift.py: the tests on the predictions of a model *)

(** A computation that may raise, together with the datasets handed to
    [model.predict] so far, in call order. *)
Definition M (A : Type) : Type := result A * list Dataset.

Definition lift {A : Type} (c : result A) : M A := (c, []).

Definition bindM {A B : Type} (c : M A) (k : A -> M B) : M B :=
  match c with
  | (Ok a, log) => let '(r, log') := k a in (r, log ++ log')
  | (Raise e, log) => (Raise e, log)
  end.

Declare Scope M_scope.
Delimit Scope M_scope with M.
Notation "x <- c ;; k" := (bindM c (fun x => k))
  (at level 61, c at next level, right associativity) : M_scope.
Notation "' p <- c ;; k" := (bindM c (fun x => let 'p := x in k))
  (at level 61, p pattern, c at next level, right associativity) : M_scope.

(** [model.predict(dataset)] *)
Definition call_predict (model : BaseModel) (dataset : Dataset)
  : M ModelPredictionResults :=
  (Ok (predict model dataset), [dataset]).

(** [model.predict(slice).all_predictions[classification_label].values if
    model.is_classification else model.predict(slice).prediction] *)
Definition predicted_values (model : BaseModel) (slice : Dataset)
    (classification_label : option string) : M (list R) :=
  (if is_classification model then
     results <- call_predict model slice ;;
     lift (match classification_label with
           | Some label => getitem (all_predictions results) label
           | None => Raise (KeyError "None")
           end)
   else
     results <- call_predict model slice ;;
     lift (as_numbers (prediction results)))%M.

Definition test_drift_prediction_psi `{Libraries}
    (reference_slice actual_slice : Dataset) (model : BaseModel)
    (max_categories : option Z) (threshold : option R)
    (psi_contribution_percent : R) : M TestResult :=
  (reference_results <- call_predict model reference_slice ;;
   actual_results <- call_predict model actual_slice ;;
   prediction_reference <- lift (as_categories (prediction reference_results)) ;;
   prediction_actual <- lift (as_categories (prediction actual_results)) ;;
   '(messages_, passed_, total_psi) <-
     lift (_test_series_drift_psi prediction_actual prediction_reference "prediction"
             max_categories psi_contribution_percent threshold) ;;
   lift (Ok (new_TestResult [dataset_len actual_slice] [dataset_len reference_slice]
               passed_ (Finite total_psi) messages_)))%M.

Definition test_drift_prediction_chi_square `{Libraries}
    (reference_slice actual_slice : Dataset) (model : BaseModel)
    (max_categories : option Z) (threshold : option R)
    (chi_square_contribution_percent : R) : M TestResult :=
  (reference_results <- call_predict model reference_slice ;;
   actual_results <- call_predict model actual_slice ;;
   prediction_reference <- lift (as_categories (prediction reference_results)) ;;
   prediction_actual <- lift (as_categories (prediction actual_results)) ;;
   '(messages_, p_value, passed_) <-
     lift (_test_series_drift_chi prediction_actual prediction_reference "prediction"
             chi_square_contribution_percent max_categories threshold) ;;
   lift (Ok (new_TestResult [dataset_len actual_slice] [dataset_len reference_slice]
               passed_ p_value messages_)))%M.

Definition label_text (classification_label : option string) : string :=
  match classification_label with
  | Some label => label
  | None => "None"
  end.

Definition test_drift_prediction_ks `{Libraries}
    (reference_slice actual_slice : Dataset) (model : BaseModel)
    (classification_label : option string) (threshold : option R) : M TestResult :=
  (_ <- lift (py_assert
                (match model_type (meta model) with
                 | CLASSIFICATION => false
                 | REGRESSION => true
                 end
                 || match classification_label with
                    | Some label =>
                        existsb (String.eqb label) (classification_labels (meta model))
                    | None => false
                    end)
                (dquote ++ label_text classification_label ++ dquote
                   ++ " is not part of model labels: "
                   ++ String.concat "," (classification_labels (meta model)))%string) ;;
   prediction_reference <- predicted_values model reference_slice classification_label ;;
   prediction_actual <- predicted_values model actual_slice classification_label ;;
   result_ <- lift (_calculate_ks prediction_reference prediction_actual) ;;
   let passed_ :=
     match threshold with
     | None => true
     | Some t => Rle_bool t (pvalue result_)
     end in
   let messages_ := _generate_message_ks passed_ result_ threshold "prediction" in
   lift (Ok (new_TestResult [dataset_len actual_slice] [dataset_len reference_slice]
               passed_ (Finite (pvalue result_)) messages_)))%M.

Definition test_drift_prediction_earth_movers_distance `{Libraries}
    (reference_slice actual_slice : Dataset) (model : BaseModel)
    (classification_label : option string) (threshold : option R) : M TestResult :=
  (prediction_reference <- predicted_values model reference_slice classification_label ;;
   prediction_actual <- predicted_values model actual_slice classification_label ;;
   metric_ <- lift (_calculate_earth_movers_distance prediction_reference prediction_actual) ;;
   let passed_ :=
     match threshold with
     | None => true
     | Some t => Rle_bool metric_ t
     end in
   let messages_ :=
     if negb passed_ then
       Some [ {| type := ERROR;
                 text := [Lit "The prediction is drifting (metric is equal to ";
                          Num (np_round metric_ 9);
                          Lit " and is above the test risk level "; OptNum threshold;
                          Lit ") "] |} ]
     else None in
   lift (Ok (new_TestResult [dataset_len actual_slice] [dataset_len reference_slice]
               (match threshold with None => true | Some t => Rle_bool metric_ t end)
               (Finite metric_) messages_)))%M.

(** ** ml_worker_service.py: mapping a test's return value *)

(** [ml_worker_pb2.Partial_unexpected_counts] *)
Record Partial_unexpected_counts : Type := {
  pb_value : list Z;
  pb_count : Z
}.

(** [ml_worker_pb2.SingleTestResult]; a field that the constructor is not
    given, or is given [None] for, holds the default of its type. *)
Record SingleTestResult : Type := {
  s_passed : bool;
  s_messages : list TestMessage;
  s_props : list (string * string);
  s_metric : npfloat;
  s_missing_count : Z;
  s_missing_percent : R;
  s_unexpected_count : Z;
  s_unexpected_percent : R;
  s_unexpected_percent_total : R;
  s_unexpected_percent_nonmissing : R;
  s_partial_unexpected_index_list : list Partial_unexpected_counts;
  s_unexpected_index_list : list Z;
  s_output_df : string;
  s_number_of_perturbed_rows : Z;
  s_actual_slices_size : list Z;
  s_reference_slices_size : list Z
}.

(** [SingleTestResult(passed=b)] *)
Definition SingleTestResult_passed (b : bool) : SingleTestResult :=
  {| s_passed := b;
     s_messages := [];
     s_props := [];
     s_metric := Finite 0;
     s_missing_count := 0;
     s_missing_percent := 0%R;
     s_unexpected_count := 0;
     s_unexpected_percent := 0%R;
     s_unexpected_percent_total := 0%R;
     s_unexpected_percent_nonmissing := 0%R;
     s_partial_unexpected_index_list := [];
     s_unexpected_index_list := [];
     s_output_df := "";
     s_number_of_perturbed_rows := 0;
     s_actual_slices_size := [];
     s_reference_slices_size := [] |}.

(** The values a test may return, by Python type. *)
Inductive py_value : Type :=
| PySingleTestResult (r : SingleTestResult)
| PyTestResult (r : TestResult)
| PyBool (b : bool)
| PyInt (n : Z)
| PyFloat (x : npfloat)
| PyStr (s : string)
| PyNone.

(** [message.type == TestMessageLevel.ERROR]: a protobuf enum value is an
    [int] and equals no member of the enum class [TestMessageLevel]. *)
Definition is_level_error (message : any_message) : bool :=
  match message with
  | CoreMessage m => match level m with LEVEL_ERROR => true | LEVEL_INFO => false end
  | PbMessage _ => false
  end.

Definition convert_message (message : any_message) : TestMessage :=
  {| type := if is_level_error message then ERROR else INFO;
     text := message_text_of message |}.

Definition convert_counts (puc : PartialUnexpectedCounts) : Partial_unexpected_counts :=
  {| pb_value := value puc; pb_count := count_ puc |}.

Definition map_result_to_single_test_result (result_ : py_value)
  : result SingleTestResult :=
  match result_ with
  | PySingleTestResult r => Ok r
  | PyTestResult r =>
      match messages r with
      | None => Raise (TypeError "'NoneType' object is not iterable")
      | Some msgs =>
          Ok {| s_passed := passed r;
                s_messages := map convert_message msgs;
                s_props := props r;
                s_metric := metric r;
                s_missing_count := missing_count r;
                s_missing_percent := missing_percent r;
                s_unexpected_count := unexpected_count r;
                s_unexpected_percent := unexpected_percent r;
                s_unexpected_percent_total := unexpected_percent_total r;
                s_unexpected_percent_nonmissing := unexpected_percent_nonmissing r;
                s_partial_unexpected_index_list :=
                  map convert_counts (partial_unexpected_index_list r);
                s_unexpected_index_list := unexpected_index_list r;
                s_output_df := match output_df r with Some b => b | None => "" end;
                s_number_of_perturbed_rows := number_of_perturbed_rows r;
                s_actual_slices_size := actual_slices_size r;
                s_reference_slices_size := reference_slices_size r |}
      end
  | PyBool b => Ok (SingleTestResult_passed b)
  | _ => Raise (ValueError "Result of test can only be 'GiskardTestResult' or 'bool'")
  end.

(** ** Sample inputs

    A concrete instance of the external interface and a few datasets and
    models, on which the statements below are exercised.  The three library
    functions are simple stand-ins with the range of the real ones. *)

Definition sample_chi2_cdf (x : npfloat) (dof : Z) : npfloat :=
  match x with
  | Finite r => if Rlt_dec r 0 then Finite 0 else Finite (r / (1 + r))
  | PosInf => Finite 1
  | NegInf => Finite 0
  | NaN => NaN
  end.

Definition Rmean (l : list R) : R := (Rsum l / INR (List.length l))%R.

Definition sample_libraries : Libraries :=
  {| uuid1_hex := "0123456789abcdef0123456789abcdef";
     chi2_cdf := sample_chi2_cdf;
     ks_2samp := fun _ _ => Ok {| statistic := 0.5%R; pvalue := 0.01%R |};
     wasserstein_distance := fun u v => Ok (Rabs (Rmean u - Rmean v)) |}.

(** Two series of 20000 values that differ in one rare category each. *)
Definition rare_reference : list string := repeat "a" (Z.to_nat 19999) ++ ["b"].
Definition rare_actual : list string := repeat "a" (Z.to_nat 19999) ++ ["c"].

Definition sample_numeric (l : list R) : Dataset :=
  {| df := [("age", Numerical l)]; feature_types := [("age", "numeric")] |}.

Definition sample_categorical (l : list string) : Dataset :=
  {| df := [("city", Categorical l)]; feature_types := [("city", "category")] |}.

(** A slice without rows. *)
Definition empty_slice : Dataset := sample_numeric [].

(** A classifier with the labels "yes" and "no" that always answers "yes". *)
Definition constant_classifier : BaseModel :=
  {| meta := {| model_type := CLASSIFICATION; classification_labels := ["yes"; "no"] |};
     predict := fun dataset =>
       let n := Z.to_nat (dataset_len dataset) in
       {| prediction := Categorical (repeat "yes" n);
          all_predictions := [("yes", repeat 1%R n); ("no", repeat 0%R n)] |} |}.

(** The PSI contribution of a category that one series has throughout and
    the other lacks. *)
Definition disjoint_contribution : R :=
  ((1 - min_distribution_probability) * ln (1 / min_distribution_probability))%R.

(** A failing result that carries one message of each kind. *)
Definition sample_result : TestResult :=
  {| passed := false;
     messages := Some [CoreMessage {| level := LEVEL_ERROR; core_text := [Lit "drift"] |};
                       PbMessage {| type := ERROR; text := [Lit "drift"] |}];
     props := [("column", "age")];
     metric := Finite 0.5;
     missing_count := 0;
     missing_percent := 0%R;
     unexpected_count := 1;
     unexpected_percent := 0.5%R;
     unexpected_percent_total := 0.5%R;
     unexpected_percent_nonmissing := 0.5%R;
     partial_unexpected_index_list := [{| value := [7]; count_ := 1 |}];
     unexpected_index_list := [1];
     output_df := None;
     number_of_perturbed_rows := 0;
     actual_slices_size := [2];
     reference_slices_size := [2] |}.

(** ** Further notions used by the properties of the calculators *)

(** The values of a series that are not among the kept categories. *)
Definition outside (kept series : list string) : list string :=
  filter (fun x => negb (contains kept x)) series.

(** Decreasing order of the counts. *)
Inductive sorted_by_count : list (string * Z) -> Prop :=
| sorted_nil : sorted_by_count []
| sorted_cons (x : string * Z) (l : list (string * Z)) :
    (forall y, In y l -> snd y <= snd x) -> sorted_by_count l ->
    sorted_by_count (x :: l).

(** One chi-squared term on two counts. *)
Definition chi_term (k_norm : R) (actual expected : Z) : npfloat :=
  np_div ((IZR actual - IZR expected * k_norm) ^ 2)%R (IZR expected * k_norm)%R.

(** A statistic that is infinite, or finite and not negative. *)
Definition inf_or_finite (x : npfloat) : Prop :=
  x = PosInf \/ exists r, x = Finite r /\ (0 <= r)%R.

(** [uuid.uuid1().hex]: 32 characters, digits and lower-case letters. *)
Definition well_formed_hex (hex : string) : Prop :=
  String.length hex = 32%nat /\ string_forallb is_lower_alnum hex = true.

(** The results that the four Kolmogorov-Smirnov and Earth-Mover tests can
    return. *)
Definition returned_by_ks_or_emd_test `{Libraries} (r : TestResult) : Prop :=
  (exists reference_ds actual_ds column_name threshold,
     test_drift_ks reference_ds actual_ds column_name threshold = Ok r) \/
  (exists reference_ds actual_ds column_name threshold,
     test_drift_earth_movers_distance reference_ds actual_ds column_name threshold
       = Ok r) \/
  (exists reference_slice actual_slice model label threshold log,
     test_drift_prediction_ks reference_slice actual_slice model label threshold
       = (Ok r, log)) \/
  (exists reference_slice actual_slice model label threshold log,
     test_drift_prediction_earth_movers_distance reference_slice actual_slice model
       label threshold = (Ok r, log)).

(** The message of the PSI and chi-squared tests that names modalities. *)
Definition modalities_message (test_data : string) (listed : list string)
  : TestMessage :=
  {| type := ERROR;
     text := [Lit "The "; Lit test_data;
              Lit " is drifting for the following modalities: ";
              Lit (String.concat "," listed)] |}.

(** The calls of [model.predict] of a run on two slices: never anything but
    the reference slice and then the actual slice, and both of them when the
    run returns. *)
Definition predicts_reference_then_actual {A : Type}
    (reference_slice actual_slice : Dataset) (run : M A) : Prop :=
  (exists rest, snd run ++ rest = [reference_slice; actual_slice]) /\
  (forall a, fst run = Ok a -> snd run = [reference_slice; actual_slice]).

(** ** ml_worker_service.py: the arguments of a test *)

(** Exceptions of the service layer: its own class, an [AttributeError], or
    one of the exceptions above. *)
Inductive service_exn : Type :=
| IllegalArgumentError (msg : string)
| AttributeError (msg : string)
| Builtin (e : exn).

Inductive outcome (A : Type) : Type :=
| Returns (a : A)
| Throws (e : service_exn).
Arguments Returns {A} a.
Arguments Throws {A} e.

Record ArtifactRef : Type := {
  project_key : string;
  id : string
}.

(** A test argument of a request: its name and the fields that [HasField]
    may find set. *)
Record TestArgument : Type := {
  name : string;
  arg_dataset : option ArtifactRef;
  arg_model : option ArtifactRef;
  arg_float : option R;
  arg_string : option string
}.

Inductive argument_value : Type :=
| DatasetValue (d : Dataset)
| ModelValue (m : BaseModel)
| FloatValue (x : R)
| StringValue (s : string).

(** [Dataset.load(client, project_key, id)] and [Model.load(...)] go to the
    client and the file system; they may raise. *)
Class Client : Type := {
  Dataset_load : string -> string -> outcome Dataset;
  Model_load : string -> string -> outcome BaseModel
}.

(** [d[k] = v] on a dict with string keys and any values. *)
Fixpoint setitem {V : Type} (d : list (string * V)) (k : string) (v : V)
  : list (string * V) :=
  match d with
  | [] => [(k, v)]
  | (k', v') :: d' =>
      if String.eqb k' k then (k', v) :: d' else (k', v') :: setitem d' k v
  end.

(** The [if ... elif ... else] of one pass of the loop. *)
Definition argument_value_of `{Client} (arg : TestArgument) : outcome argument_value :=
  match arg_dataset arg with
  | Some ref =>
      match Dataset_load (project_key ref) (id ref) with
      | Returns d => Returns (DatasetValue d)
      | Throws e => Throws e
      end
  | None =>
      match arg_model arg with
      | Some ref =>
          match Model_load (project_key ref) (id ref) with
          | Returns m => Returns (ModelValue m)
          | Throws e => Throws e
          end
      | None =>
          match arg_float arg with
          | Some x => Returns (FloatValue x)
          | None =>
              match arg_string arg with
              | Some s => Returns (StringValue s)
              | None => Throws (IllegalArgumentError "Unknown argument type")
              end
          end
      end
  end.

Fixpoint parse_test_arguments_loop `{Client} (request_arguments : list TestArgument)
    (arguments : list (string * argument_value))
  : outcome (list (string * argument_value)) :=
  match request_arguments with
  | [] => Returns arguments
  | arg :: rest =>
      match argument_value_of arg with
      | Returns value_ =>
          parse_test_arguments_loop rest (setitem arguments (name arg) value_)
      | Throws e => Throws e
      end
  end.

Definition parse_test_arguments `{Client} (request_arguments : list TestArgument)
  : outcome (list (string * argument_value)) :=
  let arguments := [] in
  parse_test_arguments_loop request_arguments arguments.

(** The last argument of a request that bears a given name. *)
Definition last_named (n : string) (request_arguments : list TestArgument)
  : option TestArgument :=
  find (fun arg => String.eqb (name arg) n) (rev request_arguments).

(** An argument none of whose fields is set. *)
Definition no_field (arg : TestArgument) : Prop :=
  arg_dataset arg = None /\ arg_model arg = None /\
  arg_float arg = None /\ arg_string arg = None.

(** ** ml_worker_service.py: receiving a file *)

(** The file types, the last one standing for any other value of the enum,
    with its printed form. *)
Inductive FileType : Type := MODEL | DATASET | OTHER_FILE_TYPE (printed : string).

Record FileUploadMetadata : Type := {
  file_type : FileType;
  meta_project_key : string;
  meta_name : string
}.

(** [giskard.path_utils]: where a model or a dataset is kept. *)
Class Paths : Type := {
  model_path : string -> string -> string;
  dataset_path : string -> string -> string
}.

(** The files of the worker: path and content.  Creating the directories and
    appending to a file are taken to succeed. *)
Definition filesystem : Type := list (string * string).

Definition file_content (fs : filesystem) (path : string) : string :=
  match assoc fs path with
  | Some content => content
  | None => ""
  end.

(** [path.exists()] *)
Definition path_exists (fs : filesystem) (path : string) : bool :=
  match assoc fs path with
  | Some _ => true
  | None => false
  end.

Definition file_already_exists `{Paths} (fs : filesystem) (meta_ : FileUploadMetadata)
  : outcome (bool * string) :=
  match file_type meta_ with
  | MODEL =>
      let path := model_path (meta_project_key meta_) (meta_name meta_) in
      Returns (path_exists fs path, path)
  | DATASET =>
      let path := dataset_path (meta_project_key meta_) (meta_name meta_) in
      Returns (path_exists fs path, path)
  | OTHER_FILE_TYPE printed =>
      Throws (Builtin (ValueError ("Illegal file type: " ++ printed)%string))
  end.

(** An upload message: which of its fields [HasField] finds. *)
Inductive UploadMessage : Type :=
| MetadataMessage (metadata : FileUploadMetadata)
| ChunkMessage (content : string)
| EmptyMessage.

Inductive StatusCode : Type := CacheMiss | Failed | StatusOk.

(** The local variables of [upload] ([progress] as "is not None"), the files,
    and what has been yielded so far. *)
Record upload_state : Type := {
  meta_var : option FileUploadMetadata;
  path_var : option string;
  progress_var : bool;
  files : filesystem;
  yielded : list StatusCode
}.

(** How one pass of the [for] loop ends. *)
Inductive step_end : Type :=
| Continue (s : upload_state)
| Break (s : upload_state)
| Raised (e : service_exn) (s : upload_state).

Definition upload_step `{Paths} (s : upload_state) (upload_msg : UploadMessage)
  : step_end :=
  match upload_msg with
  | MetadataMessage metadata =>
      let s := {| meta_var := Some metadata; path_var := path_var s;
                  progress_var := progress_var s; files := files s;
                  yielded := yielded s |} in
      match file_already_exists (files s) metadata with
      | Throws e => Raised e s
      | Returns (file_exists, path) =>
          if negb file_exists then
            Continue {| meta_var := Some metadata; path_var := Some path;
                        progress_var := true; files := files s;
                        yielded := yielded s ++ [CacheMiss] |}
          else
            Break {| meta_var := Some metadata; path_var := Some path;
                     progress_var := progress_var s; files := files s;
                     yielded := yielded s |}
      end
  | ChunkMessage content =>
      match path_var s with
      | None =>
          (* [path.parent] fails; the handler then reads [meta.name] *)
          match meta_var s with
          | None =>
              Raised (AttributeError "'NoneType' object has no attribute 'name'") s
          | Some _ =>
              Continue {| meta_var := meta_var s; path_var := path_var s;
                          progress_var := progress_var s; files := files s;
                          yielded := yielded s ++ [Failed] |}
          end
      | Some path =>
          let written :=
            setitem (files s) path (file_content (files s) path ++ content)%string in
          if progress_var s then
            Continue {| meta_var := meta_var s; path_var := path_var s;
                        progress_var := progress_var s; files := written;
                        yielded := yielded s |}
          else
            (* [progress.update] fails, after the write *)
            Continue {| meta_var := meta_var s; path_var := path_var s;
                        progress_var := progress_var s; files := written;
                        yielded := yielded s ++ [Failed] |}
      end
  | EmptyMessage => Continue s
  end.

Fixpoint upload_loop `{Paths} (request_iterator : list UploadMessage)
    (s : upload_state) : option service_exn * upload_state :=
  match request_iterator with
  | [] => (None, s)
  | upload_msg :: rest =>
      match upload_step s upload_msg with
      | Continue s' => upload_loop rest s'
      | Break s' => (None, s')
      | Raised e s' => (Some e, s')
      end
  end.

(** The generator: the exception that leaves it, if any, what it yields, and
    the files afterwards.  The final [yield] of [StatusCode.Ok] follows the
    loop unless an exception has left it. *)
Definition upload `{Paths} (request_iterator : list UploadMessage) (fs : filesystem)
  : option service_exn * list StatusCode * filesystem :=
  let s := {| meta_var := None; path_var := None; progress_var := false;
              files := fs; yielded := [] |} in
  match upload_loop request_iterator s with
  | (None, s') => (None, yielded s' ++ [StatusOk], files s')
  | (Some e, s') => (Some e, yielded s', files s')
  end.

(** The chunks of a file, one after the other. *)
Definition join_chunks (chunks : list string) : string :=
  fold_right String.append "" chunks.

(** ** Further sample inputs *)

Definition sample_client : Client :=
  {| Dataset_load := fun _ _ => Returns (sample_numeric [1%R; 2%R]);
     Model_load := fun _ _ => Returns constant_classifier |}.

Definition sample_paths : Paths :=
  {| model_path := fun key n => ("models/" ++ key ++ "/" ++ n)%string;
     dataset_path := fun key n => ("datasets/" ++ key ++ "/" ++ n)%string |}.

(** * Properties *)

(** ** The error monad *)

Lemma mapM_ext {A B : Type} (f g : A -> result B) (xs : list A) :
  (forall x, In x xs -> f x = g x) -> mapM f xs = mapM g xs.
Proof.
  induction xs as [|x xs IH]; intros Hfg; simpl; [reflexivity|].
  rewrite (Hfg x (or_introl eq_refl)), IH; [reflexivity|].
  intros y Hy. apply Hfg. now right.
Qed.

(** ** Dicts *)

Lemma py_sum_app (l1 l2 : list Z) : py_sum (l1 ++ l2) = py_sum l1 + py_sum l2.
Proof. induction l1 as [|a l1 IH]; simpl; lia. Qed.

Lemma dict_set_notin (d : dict) (k : string) (v : Z) :
  ~ In k (keys d) -> dict_set d k v = d ++ [(k, v)].
Proof.
  induction d as [|[k' v'] d IH]; simpl; intros Hn; [reflexivity|].
  destruct (String.eqb_spec k' k) as [->|Hne]; [tauto|].
  rewrite IH; tauto.
Qed.

Lemma keys_dict_set_in (d : dict) (k : string) (v : Z) :
  In k (keys d) -> keys (dict_set d k v) = keys d.
Proof.
  induction d as [|[k' v'] d IH]; simpl; intros Hi; [tauto|].
  destruct (String.eqb_spec k' k) as [->|Hne]; simpl; [reflexivity|].
  f_equal. apply IH. destruct Hi; [congruence|assumption].
Qed.

Lemma keys_dict_set (d : dict) (k : string) (v : Z) :
  keys (dict_set d k v) = if in_dec string_dec k (keys d) then keys d else keys d ++ [k].
Proof.
  destruct (in_dec string_dec k (keys d)) as [Hi|Hn].
  - now apply keys_dict_set_in.
  - rewrite dict_set_notin by assumption. unfold keys. now rewrite map_app.
Qed.

Lemma NoDup_snoc {A : Type} (l : list A) (x : A) :
  NoDup l -> ~ In x l -> NoDup (l ++ [x]).
Proof.
  intros Hl Hx. apply NoDup_app; [assumption|repeat constructor; simpl; tauto|].
  intros y Hy [<-|[]]. contradiction.
Qed.

Lemma NoDup_keys_dict_set (d : dict) (k : string) (v : Z) :
  NoDup (keys d) -> NoDup (keys (dict_set d k v)).
Proof.
  intros Hd. rewrite keys_dict_set.
  destruct (in_dec string_dec k (keys d)); [assumption|now apply NoDup_snoc].
Qed.

Lemma In_keys_dict_set (d : dict) (k k' : string) (v : Z) :
  In k' (keys (dict_set d k v)) -> k' = k \/ In k' (keys d).
Proof.
  rewrite keys_dict_set. destruct (in_dec string_dec k (keys d)); [tauto|].
  rewrite in_app_iff. simpl. intuition.
Qed.

Lemma dict_of_items_inv (items : list (string * Z)) (d : dict) :
  NoDup (keys d) ->
  let d' := fold_left (fun d kv => dict_set d (fst kv) (snd kv)) items d in
  NoDup (keys d') /\ (forall k, In k (keys d') -> In k (keys d) \/ In k (map fst items)).
Proof.
  revert d. induction items as [|[k v] items IH]; simpl; intros d Hd; [tauto|].
  destruct (IH (dict_set d k v) (NoDup_keys_dict_set d k v Hd)) as [H1 H2].
  split; [assumption|]. intros k' Hk'.
  destruct (H2 k' Hk') as [Hs|Hs]; [|tauto].
  apply In_keys_dict_set in Hs. intuition.
Qed.

Lemma NoDup_keys_dict_of_items (items : list (string * Z)) :
  NoDup (keys (dict_of_items items)).
Proof. apply (dict_of_items_inv items []). constructor. Qed.

Lemma dict_of_items_app (items : list (string * Z)) (d : dict) :
  NoDup (keys d ++ map fst items) ->
  fold_left (fun d kv => dict_set d (fst kv) (snd kv)) items d = d ++ items.
Proof.
  revert d. induction items as [|[k v] items IH]; simpl; intros d Hd.
  - now rewrite app_nil_r.
  - assert (Hk : ~ In k (keys d)).
    { intros Hi. apply NoDup_remove_2 in Hd. apply Hd. apply in_or_app. now left. }
    rewrite dict_set_notin by assumption. rewrite IH.
    + now rewrite <- app_assoc.
    + unfold keys in *. rewrite map_app, <- app_assoc. exact Hd.
Qed.

Lemma dict_of_items_NoDup (items : list (string * Z)) :
  NoDup (map fst items) -> dict_of_items items = items.
Proof. intros Hn. unfold dict_of_items. now rewrite dict_of_items_app. Qed.

Lemma dict_getitem_head (k : string) (v : Z) (d : dict) :
  dict_getitem ((k, v) :: d) k = Ok v.
Proof. unfold dict_getitem. simpl. now rewrite String.eqb_refl. Qed.

Lemma dict_getitem_tail (k k' : string) (v : Z) (d : dict) :
  k <> k' -> dict_getitem ((k, v) :: d) k' = dict_getitem d k'.
Proof.
  intros Hne. unfold dict_getitem. simpl.
  destruct (String.eqb_spec k k'); [contradiction|reflexivity].
Qed.

(** Reading a dict at each of its keys, in order, yields its values: no
    [KeyError]. *)
Lemma mapM_getitem_keys (d : dict) :
  NoDup (keys d) -> mapM (dict_getitem d) (keys d) = Ok (values d).
Proof.
  induction d as [|[k v] d IH]; simpl; intros Hn; [reflexivity|].
  inversion Hn as [|? ? Hk Hd]; subst.
  rewrite dict_getitem_head. simpl.
  rewrite (mapM_ext _ (dict_getitem d)).
  - rewrite (IH Hd). reflexivity.
  - intros x Hx. apply dict_getitem_tail. intros ->. contradiction.
Qed.

(** ** Counters *)

Lemma counter_getitem_set (c : dict) (k k' : string) (v : Z) :
  counter_getitem (dict_set c k v) k' =
  if String.eqb k k' then v else counter_getitem c k'.
Proof.
  unfold counter_getitem.
  induction c as [|[k0 v0] c IH]; simpl.
  - destruct (String.eqb k k'); reflexivity.
  - destruct (String.eqb_spec k0 k) as [->|Hne]; simpl.
    + destruct (String.eqb k k'); reflexivity.
    + destruct (String.eqb_spec k0 k') as [->|Hne'].
      * destruct (String.eqb_spec k k'); [congruence|reflexivity].
      * exact IH.
Qed.

Lemma Counter_fold (s : list string) (c : dict) (x : string) :
  counter_getitem
    (fold_left (fun c x => dict_set c x (counter_getitem c x + 1)) s c) x
  = counter_getitem c x + count s x.
Proof.
  revert c. induction s as [|a s IH]; intros c; unfold count in *; cbn [fold_left count_occ]; [simpl; lia|].
  rewrite IH, counter_getitem_set.
  destruct (string_dec a x) as [E|E]; destruct (String.eqb_spec a x); try congruence; subst; lia.
Qed.

Lemma counter_getitem_Counter (s : list string) (x : string) :
  counter_getitem (Counter s) x = count s x.
Proof. unfold Counter. rewrite Counter_fold. reflexivity. Qed.

Lemma Counter_fold_keys (s : list string) (c : dict) (k : string) :
  In k (keys (fold_left (fun c x => dict_set c x (counter_getitem c x + 1)) s c)) ->
  In k (keys c) \/ In k s.
Proof.
  revert c. induction s as [|a s IH]; intros c; simpl; [tauto|].
  intros Hk. destruct (IH _ Hk) as [Hs|Hs]; [|tauto].
  apply In_keys_dict_set in Hs. intuition.
Qed.

Lemma In_keys_Counter (s : list string) (k : string) :
  In k (keys (Counter s)) -> In k s.
Proof. intros Hk. destruct (Counter_fold_keys s [] k Hk) as [[]|]; assumption. Qed.

Lemma count_notin (s : list string) (x : string) : ~ In x s -> count s x = 0.
Proof.
  intros Hn. unfold count. rewrite (proj1 (count_occ_not_In string_dec s x) Hn). reflexivity.
Qed.

Lemma count_nonneg (s : list string) (x : string) : 0 <= count s x.
Proof. unfold count. lia. Qed.

Lemma count_pos (s : list string) (x : string) : In x s -> 0 < count s x.
Proof.
  intros Hi. unfold count. apply (count_occ_In string_dec) in Hi. lia.
Qed.

(** Summing the occurrence counts of [s] over a duplicate-free list that
    holds every element of [s] gives the length of [s]. *)
Lemma sum_indicator (l : list string) (a : string) :
  NoDup l -> In a l ->
  py_sum (map (fun x => if string_dec a x then 1 else 0) l) = 1.
Proof.
  induction l as [|b l IH]; simpl; intros Hn Hi; [tauto|].
  inversion Hn as [|? ? Hb Hl]; subst.
  destruct (string_dec a b) as [->|Hne].
  - assert (E : py_sum (map (fun x => if string_dec b x then 1 else 0) l) = 0).
    { clear IH Hn Hi Hl. induction l as [|c l IH]; simpl; [reflexivity|].
      destruct (string_dec b c) as [->|]; [simpl in Hb; tauto|].
      rewrite IH; [reflexivity|]. simpl in Hb. tauto. }
    rewrite E. reflexivity.
  - rewrite IH; [reflexivity|assumption|]. destruct Hi; [congruence|assumption].
Qed.

Lemma py_sum_map_add {A : Type} (f g : A -> Z) (l : list A) :
  py_sum (map (fun x => f x + g x) l) = py_sum (map f l) + py_sum (map g l).
Proof. induction l as [|a l IH]; simpl; lia. Qed.

Lemma sum_count_cover (s l : list string) :
  NoDup l -> incl s l -> py_sum (map (count s) l) = len s.
Proof.
  intros Hn. induction s as [|a s IH]; intros Hincl.
  - clear Hn Hincl. unfold count, len. simpl.
    induction l as [|b l IHl]; simpl; [reflexivity|assumption].
  - assert (E : map (count (a :: s)) l =
                map (fun x => (if string_dec a x then 1 else 0) + count s x) l).
    { apply map_ext. intros x. unfold count. cbn [count_occ].
      destruct (string_dec a x); lia. }
    rewrite E, py_sum_map_add, sum_indicator, IH.
    + unfold len. cbn [List.length]. lia.
    + intros x Hx. apply Hincl. now right.
    + assumption.
    + apply Hincl. now left.
Qed.

Lemma contains_In (l : list string) (x : string) :
  contains l x = true <-> In x l.
Proof.
  induction l as [|y l IH]; simpl; [split; [discriminate|tauto]|].
  destruct (String.eqb_spec x y) as [->|Hne].
  - split; [now left|reflexivity].
  - rewrite IH. split; [tauto|]. intros [E|Hx]; [congruence|assumption].
Qed.

Lemma distinct_In (l : list string) (x : string) : In x (distinct l) <-> In x l.
Proof.
  induction l as [|a l IH]; simpl; [tauto|].
  destruct (contains l a) eqn:E; simpl; rewrite IH; [|tauto].
  apply contains_In in E. split; [tauto|]. intros [<-|Hx]; assumption.
Qed.

Lemma distinct_NoDup (l : list string) : NoDup (distinct l).
Proof.
  induction l as [|a l IH]; simpl; [constructor|].
  destruct (contains l a) eqn:E; [assumption|].
  constructor; [|assumption]. rewrite distinct_In. intros Hx.
  apply contains_In in Hx. congruence.
Qed.

Lemma set_union_list_NoDup (r a : list string) : NoDup (set_union_list r a).
Proof. apply distinct_NoDup. Qed.

Lemma set_union_list_In (r a : list string) (x : string) :
  In x (set_union_list r a) <-> In x r \/ In x a.
Proof. unfold set_union_list. rewrite distinct_In, in_app_iff. tauto. Qed.

(** ** Sorting and [most_common] *)

Lemma insert_desc_perm (x : string * Z) (l : list (string * Z)) :
  Permutation (insert_desc x l) (x :: l).
Proof.
  induction l as [|y l IH]; simpl; [reflexivity|].
  destruct (snd y <=? snd x); [reflexivity|].
  rewrite IH. apply perm_swap.
Qed.

Lemma sorted_desc_perm (l : list (string * Z)) : Permutation (sorted_desc l) l.
Proof.
  induction l as [|x l IH]; simpl; [reflexivity|].
  rewrite insert_desc_perm. now constructor.
Qed.

Lemma In_firstn_In {A : Type} (n : nat) (l : list A) (x : A) :
  In x (firstn n l) -> In x l.
Proof.
  revert n. induction l as [|a l IH]; intros [|n]; simpl; try tauto.
  intros [->|Hi]; [now left|right; eauto].
Qed.

Lemma firstn_NoDup_map {A B : Type} (f : A -> B) (n : nat) (l : list A) :
  NoDup (map f l) -> NoDup (map f (firstn n l)).
Proof.
  revert n. induction l as [|a l IH]; intros [|n] Hn; simpl; try constructor.
  - inversion Hn; subst. intros Hi. apply in_map_iff in Hi as [b [Hb Hi]].
    apply In_firstn_In in Hi. apply H1. rewrite <- Hb. now apply in_map.
  - inversion Hn; subst. now apply IH.
Qed.

Lemma most_common_incl (c : dict) (n : Z) (kv : string * Z) :
  In kv (most_common c n) -> In kv c.
Proof.
  unfold most_common. destruct (n <=? 0); [intros []|].
  intros Hi. apply In_firstn_In in Hi.
  now apply (Permutation_in _ (sorted_desc_perm c)).
Qed.

Lemma most_common_NoDup (c : dict) (n : Z) :
  NoDup (keys c) -> NoDup (map fst (most_common c n)).
Proof.
  intros Hc. unfold most_common. destruct (n <=? 0); [constructor|].
  apply firstn_NoDup_map.
  apply (Permutation_NoDup (l := keys c)); [|assumption].
  unfold keys. apply Permutation_map. symmetry. apply sorted_desc_perm.
Qed.

Lemma most_common_length (c : dict) (n : Z) :
  0 <= n -> len (most_common c n) <= n.
Proof.
  intros Hn. unfold most_common, len. destruct (Z.leb_spec n 0); simpl; [lia|].
  rewrite length_firstn. lia.
Qed.

Lemma NoDup_keys_Counter (s : list string) : NoDup (keys (Counter s)).
Proof.
  unfold Counter. generalize (NoDup_nil string).
  change (@nil string) with (keys []). generalize (@nil (string * Z)).
  induction s as [|a s IH]; intros c Hc; simpl; [assumption|].
  apply IH. now apply NoDup_keys_dict_set.
Qed.

Lemma dict_set_last (d : dict) (k : string) (v w : Z) :
  ~ In k (keys d) -> dict_set (d ++ [(k, w)]) k v = d ++ [(k, v)].
Proof.
  induction d as [|[k' v'] d IH]; simpl; intros Hn.
  - now rewrite String.eqb_refl.
  - destruct (String.eqb_spec k' k) as [->|Hne]; [tauto|]. rewrite IH; tauto.
Qed.

(** ** The frequency table *)

Section Frequencies.
Context `{Libraries}.

(** The capped branch: the top-[k] reference categories followed by the
    synthetic key, with the reference and actual counts aligned. *)
Lemma frequencies_capped (actual reference : list string) (k : Z) :
  len (set_union_list reference actual) > k ->
  ~ In other_key reference -> ~ In other_key actual ->
  let top := most_common (Counter reference) k in
  _calculate_frequencies actual reference (Some k) =
    Ok (map fst top ++ [other_key],
        map (count actual) (map fst top)
          ++ [len actual - py_sum (map (count actual) (map fst top))],
        map snd top ++ [len reference - py_sum (map snd top)]).
Proof.
  intros Hcap Hr Ha top. unfold _calculate_frequencies.
  replace (len (set_union_list reference actual) >? k) with true
    by (symmetry; apply Z.gtb_lt; lia).
  fold top.
  assert (Htop : NoDup (map fst top)) by apply most_common_NoDup, NoDup_keys_Counter.
  rewrite (dict_of_items_NoDup top Htop).
  assert (Hk : ~ In other_key (keys top)).
  { intros Hi. apply Hr. apply In_keys_Counter. unfold keys in *.
    apply in_map_iff in Hi as [kv [<- Hkv]]. apply in_map. eapply most_common_incl, Hkv. }
  rewrite (dict_set_notin top other_key _ Hk).
  set (d1 := top ++ [(other_key, len reference - py_sum (values top))]).
  assert (Hd1 : keys d1 = keys top ++ [other_key]) by (unfold d1, keys; now rewrite map_app).
  assert (Hn1 : NoDup (keys d1)) by (rewrite Hd1; now apply NoDup_snoc).
  rewrite (mapM_getitem_keys d1 Hn1). cbn [bind].
  assert (Ha0 : dict_of_items
                  (map (fun i => (i, counter_getitem (Counter actual) i)) (keys d1))
                = map (fun i => (i, count actual i)) (keys top) ++ [(other_key, 0)]).
  { rewrite dict_of_items_NoDup.
    - rewrite Hd1, map_app. simpl. rewrite counter_getitem_Counter, (count_notin actual) by assumption.
      f_equal. apply map_ext. intros i. now rewrite counter_getitem_Counter.
    - rewrite map_map. simpl. now rewrite map_id. }
  rewrite Ha0.
  assert (Hka : keys (map (fun i => (i, count actual i)) (keys top)) = keys top).
  { unfold keys. rewrite map_map. simpl. apply map_id. }
  rewrite dict_set_last by (rewrite Hka; exact Hk).
  set (a1 := map (fun i => (i, count actual i)) (keys top) ++ _).
  assert (Ha1 : keys a1 = keys d1).
  { unfold a1. unfold keys at 1. rewrite map_app. fold (keys (map (fun i => (i, count actual i)) (keys top))).
    rewrite Hka, Hd1. reflexivity. }
  rewrite <- Ha1 at 1. rewrite (mapM_getitem_keys a1) by (rewrite Ha1; exact Hn1).
  cbn [bind]. rewrite Hd1. unfold d1, a1, values, keys.
  rewrite !map_app, !map_map. simpl.
  rewrite py_sum_app. simpl. repeat f_equal; lia.
Qed.

Lemma frequencies_uncapped (actual reference : list string) (mc : option Z) :
  (forall k, mc = Some k -> len (set_union_list reference actual) <= k) ->
  _calculate_frequencies actual reference mc =
    Ok (set_union_list reference actual,
        map (count actual) (set_union_list reference actual),
        map (count reference) (set_union_list reference actual)).
Proof.
  intros Hmc. unfold _calculate_frequencies.
  assert (E : match mc with
              | Some k => len (set_union_list reference actual) >? k
              | None => false
              end = false).
  { destruct mc as [k|]; [|reflexivity]. specialize (Hmc k eq_refl).
    destruct (Z.gtb_spec (len (set_union_list reference actual)) k); [lia|reflexivity]. }
  rewrite E. cbv zeta.
  rewrite (map_ext _ _ (counter_getitem_Counter actual)).
  rewrite (map_ext _ _ (counter_getitem_Counter reference)). reflexivity.
Qed.

(** The table is always built, and its three columns are aligned. *)
Lemma frequencies_aligned (actual reference : list string) (mc : option Z)
      mods af ef :
  _calculate_frequencies actual reference mc = Ok (mods, af, ef) ->
  List.length af = List.length mods /\ List.length ef = List.length mods.
Proof.
  unfold _calculate_frequencies.
  destruct (match mc with Some k => _ | None => false end).
  - set (d1 := dict_set _ _ _). set (a1 := dict_set _ _ _).
    destruct (mapM (dict_getitem d1) (keys d1)) as [e|] eqn:He; cbn [bind]; [|discriminate].
    destruct (mapM (dict_getitem a1) (keys d1)) as [a|] eqn:Hea; cbn [bind]; [|discriminate].
    intros [= <- <- <-].
    assert (L : forall (f : string -> result Z) xs ys, mapM f xs = Ok ys -> List.length ys = List.length xs).
    { intros f xs. induction xs as [|x xs IH]; simpl; intros ys.
      - now intros [= <-].
      - destruct (f x); cbn [bind]; [|discriminate].
        destruct (mapM f xs); cbn [bind]; [|discriminate].
        intros [= <-]. simpl. f_equal. now apply IH. }
    split; eapply L; eassumption.
  - intros [= <- <- <-]. now rewrite !length_map.
Qed.
End Frequencies.

(** C3. Whatever [max_categories] is, the frequency table is built without
    error, the reference counts sum to the length of the reference series and
    the actual counts sum to the length of the actual series; when capping is
    active (the distinct values of both series outnumber [max_categories], a
    count that is not negative) there are at most [max_categories + 1]
    categories.  The generated key is assumed not to occur in the series. *)
Theorem calculate_frequencies_sums `{Libraries}
    (actual reference : list string) (mc : option Z) :
  ~ In other_key reference -> ~ In other_key actual ->
  exists mods af ef,
    _calculate_frequencies actual reference mc = Ok (mods, af, ef) /\
    py_sum ef = len reference /\
    py_sum af = len actual /\
    (forall k, mc = Some k -> 0 <= k ->
               len (set_union_list reference actual) > k ->
               len mods <= k + 1).
Proof.
  intros Hr Ha.
  assert (Hcase : (exists k, mc = Some k /\ len (set_union_list reference actual) > k)
                  \/ (forall k, mc = Some k -> len (set_union_list reference actual) <= k)).
  { destruct mc as [k|].
    - destruct (Z_gt_le_dec (len (set_union_list reference actual)) k).
      + left. eauto.
      + right. now intros ? [= <-].
    - right. discriminate. }
  destruct Hcase as [[k [-> Hcap]]|Hun].
  - rewrite (frequencies_capped actual reference k Hcap Hr Ha).
    do 3 eexists. split; [reflexivity|].
    rewrite !py_sum_app. simpl. repeat split; try lia.
    intros k' [= <-] Hk _. unfold len. rewrite length_app, length_map. simpl.
    pose proof (most_common_length (Counter reference) k Hk).
    unfold len in *. lia.
  - rewrite (frequencies_uncapped actual reference mc Hun).
    do 3 eexists. split; [reflexivity|].
    repeat split.
    + apply sum_count_cover; [apply set_union_list_NoDup|].
      intros x Hx. apply set_union_list_In. now left.
    + apply sum_count_cover; [apply set_union_list_NoDup|].
      intros x Hx. apply set_union_list_In. now right.
    + intros k Hk' _ Hgt. specialize (Hun k Hk'). lia.
Qed.

(** ** Population Stability Index *)

Section PsiTerm.
Local Open Scope R_scope.

Lemma min_probability_pos : 0 < min_distribution_probability.
Proof. unfold min_distribution_probability. lra. Qed.

Lemma bounded_pos (p : R) : 0 < bounded p.
Proof.
  unfold bounded. pose proof min_probability_pos.
  pose proof (Rmax_r p min_distribution_probability). lra.
Qed.

(** One term [(e - a) * ln (e / a)] with [e], [a] positive is never
    negative, and vanishes exactly when [e = a]. *)
Lemma psi_term_sign (e a : R) :
  0 < e -> 0 < a ->
  0 <= (e - a) * ln (e / a) /\ ((e - a) * ln (e / a) = 0 <-> e = a).
Proof.
  intros He Ha.
  destruct (Rtotal_order e a) as [Hlt|[Heq|Hgt]].
  - assert (Hq : e / a < 1).
    { apply Rmult_lt_reg_r with a; [assumption|]. unfold Rdiv.
      rewrite Rmult_assoc, Rinv_l by lra. lra. }
    assert (Hq0 : 0 < e / a) by (apply Rdiv_lt_0_compat; assumption).
    pose proof (ln_increasing _ _ Hq0 Hq) as Hln. rewrite ln_1 in Hln.
    assert (0 < (e - a) * ln (e / a)) by nra.
    split; [lra|]. split; intros; lra.
  - subst. unfold Rdiv. rewrite Rinv_r by lra. rewrite ln_1.
    split; [lra|]. split; intros; lra.
  - assert (Hq : 1 < e / a).
    { apply Rmult_lt_reg_r with a; [assumption|]. unfold Rdiv.
      rewrite Rmult_assoc, Rinv_l by lra. lra. }
    pose proof (ln_increasing _ _ Rlt_0_1 Hq) as Hln. rewrite ln_1 in Hln.
    assert (0 < (e - a) * ln (e / a)) by nra.
    split; [lra|]. split; intros; lra.
Qed.

Lemma calculate_psi_sign (i : nat) (ad ed : list R) :
  0 <= _calculate_psi i ad ed /\
  (_calculate_psi i ad ed = 0 <-> bounded (nth i ed 0) = bounded (nth i ad 0)).
Proof.
  unfold _calculate_psi. fold (bounded (nth i ed 0)). fold (bounded (nth i ad 0)).
  apply psi_term_sign; apply bounded_pos.
Qed.

Lemma Rsum_nonneg (l : list R) :
  (forall x, In x l -> 0 <= x) -> 0 <= Rsum l.
Proof.
  induction l as [|a l IH]; simpl; intros Hl; [lra|].
  pose proof (Hl a (or_introl eq_refl)).
  assert (0 <= Rsum l) by (apply IH; intros; apply Hl; now right). lra.
Qed.

Lemma Rsum_zero_iff (l : list R) :
  (forall x, In x l -> 0 <= x) -> (Rsum l = 0 <-> forall x, In x l -> x = 0).
Proof.
  induction l as [|a l IH]; simpl; intros Hl.
  - split; [intros _ x []|reflexivity].
  - pose proof (Hl a (or_introl eq_refl)) as Ha.
    assert (Hl' : forall x, In x l -> 0 <= x) by (intros; apply Hl; now right).
    pose proof (Rsum_nonneg l Hl') as Hs. specialize (IH Hl').
    split.
    + intros Hz x [<-|Hx]; [lra|]. apply IH; [lra|assumption].
    + intros Hall. rewrite (Hall a (or_introl eq_refl)).
      rewrite (proj2 IH); [lra|]. intros; apply Hall; now right.
Qed.

Lemma psi_loop_fold (mods : list string) (ad ed : list R) (l : list nat)
      (t : R) (rows : list psi_row) :
  fst (fold_left (psi_loop_body mods ad ed) l (t, rows))
  = t + Rsum (map (fun i => _calculate_psi i ad ed) l).
Proof.
  revert t rows. induction l as [|i l IH]; intros t rows; simpl; [lra|].
  rewrite IH. lra.
Qed.

Lemma psi_loop_rows (mods : list string) (ad ed : list R) (l : list nat)
      (t : R) (rows : list psi_row) :
  snd (fold_left (psi_loop_body mods ad ed) l (t, rows))
  = rows ++ map (fun i => {| Modality := nth i mods "";
                             Reference_distribution := nth i ed 0;
                             Actual_distribution := nth i ed 0;
                             Psi := _calculate_psi i ad ed |}) l.
Proof.
  revert t rows. induction l as [|i l IH]; intros t rows; simpl.
  - now rewrite app_nil_r.
  - rewrite IH, <- app_assoc. reflexivity.
Qed.

Lemma bounded_lists_eq (n : nat) (ad ed : list R) :
  List.length ad = n -> List.length ed = n ->
  (map bounded ed = map bounded ad <->
   forall i, In i (seq 0 n) -> bounded (nth i ed 0) = bounded (nth i ad 0)).
Proof.
  intros La Le. split.
  - intros E i _.
    rewrite <- (map_nth bounded ed), <- (map_nth bounded ad), E.
    f_equal.
  - intros Hall. apply (nth_ext _ _ (bounded 0) (bounded 0)).
    + rewrite !length_map. congruence.
    + intros i Hi. rewrite length_map in Hi.
      rewrite !map_nth. apply Hall. apply in_seq. lia.
Qed.

(** The total of the loop over [n] aligned categories. *)
Lemma psi_total_sign (n : nat) (ad ed : list R) :
  let total := Rsum (map (fun i => _calculate_psi i ad ed) (seq 0 n)) in
  0 <= total /\
  (List.length ad = n -> List.length ed = n ->
   (total = 0 <-> map bounded ed = map bounded ad)).
Proof.
  intros total.
  assert (Hnn : forall x, In x (map (fun i => _calculate_psi i ad ed) (seq 0 n)) -> 0 <= x).
  { intros x Hx. apply in_map_iff in Hx as [i [<- _]]. apply calculate_psi_sign. }
  split; [now apply Rsum_nonneg|].
  intros La Le. unfold total. rewrite (Rsum_zero_iff _ Hnn), (bounded_lists_eq n ad ed La Le).
  split.
  - intros Hz i Hi. apply (proj2 (calculate_psi_sign i ad ed)).
    apply Hz. apply in_map_iff. now exists i.
  - intros Hb x Hx. apply in_map_iff in Hx as [i [<- Hi]].
    apply (proj2 (calculate_psi_sign i ad ed)). now apply Hb.
Qed.
End PsiTerm.

Lemma In_keys_dict_set_same (d : dict) (k : string) (v : Z) :
  In k (keys (dict_set d k v)).
Proof.
  rewrite keys_dict_set. destruct (in_dec string_dec k (keys d)); [assumption|].
  apply in_or_app. right. now left.
Qed.

(** Building the frequency table never raises. *)
Lemma calculate_frequencies_total `{Libraries}
    (actual reference : list string) (mc : option Z) :
  exists mods af ef, _calculate_frequencies actual reference mc = Ok (mods, af, ef).
Proof.
  unfold _calculate_frequencies.
  destruct (match mc with Some k => _ | None => false end); [|eauto].
  set (d1 := dict_set _ other_key _).
  assert (Hn1 : NoDup (keys d1)) by apply NoDup_keys_dict_set, NoDup_keys_dict_of_items.
  rewrite (mapM_getitem_keys d1 Hn1). cbn [bind].
  rewrite dict_of_items_NoDup by (rewrite map_map; simpl; now rewrite map_id).
  set (a0 := map _ (keys d1)).
  assert (Ha0 : keys a0 = keys d1).
  { unfold a0, keys. rewrite map_map. simpl. apply map_id. }
  set (a1 := dict_set a0 other_key _).
  assert (Ha1 : keys a1 = keys d1).
  { unfold a1. rewrite keys_dict_set_in; [assumption|].
    rewrite Ha0. apply In_keys_dict_set_same. }
  assert (E : mapM (dict_getitem a1) (keys d1) = Ok (values a1)).
  { rewrite <- Ha1. apply mapM_getitem_keys. rewrite Ha1. exact Hn1. }
  rewrite E. cbn [bind]. eauto.
Qed.

(** [_calculate_drift_psi] in terms of the frequency table. *)
Lemma calculate_drift_psi_eq `{Libraries}
    (actual reference : list string) (mc : option Z) mods af ef :
  _calculate_frequencies actual reference mc = Ok (mods, af, ef) ->
  let ed := np_true_divide ef (len reference) in
  let ad := np_true_divide af (len actual) in
  _calculate_drift_psi actual reference mc =
    Ok (Rsum (map (fun i => _calculate_psi i ad ed) (seq 0 (List.length mods))),
        map (fun i => {| Modality := nth i mods "";
                         Reference_distribution := nth i ed 0%R;
                         Actual_distribution := nth i ed 0%R;
                         Psi := _calculate_psi i ad ed |}) (seq 0 (List.length mods))).
Proof.
  intros Hf ed ad. unfold _calculate_drift_psi. rewrite Hf. cbn [bind].
  fold ed. fold ad. f_equal.
  rewrite (surjective_pairing (fold_left _ _ _)).
  rewrite psi_loop_fold, psi_loop_rows. f_equal. apply Rplus_0_l.
Qed.

(** C1 (as amended). For non-empty series the PSI calculator returns a total
    that is never negative; the total is 0 exactly when the two distributions
    agree after both have been bounded below by 0.0001; in particular it is 0
    when the two distributions are identical. *)
Theorem drift_psi_nonneg_zero_iff_bounded `{Libraries}
    (actual reference : list string) (mc : option Z) :
  actual <> [] -> reference <> [] ->
  exists mods af ef total rows,
    _calculate_frequencies actual reference mc = Ok (mods, af, ef) /\
    _calculate_drift_psi actual reference mc = Ok (total, rows) /\
    let expected_distribution := np_true_divide ef (len reference) in
    let actual_distribution := np_true_divide af (len actual) in
    (0 <= total)%R /\
    (total = 0%R <->
     map bounded expected_distribution = map bounded actual_distribution) /\
    (expected_distribution = actual_distribution -> total = 0%R).
Proof.
  intros _ _.
  destruct (calculate_frequencies_total actual reference mc) as (mods & af & ef & Hf).
  pose proof (calculate_drift_psi_eq actual reference mc mods af ef Hf) as Hp.
  cbv zeta in Hp.
  destruct (frequencies_aligned actual reference mc mods af ef Hf) as [La Le].
  do 5 eexists. split; [exact Hf|]. split; [exact Hp|]. cbv zeta.
  set (ed := np_true_divide ef (len reference)).
  set (ad := np_true_divide af (len actual)).
  destruct (psi_total_sign (List.length mods) ad ed) as [Hnn Hiff].
  assert (Hz : Rsum (map (fun i => _calculate_psi i ad ed) (seq 0 (List.length mods))) = 0%R
               <-> map bounded ed = map bounded ad).
  { apply Hiff; unfold ad, ed, np_true_divide; now rewrite length_map. }
  split; [exact Hnn|]. split; [exact Hz|].
  intros E. apply Hz. now rewrite E.
Qed.

Lemma rare_frequencies :
  _calculate_frequencies (H := sample_libraries) rare_actual rare_reference None
  = Ok (["b"; "a"; "c"], [0; 19999; 1], [1; 19999; 0]).
Proof. vm_compute. reflexivity. Qed.

Lemma rare_len : len rare_reference = 20000 /\ len rare_actual = 20000.
Proof. split; vm_compute; reflexivity. Qed.

(** C1, counterexample: with 20000 values on each side, of which one is a
    category of its own ("b" in the reference, "c" in the actual series), all
    proportions that differ lie below the floor of 0.0001, so the total PSI is
    0 although the two distributions are different. *)
Lemma drift_psi_zero_distributions_differ :
  exists mods af ef total rows,
    _calculate_frequencies (H := sample_libraries) rare_actual rare_reference None
      = Ok (mods, af, ef) /\
    _calculate_drift_psi (H := sample_libraries) rare_actual rare_reference None
      = Ok (total, rows) /\
    total = 0%R /\
    np_true_divide ef (len rare_reference) <> np_true_divide af (len rare_actual).
Proof.
  pose proof rare_frequencies as Hf.
  pose proof (calculate_drift_psi_eq (H := sample_libraries) _ _ _ _ _ _ Hf) as Hp.
  cbv zeta in Hp. destruct rare_len as [Lr La]. rewrite Lr, La in *.
  do 5 eexists. split; [exact Hf|]. split; [exact Hp|]. split.
  - apply (proj2 (psi_total_sign _ _ _)); try reflexivity.
    unfold np_true_divide, bounded, min_distribution_probability. cbn [map].
    rewrite (Rmax_right (1 / 20000)%R) by lra.
    rewrite (Rmax_right (0 / 20000)%R) by lra. reflexivity.
  - unfold np_true_divide. cbn [map]. intros [= E _]. lra.
Qed.

(** ** Chi-squared *)

Lemma sum_indicator_le (l : list string) (a : string) :
  NoDup l -> py_sum (map (fun x => if string_dec a x then 1 else 0) l) <= 1.
Proof.
  intros Hn. destruct (in_dec string_dec a l) as [Hi|Hni].
  - rewrite sum_indicator by assumption. lia.
  - assert (E : py_sum (map (fun x => if string_dec a x then 1 else 0) l) = 0).
    { clear Hn. induction l as [|c l IH]; simpl; [reflexivity|].
      destruct (string_dec a c) as [->|]; [simpl in Hni; tauto|].
      rewrite IH; [reflexivity|]. simpl in Hni. tauto. }
    lia.
Qed.

Lemma sum_count_le (s l : list string) :
  NoDup l -> py_sum (map (count s) l) <= len s.
Proof.
  intros Hn. induction s as [|a s IH].
  - unfold count, len. simpl. clear Hn.
    induction l as [|b l IHl]; simpl; [lia|assumption].
  - assert (E : map (count (a :: s)) l =
                map (fun x => (if string_dec a x then 1 else 0) + count s x) l).
    { apply map_ext. intros x. unfold count. cbn [count_occ].
      destruct (string_dec a x); lia. }
    rewrite E, py_sum_map_add. pose proof (sum_indicator_le l a Hn).
    unfold len in *. cbn [List.length]. lia.
Qed.

(** If the counts of [s] over a duplicate-free [l] already add up to the
    length of [s], every element of [s] is in [l]. *)
Lemma sum_count_full_incl (s l : list string) :
  NoDup l -> py_sum (map (count s) l) = len s -> incl s l.
Proof.
  intros Hn Hs y Hy. destruct (in_dec string_dec y l) as [Hi|Hni]; [assumption|].
  exfalso. pose proof (sum_count_le s (y :: l) (NoDup_cons y Hni Hn)) as Hle.
  simpl in Hle. pose proof (count_pos s y Hy). lia.
Qed.

Lemma In_Counter_count (s : list string) (k : string) (v : Z) :
  In (k, v) (Counter s) -> v = count s k /\ In k s.
Proof.
  intros Hi. split.
  - rewrite <- counter_getitem_Counter. unfold counter_getitem.
    pose proof (NoDup_keys_Counter s) as Hn. revert Hi Hn.
    generalize (Counter s). intros d. induction d as [|[k' v'] d IH]; simpl; [tauto|].
    intros [[= -> ->]|Hi] Hn.
    + now rewrite String.eqb_refl.
    + inversion Hn as [|? ? Hk Hd]; subst.
      destruct (String.eqb_spec k' k) as [->|Hne].
      * exfalso. apply Hk. unfold keys. apply in_map_iff. now exists (k, v).
      * now apply IH.
  - apply In_keys_Counter. unfold keys. apply in_map_iff. now exists (k, v).
Qed.

Lemma combine_append {A B : Type} (l1 l2 : list A) (m1 m2 : list B) :
  List.length l1 = List.length m1 ->
  combine (l1 ++ l2) (m1 ++ m2) = combine l1 m1 ++ combine l2 m2.
Proof.
  revert m1. induction l1 as [|a l1 IH]; intros [|b m1]; simpl; try discriminate.
  - reflexivity.
  - intros [= E]. now rewrite IH.
Qed.


Lemma table_ok_uncapped (actual reference : list string) :
  table_ok (map (count actual) (set_union_list reference actual))
           (map (count reference) (set_union_list reference actual)).
Proof.
  unfold table_ok.
  assert (Hall : forall x, In x (set_union_list reference actual) ->
                           In x reference \/ In x actual)
    by (intros x; apply set_union_list_In).
  induction (set_union_list reference actual) as [|x l IH]; simpl; constructor.
  - unfold row_ok. simpl. repeat split; try apply count_nonneg.
    intros Hz. destruct (Hall x (or_introl eq_refl)) as [Hr|Ha].
    + pose proof (count_pos reference x Hr). lia.
    + now apply count_pos.
  - apply IH. intros y Hy. apply Hall. now right.
Qed.

Lemma sum_top_counts (reference : list string) (k : Z) :
  let top := most_common (Counter reference) k in
  map snd top = map (count reference) (map fst top).
Proof.
  intros top. rewrite map_map. apply map_ext_in. intros [key v] Hkv. simpl.
  apply most_common_incl in Hkv. now apply In_Counter_count in Hkv.
Qed.

Lemma table_ok_capped (actual reference : list string) (k : Z) :
  reference <> [] ->
  len (set_union_list reference actual) > k ->
  let top := most_common (Counter reference) k in
  table_ok (map (count actual) (map fst top)
              ++ [len actual - py_sum (map (count actual) (map fst top))])
           (map snd top ++ [len reference - py_sum (map snd top)]).
Proof.
  intros Hne Hcap top. unfold table_ok.
  assert (Htop : NoDup (map fst top)) by apply most_common_NoDup, NoDup_keys_Counter.
  rewrite combine_append by (now rewrite !length_map).
  apply Forall_app. split.
  - assert (Hin : forall kv, In kv top -> In kv (Counter reference))
      by (intros kv; apply most_common_incl).
    clear Htop. induction top as [|[key v] top' IH]; simpl; constructor.
    + unfold row_ok. simpl.
      destruct (In_Counter_count reference key v (Hin _ (or_introl eq_refl))) as [-> Hk].
      pose proof (count_pos reference key Hk). pose proof (count_nonneg actual key). lia.
    + apply IH. intros kv Hkv. apply Hin. now right.
  - simpl. constructor; [|constructor]. unfold row_ok. simpl.
    pose proof (sum_top_counts reference k) as Es. cbv zeta in Es. fold top in Es.
    rewrite Es.
    pose proof (sum_count_le reference (map fst top) Htop) as Hr.
    pose proof (sum_count_le actual (map fst top) Htop) as Ha.
    repeat split; try lia.
    intros Hz.
    destruct (Z_lt_le_dec 0 (len actual - py_sum (map (count actual) (map fst top))))
      as [Hpos|Hle]; [assumption|exfalso].
    assert (Ir : incl reference (map fst top))
      by (apply sum_count_full_incl; [assumption|lia]).
    assert (Ia : incl actual (map fst top))
      by (apply sum_count_full_incl; [assumption|lia]).
    assert (Iu : incl (set_union_list reference actual) (map fst top)).
    { intros x Hx. apply set_union_list_In in Hx as [Hx|Hx]; [now apply Ir|now apply Ia]. }
    pose proof (NoDup_incl_length (set_union_list_NoDup reference actual) Iu) as Hl.
    rewrite length_map in Hl.
    destruct (Z_le_gt_dec k 0) as [Hk|Hk].
    + unfold top, most_common in Ir. replace (k <=? 0)%Z with true in Ir
        by (symmetry; apply Z.leb_le; lia).
      destruct reference as [|r0 reference']; [congruence|].
      apply (Ir r0). now left.
    + pose proof (most_common_length (Counter reference) k ltac:(lia)) as Hm.
      fold top in Hm. unfold len in *. lia.
Qed.

(** For non-empty series and a fresh synthetic key the table fits the
    chi-squared loop. *)
Lemma frequencies_table_ok `{Libraries}
    (actual reference : list string) (mc : option Z) mods af ef :
  reference <> [] ->
  ~ In other_key reference -> ~ In other_key actual ->
  _calculate_frequencies actual reference mc = Ok (mods, af, ef) ->
  table_ok af ef.
Proof.
  intros Hne Hr Ha Hf.
  assert (Hcase : (exists k, mc = Some k /\ len (set_union_list reference actual) > k)
                  \/ (forall k, mc = Some k -> len (set_union_list reference actual) <= k)).
  { destruct mc as [k|].
    - destruct (Z_gt_le_dec (len (set_union_list reference actual)) k).
      + left. eauto.
      + right. now intros ? [= <-].
    - right. discriminate. }
  destruct Hcase as [[k [-> Hcap]]|Hun].
  - rewrite (frequencies_capped actual reference k Hcap Hr Ha) in Hf.
    injection Hf as <- <- <-. now apply table_ok_capped.
  - rewrite (frequencies_uncapped actual reference mc Hun) in Hf.
    injection Hf as <- <- <-. apply table_ok_uncapped.
Qed.






(** ** Earth mover's distance *)

Section EarthMovers.
Local Open Scope R_scope.

Lemma fold_Rmax_spec (l : list R) (x : R) :
  let m := fold_left Rmax l x in
  In m (x :: l) /\ forall y, In y (x :: l) -> y <= m.
Proof.
  revert x. induction l as [|a l IH]; intros x; simpl.
  - split; [now left|]. intros y [<-|[]]. lra.
  - destruct (IH (Rmax x a)) as [Hin Hub]. simpl in Hin, Hub. split.
    + destruct Hin as [E|Hin]; [|tauto].
      rewrite <- E. unfold Rmax. destruct (Rle_dec x a); tauto.
    + intros y [E|[E|Hy]].
      * subst y. apply Rle_trans with (Rmax x a); [apply Rmax_l|]. apply Hub. now left.
      * subst y. apply Rle_trans with (Rmax x a); [apply Rmax_r|]. apply Hub. now left.
      * apply Hub. now right.
Qed.

Lemma fold_Rmin_spec (l : list R) (x : R) :
  let m := fold_left Rmin l x in
  In m (x :: l) /\ forall y, In y (x :: l) -> m <= y.
Proof.
  revert x. induction l as [|a l IH]; intros x; simpl.
  - split; [now left|]. intros y [<-|[]]. lra.
  - destruct (IH (Rmin x a)) as [Hin Hlb]. simpl in Hin, Hlb. split.
    + destruct Hin as [E|Hin]; [|tauto].
      rewrite <- E. unfold Rmin. destruct (Rle_dec x a); tauto.
    + intros y [E|[E|Hy]].
      * subst y. apply Rle_trans with (Rmin x a); [|apply Rmin_l]. apply Hlb. now left.
      * subst y. apply Rle_trans with (Rmin x a); [|apply Rmin_r]. apply Hlb. now left.
      * apply Hlb. now right.
Qed.

Lemma py_max_spec (l : list R) :
  l <> [] -> exists m, py_max l = Ok m /\ In m l /\ forall y, In y l -> y <= m.
Proof.
  destruct l as [|x l]; [congruence|]. intros _.
  exists (fold_left Rmax l x). split; [reflexivity|]. apply fold_Rmax_spec.
Qed.

Lemma py_min_spec (l : list R) :
  l <> [] -> exists m, py_min l = Ok m /\ In m l /\ forall y, In y l -> m <= y.
Proof.
  destruct l as [|x l]; [congruence|]. intros _.
  exists (fold_left Rmin l x). split; [reflexivity|]. apply fold_Rmin_spec.
Qed.

Lemma sample_space_In (actual reference : list R) (x : R) :
  In x (set_union_values (np_unique reference) (np_unique actual))
  <-> In x reference \/ In x actual.
Proof.
  unfold set_union_values, np_unique. rewrite nodup_In, in_app_iff, !nodup_In. tauto.
Qed.

Lemma normalize_unit_interval (val_min val_max : R) (series : list R) :
  val_min < val_max ->
  (forall x, In x series -> val_min <= x <= val_max) ->
  Forall (fun y => 0 <= y <= 1) (min_max_normalize val_min val_max series).
Proof.
  intros Hlt Hb. unfold min_max_normalize. apply Forall_forall.
  intros y Hy. apply in_map_iff in Hy as [x [<- Hx]]. specialize (Hb x Hx).
  assert (Hd : 0 < val_max - val_min) by lra.
  split.
  - apply Rmult_le_pos; [lra|]. left. now apply Rinv_0_lt_compat.
  - apply Rmult_le_reg_r with (val_max - val_min); [assumption|].
    unfold Rdiv. rewrite Rmult_assoc, Rinv_l by lra. lra.
Qed.

(** The two cases of [_calculate_earth_movers_distance], for series of
    which one at least is not empty. *)
Lemma earth_movers_cases `{Libraries} (actual reference : list R) :
  actual <> [] \/ reference <> [] ->
  exists val_min val_max,
    let sample_space := set_union_values (np_unique reference) (np_unique actual) in
    py_min sample_space = Ok val_min /\
    py_max sample_space = Ok val_max /\
    (In val_min reference \/ In val_min actual) /\
    (In val_max reference \/ In val_max actual) /\
    (forall x, In x reference \/ In x actual -> val_min <= x <= val_max) /\
    (val_max = val_min ->
     _calculate_earth_movers_distance actual reference = Ok 0) /\
    (val_max <> val_min ->
     val_min < val_max /\
     Forall (fun y => 0 <= y <= 1) (min_max_normalize val_min val_max reference) /\
     Forall (fun y => 0 <= y <= 1) (min_max_normalize val_min val_max actual) /\
     _calculate_earth_movers_distance actual reference =
       wasserstein_distance (min_max_normalize val_min val_max reference)
                            (min_max_normalize val_min val_max actual)).
Proof.
  intros Hne.
  set (space := set_union_values (np_unique reference) (np_unique actual)).
  assert (Hs : space <> []).
  { intros E.
    assert (Hx : exists x, In x reference \/ In x actual).
    { destruct Hne as [Hn|Hn].
      - destruct actual as [|x ?]; [congruence|]. exists x. right. now left.
      - destruct reference as [|x ?]; [congruence|]. exists x. left. now left. }
    destruct Hx as [x Hx]. apply sample_space_In in Hx. fold space in Hx.
    rewrite E in Hx. exact Hx. }
  destruct (py_min_spec space Hs) as (lo & Hlo & Ilo & Blo).
  destruct (py_max_spec space Hs) as (hi & Hhi & Ihi & Bhi).
  exists lo, hi. cbv zeta. fold space.
  assert (Hb : forall x, In x reference \/ In x actual -> lo <= x <= hi).
  { intros x Hx. apply sample_space_In in Hx. fold space in Hx. split; auto. }
  split; [assumption|]. split; [assumption|].
  split; [now apply sample_space_In|]. split; [now apply sample_space_In|].
  split; [assumption|].
  unfold _calculate_earth_movers_distance. fold space. rewrite Hhi, Hlo. cbn [bind].
  split.
  - intros E. destruct (Req_dec_T hi lo); [reflexivity|contradiction].
  - intros Hd. destruct (Req_dec_T hi lo); [contradiction|].
    assert (Hlt : lo < hi).
    { assert (lo <= hi) by (apply Blo; assumption). lra. }
    split; [assumption|].
    split; [apply normalize_unit_interval; auto|].
    split; [apply normalize_unit_interval; auto|reflexivity].
Qed.
End EarthMovers.

(** C4. For non-empty numerical series, with [val_min] and [val_max] the
    smallest and the largest value of both series together: when they are
    equal the Earth-Mover calculator returns exactly 0 and no division takes
    place; otherwise [val_min < val_max] and the result is what
    [wasserstein_distance] returns on the reference and the actual series
    with every value [x] replaced by [(x - val_min) / (val_max - val_min)];
    all these values lie in [0,1], and a value equal to [val_min] becomes 0
    and one equal to [val_max] becomes 1. *)
Theorem earth_movers_distance_degenerate_or_normalized `{Libraries}
    (actual reference : list R) :
  actual <> [] -> reference <> [] ->
  exists val_min val_max,
    (In val_min reference \/ In val_min actual) /\
    (In val_max reference \/ In val_max actual) /\
    (forall x, In x reference \/ In x actual -> (val_min <= x <= val_max)%R) /\
    (val_max = val_min ->
     _calculate_earth_movers_distance actual reference = Ok 0%R) /\
    (val_max <> val_min ->
     let normalized := fun x => ((x - val_min) / (val_max - val_min))%R in
     (val_min < val_max)%R /\
     normalized val_min = 0%R /\ normalized val_max = 1%R /\
     Forall (fun y => (0 <= y <= 1)%R) (map normalized reference) /\
     Forall (fun y => (0 <= y <= 1)%R) (map normalized actual) /\
     _calculate_earth_movers_distance actual reference =
       wasserstein_distance (map normalized reference) (map normalized actual)).
Proof.
  intros Ha _.
  destruct (earth_movers_cases actual reference (or_introl Ha))
    as (lo & hi & _ & _ & Ilo & Ihi & Hb & Heq & Hne).
  exists lo, hi.
  split; [exact Ilo|]. split; [exact Ihi|]. split; [exact Hb|].
  split; [exact Heq|].
  intros Hd normalized. destruct (Hne Hd) as (Hlt & Fr & Fa & Hw).
  split; [exact Hlt|]. unfold normalized.
  split; [unfold Rdiv; ring|].
  split; [field; lra|].
  split; [exact Fr|]. split; [exact Fa|]. exact Hw.
Qed.

(** ** The diagnostic table of the PSI calculator *)

(** In every row the field [Actual_distribution] repeats the field
    [Reference_distribution]. *)
Lemma psi_rows_repeat_reference `{Libraries}
    (actual reference : list string) (mc : option Z) total rows :
  _calculate_drift_psi actual reference mc = Ok (total, rows) ->
  map Actual_distribution rows = map Reference_distribution rows.
Proof.
  destruct (calculate_frequencies_total actual reference mc) as (mods & af & ef & Hf).
  rewrite (calculate_drift_psi_eq actual reference mc mods af ef Hf).
  intros [= _ <-]. rewrite !map_map. reflexivity.
Qed.

(** C8, at reference ["a","a"] and actual ["a","b"]: the rows of the table
    carry the reference proportions (1 and 0) in [Actual_distribution], not
    the proportions of the actual series (1/2 and 1/2). *)
Lemma psi_table_actual_distribution_is_reference :
  exists mods af ef total rows,
    _calculate_frequencies (H := sample_libraries) ["a"; "b"] ["a"; "a"] None
      = Ok (mods, af, ef) /\
    _calculate_drift_psi (H := sample_libraries) ["a"; "b"] ["a"; "a"] None
      = Ok (total, rows) /\
    map Modality rows = ["a"; "b"] /\
    map Actual_distribution rows = np_true_divide ef (len ["a"; "a"]) /\
    map Actual_distribution rows = [(2 / 2)%R; (0 / 2)%R] /\
    np_true_divide af (len ["a"; "b"]) = [(1 / 2)%R; (1 / 2)%R] /\
    map Actual_distribution rows <> np_true_divide af (len ["a"; "b"]).
Proof.
  assert (Hf : _calculate_frequencies (H := sample_libraries) ["a"; "b"] ["a"; "a"] None
               = Ok (["a"; "b"], [1; 1], [2; 0])) by (vm_compute; reflexivity).
  pose proof (calculate_drift_psi_eq (H := sample_libraries) _ _ _ _ _ _ Hf) as Hp.
  cbv zeta in Hp.
  do 5 eexists. split; [exact Hf|]. split; [exact Hp|].
  rewrite !map_map. unfold np_true_divide, len. cbn [map seq List.length nth Z.of_nat
    Pos.of_succ_nat Pos.succ Modality Actual_distribution].
  repeat split. intros [= E _]. lra.
Qed.

(** ** Validation in the entry points *)

Lemma bind_Ok_inv {A B : Type} (c : result A) (k : A -> result B) (b : B) :
  bind c k = Ok b -> exists a, c = Ok a /\ k a = Ok b.
Proof. destruct c as [a|e]; simpl; [eauto|discriminate]. Qed.

(** [_extract_series] only hands over series that are not empty. *)
Lemma extract_series_notempty (actual_ds reference_ds : Dataset)
      (column_name feature_type : string) (actual_series reference_series : Series) :
  _extract_series actual_ds reference_ds column_name feature_type
    = Ok (actual_series, reference_series) ->
  series_empty actual_series = false /\ series_empty reference_series = false.
Proof.
  unfold _extract_series. intros Hx.
  apply bind_Ok_inv in Hx as (u1 & _ & Hx).
  apply bind_Ok_inv in Hx as (u2 & _ & Hx).
  apply bind_Ok_inv in Hx as (u3 & _ & Hx).
  apply bind_Ok_inv in Hx as (sa & _ & Hx).
  apply bind_Ok_inv in Hx as (sr & _ & Hx).
  apply bind_Ok_inv in Hx as (u4 & Hv & Hx).
  injection Hx as E1 E2. subst. unfold _validate_series_notempty in Hv.
  destruct (series_empty actual_series); [discriminate|].
  destruct (series_empty reference_series); [discriminate|]. tauto.
Qed.

(** When the validations of the columns pass and one of the two columns is
    empty, [_extract_series] raises the [ValueError] of
    [_validate_series_notempty]. *)
Lemma extract_series_empty (actual_ds reference_ds : Dataset)
      (column_name feature_type : string) (actual_series reference_series : Series) :
  _validate_column_name actual_ds reference_ds column_name = Ok tt ->
  _validate_feature_type actual_ds column_name feature_type = Ok tt ->
  _validate_feature_type reference_ds column_name feature_type = Ok tt ->
  getitem (df actual_ds) column_name = Ok actual_series ->
  getitem (df reference_ds) column_name = Ok reference_series ->
  series_empty actual_series = true \/ series_empty reference_series = true ->
  exists msg,
    _extract_series actual_ds reference_ds column_name feature_type
      = Raise (ValueError msg).
Proof.
  intros H1 H2 H3 H4 H5 He. unfold _extract_series.
  rewrite H1, H2, H3, H4, H5. cbn [bind]. unfold _validate_series_notempty.
  destruct (series_empty actual_series); [cbn [bind]; eauto|].
  destruct He as [He|He]; [discriminate|]. rewrite He. cbn [bind]. eauto.
Qed.

(** The four tests on a feature column stop with that error as well. *)
Lemma feature_tests_reject_empty_series `{Libraries}
      (reference_ds actual_ds : Dataset) (column_name : string) (msg : string) :
  (forall feature_type,
     _extract_series actual_ds reference_ds column_name feature_type
       = Raise (ValueError msg)) ->
  (forall threshold max_categories percent,
     test_drift_psi reference_ds actual_ds column_name threshold max_categories percent
       = Raise (ValueError msg)) /\
  (forall threshold max_categories percent,
     test_drift_chi_square reference_ds actual_ds column_name threshold max_categories
       percent = Raise (ValueError msg)) /\
  (forall threshold,
     test_drift_ks reference_ds actual_ds column_name threshold
       = Raise (ValueError msg)) /\
  (forall threshold,
     test_drift_earth_movers_distance reference_ds actual_ds column_name threshold
       = Raise (ValueError msg)).
Proof.
  intros Hx. unfold test_drift_psi, test_drift_chi_square, test_drift_ks,
    test_drift_earth_movers_distance.
  repeat split; intros; rewrite Hx; reflexivity.
Qed.

(** C5, at two slices without rows: the PSI test on predictions calls the
    model on both slices, runs the calculator on the two empty series of
    predictions and returns a passing result with metric 0; no error is
    raised. *)
Lemma prediction_psi_accepts_empty_series :
  test_drift_prediction_psi (H := sample_libraries) empty_slice empty_slice
    constant_classifier (Some 10) (Some 0.2%R) 0.2%R
  = (Ok (new_TestResult [0] [0] true (Finite 0) None), [empty_slice; empty_slice]).
Proof.
  unfold test_drift_prediction_psi, call_predict, bindM, lift.
  cbn [predict constant_classifier prediction dataset_len empty_slice sample_numeric
       df series_len len List.length Z.of_nat Z.to_nat repeat as_categories app].
  unfold _test_series_drift_psi, _calculate_drift_psi.
  replace (_calculate_frequencies (H := sample_libraries) [] [] (Some 10))
    with (Ok (@nil string, @nil Z, @nil Z)) by (vm_compute; reflexivity).
  cbn [bind fold_left seq List.length map np_true_divide _generate_message_modalities
       select_rows filter app].
  unfold Rle_bool. destruct (Rle_dec 0 0.2) as [_|Hn]; [reflexivity|exfalso; lra].
Qed.

(** ** The classification label of the prediction tests *)

(** The KS test on predictions checks the label first: for a classifier and
    a label outside its label set it raises the [AssertionError] that names
    the label, and the model has not been called. *)
Lemma prediction_ks_rejects_unknown_label `{Libraries}
      (reference_slice actual_slice : Dataset) (model : BaseModel)
      (classification_label : option string) (threshold : option R) :
  model_type (meta model) = CLASSIFICATION ->
  (forall label, classification_label = Some label ->
                 ~ In label (classification_labels (meta model))) ->
  test_drift_prediction_ks reference_slice actual_slice model classification_label
    threshold
  = (Raise (AssertionError
              (dquote ++ label_text classification_label ++ dquote
                 ++ " is not part of model labels: "
                 ++ String.concat "," (classification_labels (meta model)))%string),
     []).
Proof.
  intros Hm Hl. unfold test_drift_prediction_ks. rewrite Hm.
  assert (E : match classification_label with
              | Some label => existsb (String.eqb label) (classification_labels (meta model))
              | None => false
              end = false).
  { destruct classification_label as [label|]; [|reflexivity].
    destruct (existsb (String.eqb label) (classification_labels (meta model))) eqn:Ex;
      [|reflexivity].
    apply existsb_exists in Ex as [x [Hx Ex]]. apply String.eqb_eq in Ex. subst x.
    exfalso. now apply (Hl label eq_refl). }
  rewrite E. reflexivity.
Qed.

(** C6, at a classifier with the labels "yes" and "no" and the requested
    label "maybe": the Earth-Mover test on predictions has no such check; it
    calls the model on the reference slice and then fails with the
    [KeyError] of the lookup of the label among the predicted probabilities. *)
Lemma prediction_earth_movers_unknown_label :
  test_drift_prediction_earth_movers_distance (H := sample_libraries)
    (sample_numeric [1%R; 2%R]) (sample_numeric [1%R; 3%R]) constant_classifier
    (Some "maybe") (Some 0.2%R)
  = (Raise (KeyError "maybe"), [sample_numeric [1%R; 2%R]])
  /\ test_drift_prediction_ks (H := sample_libraries)
       (sample_numeric [1%R; 2%R]) (sample_numeric [1%R; 3%R]) constant_classifier
       (Some "maybe") (Some 0.2%R)
     = (Raise (AssertionError
                 (dquote ++ "maybe" ++ dquote ++ " is not part of model labels: yes,no")%string),
        []).
Proof.
  split.
  - reflexivity.
  - rewrite prediction_ks_rejects_unknown_label; [reflexivity|reflexivity|].
    intros label [= <-]. simpl. intros [E|[E|[]]]; discriminate.
Qed.

(** ** The threshold of the Earth-Mover test on a feature *)

Lemma extract_sample_numeric (actual reference : list R) :
  actual <> [] -> reference <> [] ->
  _extract_series (sample_numeric actual) (sample_numeric reference) "age" "numeric"
  = Ok (Numerical actual, Numerical reference).
Proof.
  intros Ha Hr. destruct actual as [|a actual]; [congruence|].
  destruct reference as [|r reference]; [congruence|]. reflexivity.
Qed.

(** With the threshold unset the test never returns a result: whatever gets
    past the validation and the calculator stops at [metric <= threshold]. *)
Lemma earth_movers_test_unset_threshold `{Libraries}
      (reference_ds actual_ds : Dataset) (column_name : string) :
  exists e,
    test_drift_earth_movers_distance reference_ds actual_ds column_name None = Raise e.
Proof.
  unfold test_drift_earth_movers_distance.
  destruct (_extract_series actual_ds reference_ds column_name "numeric")
    as [[sa sr]|e]; cbn [bind]; [|eauto].
  destruct (as_numbers sa) as [a|e]; cbn [bind]; [|eauto].
  destruct (as_numbers sr) as [r|e]; cbn [bind]; [|eauto].
  destruct (_calculate_earth_movers_distance a r) as [m|e];
    cbn [bind py_le]; eauto.
Qed.

(** C7, at reference [5,5,5], actual [5,5,5] and no threshold: the
    calculator returns 0 and the comparison [0 <= None] raises [TypeError];
    more generally no input makes the test return a result when the
    threshold is unset. *)
Lemma earth_movers_test_unset_threshold_raises :
  test_drift_earth_movers_distance (H := sample_libraries)
    (sample_numeric [5%R; 5%R; 5%R]) (sample_numeric [5%R; 5%R; 5%R]) "age" None
  = Raise (none_comparison "<=")
  /\ forall (L : Libraries) reference_ds actual_ds column_name,
       exists e,
         test_drift_earth_movers_distance (H := L) reference_ds actual_ds column_name None
         = Raise e.
Proof.
  split.
  - unfold test_drift_earth_movers_distance.
    rewrite extract_sample_numeric by discriminate. cbn [bind as_numbers].
    destruct (earth_movers_cases (H := sample_libraries) [5%R; 5%R; 5%R] [5%R; 5%R; 5%R])
      as (lo & hi & _ & _ & Ilo & Ihi & _ & Hdeg & _); [left; discriminate|].
    assert (lo = 5%R) by (simpl in Ilo; intuition).
    assert (hi = 5%R) by (simpl in Ihi; intuition).
    rewrite Hdeg by congruence. reflexivity.
  - intros. apply earth_movers_test_unset_threshold.
Qed.

(** ** Messages of failing tests *)

Lemma extract_sample_categorical (actual reference : list string) :
  actual <> [] -> reference <> [] ->
  _extract_series (sample_categorical actual) (sample_categorical reference)
    "city" "category"
  = Ok (Categorical actual, Categorical reference).
Proof.
  intros Ha Hr. destruct actual as [|a actual]; [congruence|].
  destruct reference as [|r reference]; [congruence|]. reflexivity.
Qed.

Section DisjointSeries.
Local Open Scope R_scope.

Lemma disjoint_contribution_large : 0.4 < disjoint_contribution.
Proof.
  unfold disjoint_contribution, min_distribution_probability.
  assert (H2 : ln 2 < ln (1 / 0.0001)) by (apply ln_increasing; lra).
  pose proof ln_lt_2. nra.
Qed.

Lemma disjoint_frequencies :
  _calculate_frequencies (H := sample_libraries) ["b"; "b"] ["a"; "a"] (Some 20%Z)
  = Ok (["a"; "b"], [0; 2]%Z, [2; 0]%Z).
Proof. vm_compute. reflexivity. Qed.

Lemma disjoint_psi_0 : _calculate_psi 0 [0 / 2; 2 / 2] [2 / 2; 0 / 2] = disjoint_contribution.
Proof.
  unfold _calculate_psi, disjoint_contribution, min_distribution_probability. cbn [nth].
  rewrite (Rmax_left (2 / 2)) by lra. rewrite (Rmax_right (0 / 2)) by lra.
  replace (2 / 2) with 1 by lra. reflexivity.
Qed.

Lemma disjoint_psi_1 : _calculate_psi 1 [0 / 2; 2 / 2] [2 / 2; 0 / 2] = disjoint_contribution.
Proof.
  unfold _calculate_psi, disjoint_contribution, min_distribution_probability. cbn [nth].
  rewrite (Rmax_left (2 / 2)) by lra. rewrite (Rmax_right (0 / 2)) by lra.
  replace (2 / 2) with 1 by lra.
  replace (0.0001 / 1) with 0.0001 by lra.
  replace (1 / 0.0001) with (/ 0.0001) by lra.
  rewrite ln_Rinv by lra. ring.
Qed.

Lemma disjoint_series_psi :
  _test_series_drift_psi (H := sample_libraries) ["b"; "b"] ["a"; "a"] "data"
    (Some 20%Z) 0.2 (Some 0.2)
  = Ok (Some [ {| type := ERROR;
                  text := [Lit "The "; Lit "data";
                           Lit " is drifting for the following modalities: ";
                           Lit "a,b"] |} ],
        false, disjoint_contribution + (disjoint_contribution + 0)).
Proof.
  unfold _test_series_drift_psi.
  rewrite (calculate_drift_psi_eq (H := sample_libraries) _ _ _ _ _ _ disjoint_frequencies).
  cbn [bind List.length seq map Rsum fold_right Psi Modality].
  unfold np_true_divide, len. cbn [map List.length Z.of_nat Pos.of_succ_nat Pos.succ].
  rewrite disjoint_psi_0, disjoint_psi_1.
  pose proof disjoint_contribution_large as Ht.
  unfold Rlt_bool, Rle_bool.
  destruct (Rlt_dec (0.2 * (disjoint_contribution + (disjoint_contribution + 0))) disjoint_contribution) as [_|Hn]; [|exfalso; lra].
  destruct (Rle_dec (disjoint_contribution + (disjoint_contribution + 0)) 0.2) as [Hle|_]; [exfalso; lra|].
  reflexivity.
Qed.

Lemma three_way_frequencies :
  _calculate_frequencies (H := sample_libraries) ["d"; "e"; "f"] ["a"; "b"; "c"]
    (Some 20%Z)
  = Ok (["a"; "b"; "c"; "d"; "e"; "f"], [0; 0; 0; 1; 1; 1]%Z, [1; 1; 1; 0; 0; 0]%Z).
Proof. vm_compute. reflexivity. Qed.

Lemma three_way_psi (i : nat) :
  (i < 6)%nat ->
  _calculate_psi i [0 / 3; 0 / 3; 0 / 3; 1 / 3; 1 / 3; 1 / 3]
                   [1 / 3; 1 / 3; 1 / 3; 0 / 3; 0 / 3; 0 / 3]
  = (1 / 3 - 0.0001) * ln (1 / 3 / 0.0001).
Proof.
  intros Hi. unfold _calculate_psi, min_distribution_probability.
  assert (Hinv : ln (0.0001 / (1 / 3)) = - ln (1 / 3 / 0.0001)).
  { replace (0.0001 / (1 / 3)) with (/ (1 / 3 / 0.0001)) by (field; lra).
    apply ln_Rinv. lra. }
  do 3 (destruct i as [|i];
        [cbn [nth]; rewrite (Rmax_left (1 / 3)) by lra;
         rewrite (Rmax_right (0 / 3)) by lra; reflexivity|]).
  do 3 (destruct i as [|i];
        [cbn [nth]; rewrite (Rmax_left (1 / 3)) by lra;
         rewrite (Rmax_right (0 / 3)) by lra; rewrite Hinv; ring|]).
  lia.
Qed.

Lemma three_way_contribution_large : 0.1 < (1 / 3 - 0.0001) * ln (1 / 3 / 0.0001).
Proof.
  assert (H2 : ln 2 < ln (1 / 3 / 0.0001)) by (apply ln_increasing; lra).
  pose proof ln_lt_2. nra.
Qed.

(** The PSI test on a feature, reference ["a","b","c"] against actual
    ["d","e","f"] with the default parameters, fails as well; the six
    categories contribute alike, none stands out, and the result carries no
    message at all. *)
Lemma psi_failure_without_message :
  exists r,
    test_drift_psi (H := sample_libraries)
      (sample_categorical ["a"; "b"; "c"]) (sample_categorical ["d"; "e"; "f"]) "city"
      (Some 0.2) (Some 20%Z) 0.2 = Ok r /\
    passed r = false /\ messages r = None.
Proof.
  unfold test_drift_psi. rewrite extract_sample_categorical by discriminate.
  cbn [bind as_categories]. unfold _test_series_drift_psi.
  rewrite (calculate_drift_psi_eq (H := sample_libraries) _ _ _ _ _ _
             three_way_frequencies).
  cbn [bind List.length seq map Rsum fold_right Psi Modality].
  unfold np_true_divide, len. cbn [map List.length Z.of_nat Pos.of_succ_nat Pos.succ].
  rewrite !three_way_psi by lia.
  pose proof three_way_contribution_large as Ht.
  set (c := (1 / 3 - 0.0001) * ln (1 / 3 / 0.0001)) in *.
  unfold Rlt_bool, Rle_bool.
  destruct (Rlt_dec (0.2 * (c + (c + (c + (c + (c + (c + 0))))))) c)
    as [Hlt|_]; [exfalso; lra|].
  destruct (Rle_dec (c + (c + (c + (c + (c + (c + 0)))))) 0.2)
    as [Hle|_]; [exfalso; lra|].
  eexists. split; [reflexivity|]. split; reflexivity.
Qed.

(** C9, counterexample: the PSI test on a feature, reference ["a","a"]
    against actual ["b","b"] with the default threshold 0.2, fails, and its
    only message lists the drifting modalities; it holds neither the metric
    nor the threshold. *)
Lemma psi_failure_message_without_metric :
  exists r total,
    test_drift_psi (H := sample_libraries)
      (sample_categorical ["a"; "a"]) (sample_categorical ["b"; "b"]) "city"
      (Some 0.2) (Some 20%Z) 0.2 = Ok r /\
    passed r = false /\
    metric r = Finite total /\
    messages r =
      Some [PbMessage {| type := ERROR;
                         text := [Lit "The "; Lit "data";
                                  Lit " is drifting for the following modalities: ";
                                  Lit "a,b"] |}] /\
    forall msgs m, messages r = Some msgs -> In m msgs ->
                   ~ reports total (Some 0.2) m.
Proof.
  unfold test_drift_psi. rewrite extract_sample_categorical by discriminate.
  cbn [bind as_categories]. rewrite disjoint_series_psi. cbn [bind].
  do 2 eexists. split; [reflexivity|]. cbn [passed metric messages new_TestResult option_map map].
  repeat split.
  intros msgs m [= <-] [<-|[]] [Hnum _]. cbn in Hnum.
  destruct Hnum as [E|[E|[E|[E|[]]]]]; discriminate.
Qed.
End DisjointSeries.

Lemma bindM_Ok_inv {A B : Type} (c : M A) (k : A -> M B) (b : B) (log : list Dataset) :
  bindM c k = (Ok b, log) ->
  exists a l1 l2, c = (Ok a, l1) /\ k a = (Ok b, l2) /\ log = l1 ++ l2.
Proof.
  unfold bindM. destruct c as [[a|e] l1]; [|discriminate].
  destruct (k a) as [r l2] eqn:Hk. intros E. injection E as -> <-.
  exists a, l1, l2. repeat split. exact Hk.
Qed.

Lemma lift_Ok_inv {A : Type} (c : result A) (a : A) (log : list Dataset) :
  lift c = (Ok a, log) -> c = Ok a.
Proof. unfold lift. now intros [= ->]. Qed.

Lemma Rle_bool_false (x y : R) : Rle_bool x y = false -> (y < x)%R.
Proof. unfold Rle_bool. destruct (Rle_dec x y); [discriminate|]. intros _. lra. Qed.

Lemma generate_message_ks_failed (r : Ks_2sampResult) (threshold : option R)
      (data_type : string) :
  _generate_message_ks false r threshold data_type =
  Some [ {| type := ERROR;
            text := [Lit "The "; Lit data_type; Lit " is drifting (p-value is equal to ";
                     Num (np_round (pvalue r) 9);
                     Lit " and is below the test risk level "; OptNum threshold;
                     Lit ") "] |} ].
Proof. reflexivity. Qed.

Lemma select_rows_incl (mask : list bool) (column : list string) (w : string) :
  In w (select_rows mask column) -> In w column.
Proof.
  revert column. induction mask as [|b mask IH]; intros [|x column]; simpl; try tauto.
  destruct b; simpl; intros Hw.
  - destruct Hw as [->|Hw]; [now left|right; now apply IH].
  - right. now apply IH.
Qed.

Lemma generate_message_modalities_some (mask : list bool) (column : list string)
      (test_data : string) (msgs : list TestMessage) :
  _generate_message_modalities mask column test_data = Some msgs ->
  exists listed, listed <> [] /\ msgs = [modalities_message test_data listed] /\
                 forall w, In w listed ->
                           In w column /\ re_match_other_modalities w = false.
Proof.
  unfold _generate_message_modalities.
  set (listed := filter _ _).
  assert (Hl : forall w, In w listed ->
                         In w column /\ re_match_other_modalities w = false).
  { intros w Hw. unfold listed in Hw. apply filter_In in Hw as [Hw Hm].
    split; [now apply select_rows_incl in Hw|].
    now destruct (re_match_other_modalities w). }
  destruct listed as [|x l] eqn:E; [discriminate|].
  intros [= <-]. exists (x :: l). split; [discriminate|]. split; [reflexivity|exact Hl].
Qed.

(** The messages that [new_TestResult] is given by a PSI or chi-squared
    test, when there are any. *)
Lemma modalities_messages_of_result (mask : list bool) (column : list string)
      (test_data : string) (msgs : list any_message) :
  option_map (map PbMessage) (_generate_message_modalities mask column test_data)
    = Some msgs ->
  exists listed,
    listed <> [] /\ msgs = [PbMessage (modalities_message test_data listed)] /\
    forall x t m, In m msgs -> ~ reports x t m.
Proof.
  destruct (_generate_message_modalities mask column test_data) as [l|] eqn:Hg;
    [|discriminate].
  apply generate_message_modalities_some in Hg as (listed & Hne & -> & _).
  intros [= <-]. exists listed. split; [exact Hne|]. split; [reflexivity|].
  intros x t m [<-|[]] [Hnum _]. cbn in Hnum.
  destruct Hnum as [E|[E|[E|[E|[]]]]]; discriminate.
Qed.

(** What [_test_series_drift_psi] and [_test_series_drift_chi] return as
    messages comes from [_generate_message_modalities]. *)
Lemma test_series_drift_psi_messages `{Libraries}
    (actual reference : list string) (test_data : string) (mc : option Z)
    (percent : R) (threshold : option R) m p total :
  _test_series_drift_psi actual reference test_data mc percent threshold
    = Ok (m, p, total) ->
  exists mask column, m = _generate_message_modalities mask column test_data.
Proof.
  unfold _test_series_drift_psi. intros Ht.
  apply bind_Ok_inv in Ht as ([t rows] & _ & Ht). injection Ht as <- _ _. eauto.
Qed.

Lemma test_series_drift_chi_messages `{Libraries}
    (actual reference : list string) (test_data : string) (percent : R)
    (mc : option Z) (threshold : option R) m p_value p :
  _test_series_drift_chi actual reference test_data percent mc threshold
    = Ok (m, p_value, p) ->
  exists mask column, m = _generate_message_modalities mask column test_data.
Proof.
  unfold _test_series_drift_chi. intros Ht.
  apply bind_Ok_inv in Ht as ([[c pv] rows] & _ & Ht).
  apply bind_Ok_inv in Ht as (b & _ & Ht). injection Ht as <- _ _. eauto.
Qed.

(** C9 (as amended). When a KS test (on a feature or on predictions) fails,
    the p-value is below the threshold and the single message holds the
    p-value rounded to 9 decimals and the threshold and says "below"; when the
    Earth-Mover test on predictions fails, the metric is above the threshold
    and the single message holds the rounded metric and the threshold and
    says "above"; when the Earth-Mover test on a feature fails, the metric is
    above the threshold and the single message holds the rounded metric and
    the threshold.  Whatever messages one of the PSI and chi-squared tests
    (on a feature or on predictions) returns, failing or not, they are a
    single message that lists drifting modalities and holds no metric and no
    threshold. *)
Theorem failing_test_messages `{Libraries} :
  (forall reference_ds actual_ds column_name threshold r,
     test_drift_ks reference_ds actual_ds column_name threshold = Ok r ->
     passed r = false ->
     exists t pv,
       threshold = Some t /\ metric r = Finite pv /\ (pv < t)%R /\
       messages r =
         Some [PbMessage
                 {| type := ERROR;
                    text := [Lit "The "; Lit "data";
                             Lit " is drifting (p-value is equal to ";
                             Num (np_round pv 9);
                             Lit " and is below the test risk level "; OptNum (Some t);
                             Lit ") "] |}]) /\
  (forall reference_slice actual_slice model label threshold r log,
     test_drift_prediction_ks reference_slice actual_slice model label threshold
       = (Ok r, log) ->
     passed r = false ->
     exists t pv,
       threshold = Some t /\ metric r = Finite pv /\ (pv < t)%R /\
       messages r =
         Some [PbMessage
                 {| type := ERROR;
                    text := [Lit "The "; Lit "prediction";
                             Lit " is drifting (p-value is equal to ";
                             Num (np_round pv 9);
                             Lit " and is below the test risk level "; OptNum (Some t);
                             Lit ") "] |}]) /\
  (forall reference_slice actual_slice model label threshold r log,
     test_drift_prediction_earth_movers_distance reference_slice actual_slice model
       label threshold = (Ok r, log) ->
     passed r = false ->
     exists t m,
       threshold = Some t /\ metric r = Finite m /\ (t < m)%R /\
       messages r =
         Some [PbMessage
                 {| type := ERROR;
                    text := [Lit "The prediction is drifting (metric is equal to ";
                             Num (np_round m 9);
                             Lit " and is above the test risk level "; OptNum (Some t);
                             Lit ") "] |}]) /\
  (forall reference_ds actual_ds column_name threshold r,
     test_drift_earth_movers_distance reference_ds actual_ds column_name threshold
       = Ok r ->
     passed r = false ->
     exists t m msg,
       threshold = Some t /\ metric r = Finite m /\ (t < m)%R /\
       messages r = Some [msg] /\ reports m (Some t) msg) /\
  (forall reference_ds actual_ds column_name threshold max_categories percent r msgs,
     test_drift_psi reference_ds actual_ds column_name threshold max_categories percent
       = Ok r ->
     messages r = Some msgs ->
     exists listed,
       listed <> [] /\ msgs = [PbMessage (modalities_message "data" listed)] /\
       forall x t m, In m msgs -> ~ reports x t m) /\
  (forall reference_ds actual_ds column_name threshold max_categories percent r msgs,
     test_drift_chi_square reference_ds actual_ds column_name threshold max_categories
       percent = Ok r ->
     messages r = Some msgs ->
     exists listed,
       listed <> [] /\ msgs = [PbMessage (modalities_message "data" listed)] /\
       forall x t m, In m msgs -> ~ reports x t m) /\
  (forall reference_slice actual_slice model max_categories threshold percent r log
          msgs,
     test_drift_prediction_psi reference_slice actual_slice model max_categories
       threshold percent = (Ok r, log) ->
     messages r = Some msgs ->
     exists listed,
       listed <> [] /\ msgs = [PbMessage (modalities_message "prediction" listed)] /\
       forall x t m, In m msgs -> ~ reports x t m) /\
  (forall reference_slice actual_slice model max_categories threshold percent r log
          msgs,
     test_drift_prediction_chi_square reference_slice actual_slice model
       max_categories threshold percent = (Ok r, log) ->
     messages r = Some msgs ->
     exists listed,
       listed <> [] /\ msgs = [PbMessage (modalities_message "prediction" listed)] /\
       forall x t m, In m msgs -> ~ reports x t m).
Proof.
  split; [|split; [|split; [|split; [|split; [|split; [|split]]]]]].
  - intros reference_ds actual_ds column_name threshold r Ht Hp.
    unfold test_drift_ks in Ht.
    apply bind_Ok_inv in Ht as ([sa sr] & _ & Ht).
    apply bind_Ok_inv in Ht as (a & _ & Ht).
    apply bind_Ok_inv in Ht as (rf & _ & Ht).
    apply bind_Ok_inv in Ht as (ks & _ & Ht).
    apply bind_Ok_inv in Ht as (p & Hge & Ht).
    injection Ht as <-. cbn [passed new_TestResult] in Hp. subst p.
    destruct threshold as [t|]; [|discriminate]. injection Hge as Hge.
    apply Rle_bool_false in Hge.
    exists t, (pvalue ks).
    split; [reflexivity|]. split; [reflexivity|]. split; [assumption|]. reflexivity.
  - intros reference_slice actual_slice model label threshold r log Ht Hp.
    unfold test_drift_prediction_ks in Ht.
    apply bindM_Ok_inv in Ht as (u & l1 & l2 & _ & Ht & _).
    apply bindM_Ok_inv in Ht as (pr & l3 & l4 & _ & Ht & _).
    apply bindM_Ok_inv in Ht as (pa & l5 & l6 & _ & Ht & _).
    apply bindM_Ok_inv in Ht as (ks & l7 & l8 & _ & Ht & _).
    apply lift_Ok_inv in Ht. injection Ht as <-.
    cbn [passed new_TestResult] in Hp.
    destruct threshold as [t|]; [|discriminate].
    exists t, (pvalue ks). pose proof (Rle_bool_false _ _ Hp).
    split; [reflexivity|]. split; [reflexivity|]. split; [assumption|].
    cbn [messages new_TestResult]. rewrite Hp. reflexivity.
  - intros reference_slice actual_slice model label threshold r log Ht Hp.
    unfold test_drift_prediction_earth_movers_distance in Ht.
    apply bindM_Ok_inv in Ht as (pr & l3 & l4 & _ & Ht & _).
    apply bindM_Ok_inv in Ht as (pa & l5 & l6 & _ & Ht & _).
    apply bindM_Ok_inv in Ht as (m & l7 & l8 & _ & Ht & _).
    apply lift_Ok_inv in Ht. injection Ht as <-.
    cbn [passed new_TestResult] in Hp.
    destruct threshold as [t|]; [|discriminate].
    exists t, m. pose proof (Rle_bool_false _ _ Hp).
    split; [reflexivity|]. split; [reflexivity|]. split; [assumption|].
    cbn [messages new_TestResult]. rewrite Hp. reflexivity.
  - intros reference_ds actual_ds column_name threshold r Ht Hp.
    unfold test_drift_earth_movers_distance in Ht.
    apply bind_Ok_inv in Ht as ([sa sr] & _ & Ht).
    apply bind_Ok_inv in Ht as (a & _ & Ht).
    apply bind_Ok_inv in Ht as (rf & _ & Ht).
    apply bind_Ok_inv in Ht as (m & _ & Ht).
    apply bind_Ok_inv in Ht as (p & Hle & Ht).
    injection Ht as <-. cbn [passed new_TestResult] in Hp.
    destruct threshold as [t|]; [|discriminate]. subst p.
    injection Hle as Hle. apply Rle_bool_false in Hle.
    do 3 eexists. split; [reflexivity|]. split; [reflexivity|]. split; [assumption|].
    cbn [messages new_TestResult negb option_map map]. split; [reflexivity|].
    unfold reports. cbn. tauto.
  - intros reference_ds actual_ds column_name threshold mc pct r msgs Ht Hm.
    unfold test_drift_psi in Ht.
    apply bind_Ok_inv in Ht as ([sa sr] & _ & Ht).
    apply bind_Ok_inv in Ht as (x1 & _ & Ht).
    apply bind_Ok_inv in Ht as (x2 & _ & Ht).
    apply bind_Ok_inv in Ht as ([[m p] t] & Hx & Ht).
    injection Ht as <-. cbn [messages new_TestResult] in Hm.
    apply test_series_drift_psi_messages in Hx as (mask & column & ->).
    exact (modalities_messages_of_result _ _ _ _ Hm).
  - intros reference_ds actual_ds column_name threshold mc pct r msgs Ht Hm.
    unfold test_drift_chi_square in Ht.
    apply bind_Ok_inv in Ht as ([sa sr] & _ & Ht).
    apply bind_Ok_inv in Ht as (x1 & _ & Ht).
    apply bind_Ok_inv in Ht as (x2 & _ & Ht).
    apply bind_Ok_inv in Ht as ([[m pv] p] & Hx & Ht).
    injection Ht as <-. cbn [messages new_TestResult] in Hm.
    apply test_series_drift_chi_messages in Hx as (mask & column & ->).
    exact (modalities_messages_of_result _ _ _ _ Hm).
  - intros reference_slice actual_slice model mc threshold pct r log msgs Ht Hm.
    unfold test_drift_prediction_psi in Ht.
    apply bindM_Ok_inv in Ht as (rr & l1 & l2 & _ & Ht & _).
    apply bindM_Ok_inv in Ht as (ar & l3 & l4 & _ & Ht & _).
    apply bindM_Ok_inv in Ht as (pr & l5 & l6 & _ & Ht & _).
    apply bindM_Ok_inv in Ht as (pa & l7 & l8 & _ & Ht & _).
    apply bindM_Ok_inv in Ht as ([[m p] t] & l9 & l10 & Hx & Ht & _).
    apply lift_Ok_inv in Hx. apply lift_Ok_inv in Ht. injection Ht as <-.
    cbn [messages new_TestResult] in Hm.
    apply test_series_drift_psi_messages in Hx as (mask & column & ->).
    exact (modalities_messages_of_result _ _ _ _ Hm).
  - intros reference_slice actual_slice model mc threshold pct r log msgs Ht Hm.
    unfold test_drift_prediction_chi_square in Ht.
    apply bindM_Ok_inv in Ht as (rr & l1 & l2 & _ & Ht & _).
    apply bindM_Ok_inv in Ht as (ar & l3 & l4 & _ & Ht & _).
    apply bindM_Ok_inv in Ht as (pr & l5 & l6 & _ & Ht & _).
    apply bindM_Ok_inv in Ht as (pa & l7 & l8 & _ & Ht & _).
    apply bindM_Ok_inv in Ht as ([[m pv] p] & l9 & l10 & Hx & Ht & _).
    apply lift_Ok_inv in Hx. apply lift_Ok_inv in Ht. injection Ht as <-.
    cbn [messages new_TestResult] in Hm.
    apply test_series_drift_chi_messages in Hx as (mask & column & ->).
    exact (modalities_messages_of_result _ _ _ _ Hm).
Qed.

(** ** Mapping the value a test returns *)

(** The branches of [map_result_to_single_test_result]: a
    [SingleTestResult] is returned as it is, a [bool] is wrapped as the
    [SingleTestResult] with that [passed] field, a [TestResult] whose
    [messages] is a list is converted field by field, and a value of any
    other type raises [ValueError]. *)
Lemma map_result_branches :
  (forall r, map_result_to_single_test_result (PySingleTestResult r) = Ok r) /\
  (forall b,
     map_result_to_single_test_result (PyBool b) = Ok (SingleTestResult_passed b) /\
     s_passed (SingleTestResult_passed b) = b) /\
  (forall r msgs,
     messages r = Some msgs ->
     map_result_to_single_test_result (PyTestResult r) =
       Ok {| s_passed := passed r;
             s_messages :=
               map (fun m => {| type := if is_level_error m then ERROR else INFO;
                                text := message_text_of m |}) msgs;
             s_props := props r;
             s_metric := metric r;
             s_missing_count := missing_count r;
             s_missing_percent := missing_percent r;
             s_unexpected_count := unexpected_count r;
             s_unexpected_percent := unexpected_percent r;
             s_unexpected_percent_total := unexpected_percent_total r;
             s_unexpected_percent_nonmissing := unexpected_percent_nonmissing r;
             s_partial_unexpected_index_list :=
               map (fun puc => {| pb_value := value puc; pb_count := count_ puc |})
                   (partial_unexpected_index_list r);
             s_unexpected_index_list := unexpected_index_list r;
             s_output_df := match output_df r with Some b => b | None => "" end;
             s_number_of_perturbed_rows := number_of_perturbed_rows r;
             s_actual_slices_size := actual_slices_size r;
             s_reference_slices_size := reference_slices_size r |}) /\
  (forall v,
     match v with
     | PySingleTestResult _ | PyTestResult _ | PyBool _ => False
     | PyInt _ | PyFloat _ | PyStr _ | PyNone => True
     end ->
     map_result_to_single_test_result v =
       Raise (ValueError "Result of test can only be 'GiskardTestResult' or 'bool'")).
Proof.
  split; [reflexivity|]. split; [intros b; split; reflexivity|]. split.
  - intros r msgs Hm. unfold map_result_to_single_test_result. rewrite Hm. reflexivity.
  - intros [r|r|b|n|x|s|] Hv; try contradiction; reflexivity.
Qed.

Lemma map_result_branches_at_sample :
  messages sample_result
    = Some [CoreMessage {| level := LEVEL_ERROR; core_text := [Lit "drift"] |};
            PbMessage {| type := ERROR; text := [Lit "drift"] |}] /\
  exists s,
    map_result_to_single_test_result (PyTestResult sample_result) = Ok s /\
    s_passed s = false /\
    s_messages s = [ {| type := ERROR; text := [Lit "drift"] |};
                     {| type := INFO; text := [Lit "drift"] |} ] /\
    s_actual_slices_size s = [2].
Proof.
  split; [reflexivity|].
  eexists. split.
  - apply (proj1 (proj2 (proj2 map_result_branches)) sample_result).
    reflexivity.
  - repeat split.
Qed.

(** C10, at the result of a KS test that passes.  The KS test on the
    feature "age", reference [1, 3] against actual [1, 2] with the threshold
    0.005 (the p-value being 0.01), returns a [TestResult] that has passed
    and whose [messages] is [None]; on this [TestResult]
    [map_result_to_single_test_result] raises [TypeError] when it iterates
    the messages: it neither converts the result nor raises [ValueError]. *)
Theorem map_result_raises_on_passing_result :
  exists r,
    test_drift_ks (H := sample_libraries) (sample_numeric [1%R; 3%R])
      (sample_numeric [1%R; 2%R]) "age" (Some 0.005%R) = Ok r /\
    passed r = true /\
    messages r = None /\
    map_result_to_single_test_result (PyTestResult r)
      = Raise (TypeError "'NoneType' object is not iterable") /\
    (forall s, map_result_to_single_test_result (PyTestResult r) <> Ok s) /\
    (forall msg,
       map_result_to_single_test_result (PyTestResult r) <> Raise (ValueError msg)).
Proof.
  exists (new_TestResult [2] [2] true (Finite 0.01) None). split.
  - unfold test_drift_ks. rewrite extract_sample_numeric by discriminate.
    cbn [bind as_numbers _calculate_ks ks_2samp sample_libraries py_ge pvalue].
    unfold Rle_bool. destruct (Rle_dec 0.005 0.01) as [_|Hn]; [|exfalso; lra].
    reflexivity.
  - split; [reflexivity|]. split; [reflexivity|]. split; [reflexivity|].
    split; [intros s; discriminate|intros msg; discriminate].
Qed.

(** ** The statements above at sample inputs *)

Lemma calculate_frequencies_sums_witness :
  ~ In (other_key (H := sample_libraries)) ["a"; "a"; "b"] /\
  ~ In (other_key (H := sample_libraries)) ["a"; "b"; "c"] /\
  exists mods af ef,
    _calculate_frequencies (H := sample_libraries) ["a"; "b"; "c"] ["a"; "a"; "b"] (Some 1)
      = Ok (mods, af, ef) /\
    py_sum ef = len ["a"; "a"; "b"] /\
    py_sum af = len ["a"; "b"; "c"] /\
    (forall k, Some 1 = Some k -> 0 <= k ->
               len (set_union_list ["a"; "a"; "b"] ["a"; "b"; "c"]) > k ->
               len mods <= k + 1).
Proof.
  assert (H1 : ~ In (other_key (H := sample_libraries)) ["a"; "a"; "b"])
    by (simpl; intuition discriminate).
  assert (H2 : ~ In (other_key (H := sample_libraries)) ["a"; "b"; "c"])
    by (simpl; intuition discriminate).
  split; [exact H1|]. split; [exact H2|].
  exact (calculate_frequencies_sums (H := sample_libraries) _ _ (Some 1) H1 H2).
Defined.

Lemma drift_psi_nonneg_zero_iff_bounded_witness :
  ["a"; "b"; "c"] <> [] /\ ["a"; "a"; "b"] <> [] /\
  exists mods af ef total rows,
    _calculate_frequencies (H := sample_libraries) ["a"; "b"; "c"] ["a"; "a"; "b"] (Some 20)
      = Ok (mods, af, ef) /\
    _calculate_drift_psi (H := sample_libraries) ["a"; "b"; "c"] ["a"; "a"; "b"] (Some 20)
      = Ok (total, rows) /\
    let expected_distribution := np_true_divide ef (len ["a"; "a"; "b"]) in
    let actual_distribution := np_true_divide af (len ["a"; "b"; "c"]) in
    (0 <= total)%R /\
    (total = 0%R <->
     map bounded expected_distribution = map bounded actual_distribution) /\
    (expected_distribution = actual_distribution -> total = 0%R).
Proof.
  assert (H1 : ["a"; "b"; "c"] <> []) by discriminate.
  assert (H2 : ["a"; "a"; "b"] <> []) by discriminate.
  split; [exact H1|]. split; [exact H2|].
  exact (drift_psi_nonneg_zero_iff_bounded (H := sample_libraries) _ _ (Some 20) H1 H2).
Defined.



Lemma earth_movers_distance_degenerate_or_normalized_witness :
  [1%R; 2%R] <> [] /\ [1%R; 3%R] <> [] /\
  exists val_min val_max,
    (In val_min [1%R; 3%R] \/ In val_min [1%R; 2%R]) /\
    (In val_max [1%R; 3%R] \/ In val_max [1%R; 2%R]) /\
    (forall x, In x [1%R; 3%R] \/ In x [1%R; 2%R] -> (val_min <= x <= val_max)%R) /\
    (val_max = val_min ->
     _calculate_earth_movers_distance (H := sample_libraries) [1%R; 2%R] [1%R; 3%R]
       = Ok 0%R) /\
    (val_max <> val_min ->
     let normalized := fun x => ((x - val_min) / (val_max - val_min))%R in
     (val_min < val_max)%R /\
     normalized val_min = 0%R /\ normalized val_max = 1%R /\
     Forall (fun y => (0 <= y <= 1)%R) (map normalized [1%R; 3%R]) /\
     Forall (fun y => (0 <= y <= 1)%R) (map normalized [1%R; 2%R]) /\
     _calculate_earth_movers_distance (H := sample_libraries) [1%R; 2%R] [1%R; 3%R] =
       wasserstein_distance (Libraries := sample_libraries)
         (map normalized [1%R; 3%R]) (map normalized [1%R; 2%R])).
Proof.
  assert (H1 : [1%R; 2%R] <> []) by discriminate.
  assert (H2 : [1%R; 3%R] <> []) by discriminate.
  split; [exact H1|]. split; [exact H2|].
  exact (earth_movers_distance_degenerate_or_normalized (H := sample_libraries) _ _ H1 H2).
Defined.

Lemma sample_ks_failure :
  test_drift_ks (H := sample_libraries) (sample_numeric [1%R; 3%R])
    (sample_numeric [1%R; 2%R]) "age" (Some 0.05%R)
  = Ok (new_TestResult [2] [2] false (Finite 0.01)
          (_generate_message_ks false {| statistic := 0.5; pvalue := 0.01 |}
             (Some 0.05%R) "data")).
Proof.
  unfold test_drift_ks. rewrite extract_sample_numeric by discriminate.
  cbn [bind as_numbers _calculate_ks ks_2samp sample_libraries py_ge pvalue].
  unfold Rle_bool. destruct (Rle_dec 0.05 0.01) as [Hle|_]; [exfalso; lra|].
  reflexivity.
Qed.

Lemma failing_test_messages_witness :
  exists r,
    test_drift_ks (H := sample_libraries) (sample_numeric [1%R; 3%R])
      (sample_numeric [1%R; 2%R]) "age" (Some 0.05%R) = Ok r /\
    passed r = false /\
    exists t pv,
      Some 0.05%R = Some t /\ metric r = Finite pv /\ (pv < t)%R /\
      messages r =
        Some [PbMessage
                {| type := ERROR;
                   text := [Lit "The "; Lit "data";
                            Lit " is drifting (p-value is equal to ";
                            Num (np_round pv 9);
                            Lit " and is below the test risk level "; OptNum (Some t);
                            Lit ") "] |}].
Proof.
  eexists. split; [exact sample_ks_failure|]. split; [reflexivity|].
  exact (proj1 (failing_test_messages (H := sample_libraries)) _ _ _ _ _
           sample_ks_failure eq_refl).
Defined.

(** * Further properties *)

(** ** The frequency table *)

Lemma frequencies_modalities_NoDup `{Libraries}
    (actual reference : list string) (mc : option Z) mods af ef :
  _calculate_frequencies actual reference mc = Ok (mods, af, ef) -> NoDup mods.
Proof.
  unfold _calculate_frequencies.
  destruct (match mc with Some k => _ | None => false end).
  - set (d1 := dict_set _ other_key _). set (a1 := dict_set _ other_key _).
    destruct (mapM (dict_getitem d1) (keys d1)) as [e|]; cbn [bind]; [|discriminate].
    destruct (mapM (dict_getitem a1) (keys d1)) as [a|]; cbn [bind]; [|discriminate].
    intros [= <- _ _]. apply NoDup_keys_dict_set, NoDup_keys_dict_of_items.
  - intros [= <- _ _]. apply set_union_list_NoDup.
Qed.

(** X1. Whatever the two series and [max_categories] are (also when the
    generated key happens to occur in a series), building the frequency table
    raises no [KeyError]; the categories are pairwise different and the two
    arrays of counts have one entry per category. *)
Theorem calculate_frequencies_never_raises `{Libraries}
    (actual reference : list string) (mc : option Z) :
  exists mods af ef,
    _calculate_frequencies actual reference mc = Ok (mods, af, ef) /\
    NoDup mods /\
    List.length af = List.length mods /\
    List.length ef = List.length mods.
Proof.
  destruct (calculate_frequencies_total actual reference mc) as (mods & af & ef & Hf).
  exists mods, af, ef. split; [exact Hf|].
  split; [exact (frequencies_modalities_NoDup _ _ _ _ _ _ Hf)|].
  exact (frequencies_aligned _ _ _ _ _ _ Hf).
Qed.

(** X2. Without capping ([max_categories] unset, or not exceeded by the number
    of distinct values) the table has exactly one category per distinct value
    of the two series, and its counts are the numbers of occurrences in the
    actual and in the reference series: 0 for a value that a series lacks. *)
Theorem calculate_frequencies_uncapped_counts `{Libraries}
    (actual reference : list string) (mc : option Z) :
  (forall k, mc = Some k -> len (set_union_list reference actual) <= k) ->
  exists mods,
    _calculate_frequencies actual reference mc
      = Ok (mods, map (count actual) mods, map (count reference) mods) /\
    NoDup mods /\
    (forall x, In x mods <-> In x reference \/ In x actual) /\
    (forall x, ~ In x actual -> count actual x = 0) /\
    (forall x, ~ In x reference -> count reference x = 0).
Proof.
  intros Hun. exists (set_union_list reference actual).
  split; [now apply frequencies_uncapped|].
  split; [apply set_union_list_NoDup|].
  split; [apply set_union_list_In|].
  split; intros x; apply count_notin.
Qed.

Lemma calculate_frequencies_uncapped_counts_witness :
  (forall k, Some 20 = Some k -> len (set_union_list ["a"; "a"] ["a"; "b"]) <= k) /\
  exists mods,
    _calculate_frequencies (H := sample_libraries) ["a"; "b"] ["a"; "a"] (Some 20)
      = Ok (mods, map (count ["a"; "b"]) mods, map (count ["a"; "a"]) mods) /\
    NoDup mods /\
    (forall x, In x mods <-> In x ["a"; "a"] \/ In x ["a"; "b"]) /\
    (forall x, ~ In x ["a"; "b"] -> count ["a"; "b"] x = 0) /\
    (forall x, ~ In x ["a"; "a"] -> count ["a"; "a"] x = 0).
Proof.
  assert (H1 : forall k, Some 20 = Some k -> len (set_union_list ["a"; "a"] ["a"; "b"]) <= k)
    by (intros k [= <-]; vm_compute; discriminate).
  split; [exact H1|].
  exact (calculate_frequencies_uncapped_counts (H := sample_libraries) _ _ (Some 20) H1).
Defined.

(** *** The capped table *)

Lemma insert_desc_In (x y : string * Z) (l : list (string * Z)) :
  In y (insert_desc x l) <-> y = x \/ In y l.
Proof.
  split.
  - intros Hy. apply (Permutation_in _ (insert_desc_perm x l)) in Hy.
    destruct Hy; [left; congruence|now right].
  - intros Hy. apply (Permutation_in _ (Permutation_sym (insert_desc_perm x l))).
    destruct Hy; [left; congruence|now right].
Qed.

Lemma insert_desc_sorted (x : string * Z) (l : list (string * Z)) :
  sorted_by_count l -> sorted_by_count (insert_desc x l).
Proof.
  induction 1 as [|y l Hy Hl IH]; simpl.
  - constructor; [intros ? []|constructor].
  - destruct (Z.leb_spec (snd y) (snd x)) as [Hle|Hlt].
    + constructor; [|now constructor].
      intros z [<-|Hz]; [assumption|]. specialize (Hy z Hz). lia.
    + constructor; [|assumption].
      intros z Hz. apply insert_desc_In in Hz as [->|Hz]; [lia|now apply Hy].
Qed.

Lemma sorted_desc_sorted (l : list (string * Z)) : sorted_by_count (sorted_desc l).
Proof.
  induction l as [|x l IH]; simpl; [constructor|now apply insert_desc_sorted].
Qed.

Lemma sorted_app_le (l1 l2 : list (string * Z)) :
  sorted_by_count (l1 ++ l2) ->
  forall x y, In x l1 -> In y l2 -> snd y <= snd x.
Proof.
  induction l1 as [|a l1 IH]; simpl; intros Hs x y Hx Hy; [contradiction|].
  inversion Hs as [|? ? Ha Hl]; subst. destruct Hx as [<-|Hx].
  - apply Ha. apply in_or_app. now right.
  - now apply (IH Hl x y).
Qed.

Lemma dict_get_Some_In (d : dict) (k : string) (v : Z) :
  dict_get d k = Some v -> In (k, v) d.
Proof.
  induction d as [|[k' v'] d IH]; simpl; [discriminate|].
  destruct (String.eqb_spec k' k) as [->|Hne].
  - intros [= ->]. now left.
  - intros Hg. right. now apply IH.
Qed.

Lemma In_Counter_pair (s : list string) (y : string) :
  In y s -> In (y, count s y) (Counter s).
Proof.
  intros Hy. pose proof (count_pos s y Hy) as Hp.
  pose proof (counter_getitem_Counter s y) as Hc. unfold counter_getitem in Hc.
  destruct (dict_get (Counter s) y) as [v|] eqn:E; [|lia].
  subst v. now apply dict_get_Some_In.
Qed.

Lemma Counter_length (s : list string) :
  List.length (Counter s) = List.length (distinct s).
Proof.
  rewrite <- (length_map fst). fold (keys (Counter s)).
  apply Permutation_length. apply NoDup_Permutation.
  - apply NoDup_keys_Counter.
  - apply distinct_NoDup.
  - intros x. rewrite distinct_In. split; [apply In_keys_Counter|].
    intros Hx. unfold keys. apply in_map_iff.
    exists (x, count s x). split; [reflexivity|now apply In_Counter_pair].
Qed.

Lemma sum_indicator_notin (l : list string) (a : string) :
  ~ In a l -> py_sum (map (fun x => if string_dec a x then 1 else 0) l) = 0.
Proof.
  induction l as [|c l IH]; simpl; intros Hn; [reflexivity|].
  destruct (string_dec a c) as [->|]; [tauto|]. rewrite IH; [reflexivity|tauto].
Qed.

(** The occurrences of the kept categories and the values outside of them
    make up the series. *)
Lemma outside_count (kept s : list string) :
  NoDup kept -> py_sum (map (count s) kept) + len (outside kept s) = len s.
Proof.
  intros Hn. induction s as [|a s IH].
  - unfold count, len, outside. simpl. clear Hn.
    induction kept as [|b kept IHk]; simpl; [reflexivity|assumption].
  - assert (E : map (count (a :: s)) kept =
                map (fun x => (if string_dec a x then 1 else 0) + count s x) kept).
    { apply map_ext. intros x. unfold count. cbn [count_occ].
      destruct (string_dec a x); lia. }
    rewrite E, py_sum_map_add. unfold outside in *. cbn [filter].
    destruct (contains kept a) eqn:Hc; cbn [negb].
    + apply contains_In in Hc. rewrite sum_indicator by assumption.
      unfold len in *. cbn [List.length]. lia.
    + assert (Hni : ~ In a kept) by (rewrite <- contains_In; congruence).
      rewrite sum_indicator_notin by assumption.
      unfold len in *. cbn [List.length]. lia.
Qed.

Lemma most_common_dominates (s : list string) (k : Z) (x y : string) :
  In x (map fst (most_common (Counter s) k)) ->
  In y s -> ~ In y (map fst (most_common (Counter s) k)) ->
  count s y <= count s x.
Proof.
  unfold most_common. destruct (k <=? 0); [intros []|].
  set (n := Z.to_nat k). set (l := sorted_desc (Counter s)).
  intros Hx Hy Hny.
  apply in_map_iff in Hx as [[x' v] [E Hx]]. simpl in E. subst x'.
  assert (Hv : v = count s x).
  { apply In_firstn_In in Hx. apply (Permutation_in _ (sorted_desc_perm _)) in Hx.
    now apply In_Counter_count in Hx. }
  assert (Hyl : In (y, count s y) l).
  { apply (Permutation_in _ (Permutation_sym (sorted_desc_perm _))).
    now apply In_Counter_pair. }
  rewrite <- (firstn_skipn n l) in Hyl. apply in_app_or in Hyl as [Hf|Hk].
  - exfalso. apply Hny. apply in_map_iff. now exists (y, count s y).
  - pose proof (sorted_desc_sorted (Counter s)) as Hs. fold l in Hs.
    rewrite <- (firstn_skipn n l) in Hs.
    pose proof (sorted_app_le _ _ Hs _ _ Hx Hk) as Hle. simpl in Hle. lia.
Qed.

Lemma most_common_len (s : list string) (k : Z) :
  0 <= k -> len (most_common (Counter s) k) = Z.min k (len (distinct s)).
Proof.
  intros Hk. unfold most_common, len. destruct (Z.leb_spec k 0) as [H0|H0].
  - simpl. lia.
  - rewrite length_firstn. rewrite (Permutation_length (sorted_desc_perm _)).
    rewrite Counter_length. lia.
Qed.

(** X3. With capping active (and a generated key that occurs in neither
    series) the categories are the kept values, which are the [max_categories]
    most frequent values of the reference series, followed by the synthetic
    key; no dropped reference value occurs more often than a kept one; a kept
    value is counted as often as it occurs in each series, and the synthetic
    category counts the values of each series that are not kept. *)
Theorem calculate_frequencies_capped_top `{Libraries}
    (actual reference : list string) (k : Z) :
  0 <= k ->
  len (set_union_list reference actual) > k ->
  ~ In other_key reference -> ~ In other_key actual ->
  exists kept,
    _calculate_frequencies actual reference (Some k)
      = Ok (kept ++ [other_key],
            map (count actual) kept ++ [len (outside kept actual)],
            map (count reference) kept ++ [len (outside kept reference)]) /\
    NoDup kept /\
    incl kept reference /\
    len kept = Z.min k (len (distinct reference)) /\
    (forall x y, In x kept -> In y reference -> ~ In y kept ->
                 count reference y <= count reference x).
Proof.
  intros Hk Hcap Hr Ha.
  set (top := most_common (Counter reference) k).
  exists (map fst top).
  assert (Hn : NoDup (map fst top)) by apply most_common_NoDup, NoDup_keys_Counter.
  split.
  - rewrite (frequencies_capped actual reference k Hcap Hr Ha). fold top.
    pose proof (sum_top_counts reference k) as Es. cbv zeta in Es. fold top in Es.
    rewrite Es.
    pose proof (outside_count (map fst top) reference Hn).
    pose proof (outside_count (map fst top) actual Hn).
    repeat f_equal; lia.
  - split; [assumption|]. split.
    + intros x Hx. apply in_map_iff in Hx as [[x' v] [E Hx]]. simpl in E. subst x'.
      apply most_common_incl in Hx. now apply In_Counter_count in Hx.
    + split.
      * unfold len. rewrite length_map. now apply most_common_len.
      * intros x y Hx Hy Hny. now apply (most_common_dominates reference k).
Qed.

Lemma calculate_frequencies_capped_top_witness :
  0 <= 1 /\
  len (set_union_list ["a"; "a"; "b"] ["a"; "b"; "c"]) > 1 /\
  ~ In (other_key (H := sample_libraries)) ["a"; "a"; "b"] /\
  ~ In (other_key (H := sample_libraries)) ["a"; "b"; "c"] /\
  exists kept,
    _calculate_frequencies (H := sample_libraries) ["a"; "b"; "c"] ["a"; "a"; "b"] (Some 1)
      = Ok (kept ++ [other_key (H := sample_libraries)],
            map (count ["a"; "b"; "c"]) kept ++ [len (outside kept ["a"; "b"; "c"])],
            map (count ["a"; "a"; "b"]) kept ++ [len (outside kept ["a"; "a"; "b"])]) /\
    NoDup kept /\
    incl kept ["a"; "a"; "b"] /\
    len kept = Z.min 1 (len (distinct ["a"; "a"; "b"])) /\
    (forall x y, In x kept -> In y ["a"; "a"; "b"] -> ~ In y kept ->
                 count ["a"; "a"; "b"] y <= count ["a"; "a"; "b"] x).
Proof.
  assert (H0 : 0 <= 1) by lia.
  assert (H1 : len (set_union_list ["a"; "a"; "b"] ["a"; "b"; "c"]) > 1)
    by (vm_compute; reflexivity).
  assert (H2 : ~ In (other_key (H := sample_libraries)) ["a"; "a"; "b"])
    by (simpl; intuition discriminate).
  assert (H3 : ~ In (other_key (H := sample_libraries)) ["a"; "b"; "c"])
    by (simpl; intuition discriminate).
  split; [exact H0|]. split; [exact H1|]. split; [exact H2|]. split; [exact H3|].
  exact (calculate_frequencies_capped_top (H := sample_libraries) _ _ 1 H0 H1 H2 H3).
Defined.

(** ** Distributions and the PSI calculator *)

Lemma frequencies_sum_lemma `{Libraries}
    (actual reference : list string) (mc : option Z) mods af ef :
  ~ In other_key reference -> ~ In other_key actual ->
  _calculate_frequencies actual reference mc = Ok (mods, af, ef) ->
  py_sum ef = len reference /\ py_sum af = len actual.
Proof.
  intros Hr Ha Hf.
  assert (Hcase : (exists k, mc = Some k /\ len (set_union_list reference actual) > k)
                  \/ (forall k, mc = Some k -> len (set_union_list reference actual) <= k)).
  { destruct mc as [k|].
    - destruct (Z_gt_le_dec (len (set_union_list reference actual)) k).
      + left. eauto.
      + right. now intros ? [= <-].
    - right. discriminate. }
  destruct Hcase as [[k [-> Hcap]]|Hun].
  - rewrite (frequencies_capped actual reference k Hcap Hr Ha) in Hf.
    injection Hf as <- <- <-. rewrite !py_sum_app. simpl. lia.
  - rewrite (frequencies_uncapped actual reference mc Hun) in Hf.
    injection Hf as <- <- <-. split.
    + apply sum_count_cover; [apply set_union_list_NoDup|].
      intros x Hx. apply set_union_list_In. now left.
    + apply sum_count_cover; [apply set_union_list_NoDup|].
      intros x Hx. apply set_union_list_In. now right.
Qed.

Lemma Rsum_true_divide (l : list Z) (n : Z) :
  Rsum (np_true_divide l n) = (IZR (py_sum l) / IZR n)%R.
Proof.
  induction l as [|c l IH]; simpl.
  - unfold Rdiv. now rewrite Rmult_0_l.
  - rewrite IH, plus_IZR. unfold Rdiv. ring.
Qed.

Lemma table_ok_nonneg (af ef : list Z) :
  List.length af = List.length ef -> table_ok af ef ->
  Forall (fun c => 0 <= c) af /\ Forall (fun c => 0 <= c) ef.
Proof.
  unfold table_ok. revert ef. induction af as [|a af IH]; intros [|e ef]; simpl;
    try discriminate.
  - intros _ _. split; constructor.
  - intros [= Hl] Hok. inversion Hok as [|? ? (He & Ha & _) Hrest]; subst.
    destruct (IH ef Hl Hrest) as [H1 H2]. simpl in *. split; constructor; assumption.
Qed.

Lemma py_sum_bound (l : list Z) (c : Z) :
  Forall (fun x => 0 <= x) l -> In c l -> 0 <= c <= py_sum l.
Proof.
  induction 1 as [|x l Hx Hl IH]; simpl; [intros []|].
  assert (0 <= py_sum l).
  { clear IH. induction Hl; simpl; lia. }
  intros [<-|Hc]; [lia|]. specialize (IH Hc). lia.
Qed.

Lemma true_divide_unit (l : list Z) (n : Z) :
  0 < n -> Forall (fun x => 0 <= x) l -> py_sum l = n ->
  Forall (fun p => (0 <= p <= 1)%R) (np_true_divide l n).
Proof.
  intros Hn Hl Hs. unfold np_true_divide. apply Forall_forall.
  intros p Hp. apply in_map_iff in Hp as [c [<- Hc]].
  pose proof (py_sum_bound l c Hl Hc) as [H0 H1]. rewrite Hs in H1.
  assert (0 < IZR n)%R by (apply IZR_lt; assumption).
  assert (0 <= IZR c)%R by (apply IZR_le; assumption).
  assert (IZR c <= IZR n)%R by (apply IZR_le; assumption).
  split.
  - apply Rmult_le_pos; [assumption|]. left. now apply Rinv_0_lt_compat.
  - apply Rmult_le_reg_r with (IZR n); [assumption|].
    unfold Rdiv. rewrite Rmult_assoc, Rinv_l by lra. lra.
Qed.

(** X4. For non-empty series (and a generated key that occurs in neither) the
    expected and the actual distribution that the PSI calculator derives from
    the frequency table are probability distributions: every proportion lies
    in [0,1] and each distribution sums to 1. *)
Theorem distributions_are_probabilities `{Libraries}
    (actual reference : list string) (mc : option Z) :
  actual <> [] -> reference <> [] ->
  ~ In other_key reference -> ~ In other_key actual ->
  exists mods af ef,
    _calculate_frequencies actual reference mc = Ok (mods, af, ef) /\
    let expected_distribution := np_true_divide ef (len reference) in
    let actual_distribution := np_true_divide af (len actual) in
    Rsum expected_distribution = 1%R /\
    Rsum actual_distribution = 1%R /\
    Forall (fun p => (0 <= p <= 1)%R) expected_distribution /\
    Forall (fun p => (0 <= p <= 1)%R) actual_distribution.
Proof.
  intros Hane Hrne Hr Ha.
  destruct (calculate_frequencies_total actual reference mc) as (mods & af & ef & Hf).
  exists mods, af, ef. split; [exact Hf|]. cbv zeta.
  destruct (frequencies_sum_lemma _ _ _ _ _ _ Hr Ha Hf) as [Se Sa].
  destruct (frequencies_aligned _ _ _ _ _ _ Hf) as [La Le].
  pose proof (frequencies_table_ok _ _ _ _ _ _ Hrne Hr Ha Hf) as Hok.
  destruct (table_ok_nonneg af ef ltac:(congruence) Hok) as [Na Ne].
  assert (Hlr : 0 < len reference)
    by (unfold len; destruct reference; [congruence|simpl; lia]).
  assert (Hla : 0 < len actual)
    by (unfold len; destruct actual; [congruence|simpl; lia]).
  assert (Hone : forall n, 0 < n -> (IZR n / IZR n)%R = 1%R).
  { intros n Hn. unfold Rdiv. apply Rinv_r. apply not_0_IZR. lia. }
  rewrite !Rsum_true_divide, Se, Sa.
  split; [now apply Hone|]. split; [now apply Hone|].
  split; now apply true_divide_unit.
Qed.

Lemma distributions_are_probabilities_witness :
  ["a"; "b"; "c"] <> [] /\ ["a"; "a"; "b"] <> [] /\
  ~ In (other_key (H := sample_libraries)) ["a"; "a"; "b"] /\
  ~ In (other_key (H := sample_libraries)) ["a"; "b"; "c"] /\
  exists mods af ef,
    _calculate_frequencies (H := sample_libraries) ["a"; "b"; "c"] ["a"; "a"; "b"] (Some 1)
      = Ok (mods, af, ef) /\
    let expected_distribution := np_true_divide ef (len ["a"; "a"; "b"]) in
    let actual_distribution := np_true_divide af (len ["a"; "b"; "c"]) in
    Rsum expected_distribution = 1%R /\
    Rsum actual_distribution = 1%R /\
    Forall (fun p => (0 <= p <= 1)%R) expected_distribution /\
    Forall (fun p => (0 <= p <= 1)%R) actual_distribution.
Proof.
  assert (H1 : ["a"; "b"; "c"] <> []) by discriminate.
  assert (H2 : ["a"; "a"; "b"] <> []) by discriminate.
  assert (H3 : ~ In (other_key (H := sample_libraries)) ["a"; "a"; "b"])
    by (simpl; intuition discriminate).
  assert (H4 : ~ In (other_key (H := sample_libraries)) ["a"; "b"; "c"])
    by (simpl; intuition discriminate).
  split; [exact H1|]. split; [exact H2|]. split; [exact H3|]. split; [exact H4|].
  exact (distributions_are_probabilities (H := sample_libraries) _ _ (Some 1) H1 H2 H3 H4).
Defined.

Lemma map_nth_seq {A : Type} (l : list A) (d : A) :
  map (fun i => nth i l d) (seq 0 (List.length l)) = l.
Proof.
  induction l as [|a l IH]; simpl; [reflexivity|].
  f_equal. rewrite <- seq_shift, map_map. exact IH.
Qed.

Lemma fold_left_Rplus_Rsum (l : list R) : fold_left Rplus l 0%R = Rsum l.
Proof.
  unfold Rsum. apply fold_symmetric; intros; ring.
Qed.

(** X5. For series that are not empty, the diagnostic table of the PSI
    calculator has one row per category, in the order of the categories; its
    column [Reference_distribution] is the expected distribution, no entry
    of its column [Psi] is negative, and the entries of the column [Psi],
    added up from 0 in the order of the rows, give the total PSI. *)
Theorem drift_psi_table_consistent `{Libraries}
    (actual reference : list string) (mc : option Z) :
  actual <> [] -> reference <> [] ->
  exists mods af ef total rows,
    _calculate_frequencies actual reference mc = Ok (mods, af, ef) /\
    _calculate_drift_psi actual reference mc = Ok (total, rows) /\
    map Modality rows = mods /\
    map Reference_distribution rows = np_true_divide ef (len reference) /\
    Forall (fun row => (0 <= Psi row)%R) rows /\
    fold_left Rplus (map Psi rows) 0%R = total.
Proof.
  intros _ _.
  destruct (calculate_frequencies_total actual reference mc) as (mods & af & ef & Hf).
  pose proof (calculate_drift_psi_eq actual reference mc mods af ef Hf) as Hp.
  cbv zeta in Hp.
  destruct (frequencies_aligned _ _ _ _ _ _ Hf) as [La Le].
  do 5 eexists. split; [exact Hf|]. split; [exact Hp|].
  rewrite fold_left_Rplus_Rsum.
  rewrite !map_map. cbn [Modality Reference_distribution Psi].
  split; [apply map_nth_seq|]. split.
  - assert (E : List.length mods = List.length (np_true_divide ef (len reference)))
      by (unfold np_true_divide; rewrite length_map; congruence).
    rewrite E. apply map_nth_seq.
  - split; [|reflexivity]. apply Forall_forall. intros row Hrow.
    apply in_map_iff in Hrow as [i [<- _]]. cbn [Psi]. apply calculate_psi_sign.
Qed.

Lemma drift_psi_table_consistent_witness :
  ["a"; "b"] <> [] /\ ["a"; "a"] <> [] /\
  exists mods af ef total rows,
    _calculate_frequencies (H := sample_libraries) ["a"; "b"] ["a"; "a"] None
      = Ok (mods, af, ef) /\
    _calculate_drift_psi (H := sample_libraries) ["a"; "b"] ["a"; "a"] None
      = Ok (total, rows) /\
    map Modality rows = mods /\
    map Reference_distribution rows = np_true_divide ef (len ["a"; "a"]) /\
    Forall (fun row => (0 <= Psi row)%R) rows /\
    fold_left Rplus (map Psi rows) 0%R = total.
Proof.
  assert (H1 : ["a"; "b"] <> []) by discriminate.
  assert (H2 : ["a"; "a"] <> []) by discriminate.
  split; [exact H1|]. split; [exact H2|].
  exact (drift_psi_table_consistent (H := sample_libraries) ["a"; "b"] ["a"; "a"] None
           H1 H2).
Defined.

(** *** A series against itself *)

Lemma frequencies_same_series `{Libraries} (s : list string) (mc : option Z) :
  ~ In other_key s ->
  exists mods f, _calculate_frequencies s s mc = Ok (mods, f, f).
Proof.
  intros Hs.
  assert (Hcase : (exists k, mc = Some k /\ len (set_union_list s s) > k)
                  \/ (forall k, mc = Some k -> len (set_union_list s s) <= k)).
  { destruct mc as [k|].
    - destruct (Z_gt_le_dec (len (set_union_list s s)) k).
      + left. eauto.
      + right. now intros ? [= <-].
    - right. discriminate. }
  destruct Hcase as [[k [-> Hcap]]|Hun].
  - rewrite (frequencies_capped s s k Hcap Hs Hs).
    pose proof (sum_top_counts s k) as Es. cbv zeta in Es. rewrite Es. eauto.
  - rewrite (frequencies_uncapped s s mc Hun). eauto.
Qed.

Lemma calculate_psi_same (i : nat) (d : list R) : _calculate_psi i d d = 0%R.
Proof. unfold _calculate_psi. ring. Qed.

Lemma Rsum_zeros (l : list R) : (forall x, In x l -> x = 0%R) -> Rsum l = 0%R.
Proof.
  induction l as [|a l IH]; simpl; intros Hl; [reflexivity|].
  rewrite (Hl a (or_introl eq_refl)), IH; [lra|]. intros x Hx. apply Hl. now right.
Qed.

Lemma select_rows_none (mask : list bool) (column : list string) :
  Forall (fun b => b = false) mask -> select_rows mask column = [].
Proof.
  intros Hm. revert column. induction Hm as [|b mask Hb Hm IH]; intros column.
  - destruct column; reflexivity.
  - subst b. destruct column as [|w column]; [reflexivity|]. simpl. apply IH.
Qed.

Lemma generate_message_none (mask : list bool) (column : list string) (td : string) :
  Forall (fun b => b = false) mask ->
  _generate_message_modalities mask column td = None.
Proof.
  intros Hm. unfold _generate_message_modalities.
  rewrite select_rows_none by assumption. reflexivity.
Qed.

(** X6. A series compared with itself (the generated key not occurring in
    it) has a total PSI of exactly 0: the PSI test passes for every threshold
    that is unset or not negative, and reports no drifting modality. *)
Theorem psi_of_series_with_itself `{Libraries}
    (s : list string) (test_data : string) (mc : option Z) (percent : R)
    (threshold : option R) :
  ~ In other_key s ->
  (forall t, threshold = Some t -> (0 <= t)%R) ->
  _test_series_drift_psi s s test_data mc percent threshold = Ok (None, true, 0%R).
Proof.
  intros Hs Ht. destruct (frequencies_same_series s mc Hs) as (mods & f & Hf).
  unfold _test_series_drift_psi.
  rewrite (calculate_drift_psi_eq s s mc mods f f Hf). cbn [bind].
  set (d := np_true_divide f (len s)).
  assert (HT : Rsum (map (fun i => _calculate_psi i d d) (seq 0 (List.length mods))) = 0%R).
  { apply Rsum_zeros. intros x Hx. apply in_map_iff in Hx as [i [<- _]].
    apply calculate_psi_same. }
  rewrite HT. rewrite generate_message_none.
  - destruct threshold as [t|]; [|reflexivity].
    specialize (Ht t eq_refl). unfold Rle_bool.
    destruct (Rle_dec 0 t); [reflexivity|contradiction].
  - apply Forall_forall. intros b Hb. rewrite map_map in Hb.
    apply in_map_iff in Hb as [i [<- _]]. cbn [Psi]. rewrite calculate_psi_same.
    unfold Rlt_bool. destruct (Rlt_dec (percent * 0) 0) as [Hlt|]; [|reflexivity].
    exfalso. rewrite Rmult_0_r in Hlt. lra.
Qed.

Lemma psi_of_series_with_itself_witness :
  ~ In (other_key (H := sample_libraries)) ["a"; "a"; "b"] /\
  (forall t, Some 0.2%R = Some t -> (0 <= t)%R) /\
  _test_series_drift_psi (H := sample_libraries) ["a"; "a"; "b"] ["a"; "a"; "b"]
    "data" (Some 1) 0.2%R (Some 0.2%R) = Ok (None, true, 0%R).
Proof.
  assert (H1 : ~ In (other_key (H := sample_libraries)) ["a"; "a"; "b"])
    by (simpl; intuition discriminate).
  assert (H2 : forall t, Some 0.2%R = Some t -> (0 <= t)%R) by (intros t [= <-]; lra).
  split; [exact H1|]. split; [exact H2|].
  exact (psi_of_series_with_itself (H := sample_libraries) _ "data" (Some 1) 0.2%R
           (Some 0.2%R) H1 H2).
Defined.

(** ** The chi-squared calculator *)

Lemma chi_loop_fold (mods : list string) (af ef : list Z) (k_norm : R)
      (l : list nat) (c : npfloat) (rows : list chi_row) :
  fold_left (chi_loop_body mods af ef k_norm) l (c, rows)
  = (fold_left np_add (map (fun i => chi_term k_norm (nth i af 0) (nth i ef 0)) l) c,
     rows ++ map (fun i => {| chi_Modality := nth i mods "";
                              Reference_frequencies := nth i ef 0;
                              Actual_frequencies := nth i af 0;
                              Chi_square := chi_term k_norm (nth i af 0) (nth i ef 0) |}) l).
Proof.
  revert c rows. induction l as [|i l IH]; intros c rows; simpl.
  - now rewrite app_nil_r.
  - rewrite IH, <- app_assoc. reflexivity.
Qed.

Lemma nth_combine_map {B : Type} (F : Z -> Z -> B) (af ef : list Z) :
  List.length af = List.length ef ->
  map (fun i => F (nth i af 0) (nth i ef 0)) (seq 0 (List.length af))
  = map (fun ae => F (fst ae) (snd ae)) (combine af ef).
Proof.
  revert ef. induction af as [|a af IH]; intros [|e ef]; simpl; try discriminate.
  - reflexivity.
  - intros [= Hl]. f_equal. rewrite <- seq_shift, map_map. now apply IH.
Qed.

(** [_calculate_chi_square] in terms of the frequency table, for a reference
    series that is not empty. *)
Lemma calculate_chi_square_eq `{Libraries}
    (actual reference : list string) (mc : option Z) mods af ef :
  _calculate_frequencies actual reference mc = Ok (mods, af, ef) ->
  reference <> [] ->
  let k_norm := (IZR (len actual) / IZR (len reference))%R in
  let terms := map (fun ae => chi_term k_norm (fst ae) (snd ae)) (combine af ef) in
  let chi_square := fold_left np_add terms (Finite 0) in
  _calculate_chi_square actual reference mc =
    Ok (chi_square,
        (if len mods >? 1 then
           if np_ne_zero (chi2_cdf chi_square (len mods - 1))
           then np_one_minus (chi2_cdf chi_square (len mods - 1))
           else Finite 0
         else Finite 0),
        map (fun i => {| chi_Modality := nth i mods "";
                         Reference_frequencies := nth i ef 0;
                         Actual_frequencies := nth i af 0;
                         Chi_square := chi_term k_norm (nth i af 0) (nth i ef 0) |})
            (seq 0 (List.length mods))).
Proof.
  intros Hf Hne k_norm terms chi_square.
  destruct (frequencies_aligned _ _ _ _ _ _ Hf) as [La Le].
  unfold _calculate_chi_square. rewrite Hf. cbn [bind].
  unfold py_truediv.
  replace (len reference =? 0) with false.
  2:{ symmetry. apply Z.eqb_neq. unfold len. destruct reference; [congruence|simpl; lia]. }
  cbn [bind]. fold k_norm. rewrite chi_loop_fold. cbn [app].
  assert (E : map (fun i => chi_term k_norm (nth i af 0) (nth i ef 0))
                  (seq 0 (List.length mods)) = terms).
  { unfold terms. rewrite <- La. apply nth_combine_map. congruence. }
  rewrite E. reflexivity.
Qed.

(** X8. With an empty reference series the chi-squared calculator raises
    [ZeroDivisionError] (from [k_norm]), whatever the actual series is. *)
Theorem chi_square_empty_reference `{Libraries}
    (actual : list string) (mc : option Z) :
  _calculate_chi_square actual [] mc = Raise (ZeroDivisionError "division by zero").
Proof.
  destruct (calculate_frequencies_total actual [] mc) as (mods & af & ef & Hf).
  unfold _calculate_chi_square. rewrite Hf. reflexivity.
Qed.

Lemma fold_np_add_NaN (l : list npfloat) : fold_left np_add l NaN = NaN.
Proof. induction l as [|t l IH]; simpl; [reflexivity|exact IH]. Qed.

Lemma fold_np_add_has_NaN (l : list npfloat) (c : npfloat) :
  In NaN l -> fold_left np_add l c = NaN.
Proof.
  revert c. induction l as [|t l IH]; intros c; simpl; [intros []|].
  intros [->|Hl]; [|now apply IH].
  replace (np_add c NaN) with NaN by (destruct c; reflexivity).
  apply fold_np_add_NaN.
Qed.

Lemma chi_term_zero_over_zero (e : Z) : chi_term 0 0 e = NaN.
Proof.
  unfold chi_term, np_div.
  destruct (Req_dec_T (IZR e * 0) 0) as [_|Hn]; [|exfalso; apply Hn; ring].
  destruct (Req_dec_T ((0 - IZR e * 0) ^ 2) 0) as [_|Hn]; [reflexivity|].
  exfalso. apply Hn. simpl. ring.
Qed.

Lemma frequencies_empty_actual `{Libraries}
    (reference : list string) (mc : option Z) mods af ef :
  reference <> [] -> ~ In other_key reference ->
  _calculate_frequencies [] reference mc = Ok (mods, af, ef) ->
  af <> [] /\ Forall (fun a => a = 0) af.
Proof.
  intros Hne Hr Hf.
  assert (Hz : forall l, Forall (fun a => a = 0) (map (count []) l)).
  { intros l. apply Forall_forall. intros a Ha.
    apply in_map_iff in Ha as [x [<- _]]. reflexivity. }
  assert (Hcase : (exists k, mc = Some k /\ len (set_union_list reference []) > k)
                  \/ (forall k, mc = Some k -> len (set_union_list reference []) <= k)).
  { destruct mc as [k|].
    - destruct (Z_gt_le_dec (len (set_union_list reference [])) k).
      + left. eauto.
      + right. now intros ? [= <-].
    - right. discriminate. }
  destruct Hcase as [[k [-> Hcap]]|Hun].
  - rewrite (frequencies_capped [] reference k Hcap Hr (fun F => F)) in Hf.
    injection Hf as <- <- <-. split.
    + intros E. apply app_eq_nil in E as [_ E]. discriminate.
    + apply Forall_app. split; [apply Hz|].
      constructor; [|constructor].
      assert (S0 : forall l, py_sum (map (count []) l) = 0).
      { intros l. induction l as [|x l IH]; simpl; [reflexivity|exact IH]. }
      rewrite S0. reflexivity.
  - rewrite (frequencies_uncapped [] reference mc Hun) in Hf.
    injection Hf as <- <- <-. split; [|apply Hz].
    destruct reference as [|x reference]; [congruence|].
    assert (Hx : In x (set_union_list (x :: reference) []))
      by (apply set_union_list_In; left; now left).
    destruct (set_union_list (x :: reference) []); [contradiction|discriminate].
Qed.

(** X9. With an empty actual series and a non-empty reference series (that
    the generated key does not occur in) every contribution is 0/0 and the
    chi-squared statistic is [nan]. *)
Theorem chi_square_empty_actual `{Libraries}
    (reference : list string) (mc : option Z) :
  reference <> [] -> ~ In other_key reference ->
  exists p_value rows,
    _calculate_chi_square [] reference mc = Ok (NaN, p_value, rows).
Proof.
  intros Hne Hr.
  destruct (calculate_frequencies_total [] reference mc) as (mods & af & ef & Hf).
  destruct (frequencies_empty_actual reference mc mods af ef Hne Hr Hf) as [Hnil Hz].
  destruct (frequencies_aligned _ _ _ _ _ _ Hf) as [La Le].
  rewrite (calculate_chi_square_eq [] reference mc mods af ef Hf Hne).
  assert (Hk : (IZR (len (@nil string)) / IZR (len reference))%R = 0%R).
  { unfold len. simpl. unfold Rdiv. apply Rmult_0_l. }
  rewrite Hk.
  assert (Hnan : In NaN (map (fun ae => chi_term 0 (fst ae) (snd ae)) (combine af ef))).
  { destruct af as [|a af]; [congruence|]. destruct ef as [|e ef]; [simpl in *; lia|].
    inversion Hz as [|? ? Ha _]; subst. simpl. left. apply chi_term_zero_over_zero. }
  rewrite (fold_np_add_has_NaN _ _ Hnan). eauto.
Qed.

Lemma chi_square_empty_actual_witness :
  ["a"; "a"; "b"] <> [] /\
  ~ In (other_key (H := sample_libraries)) ["a"; "a"; "b"] /\
  exists p_value rows,
    _calculate_chi_square (H := sample_libraries) [] ["a"; "a"; "b"] (Some 20)
      = Ok (NaN, p_value, rows).
Proof.
  assert (H1 : ["a"; "a"; "b"] <> []) by discriminate.
  assert (H2 : ~ In (other_key (H := sample_libraries)) ["a"; "a"; "b"])
    by (simpl; intuition discriminate).
  split; [exact H1|]. split; [exact H2|].
  exact (chi_square_empty_actual (H := sample_libraries) _ (Some 20) H1 H2).
Defined.

Lemma chi_term_cases (a e : Z) (k_norm : R) :
  (0 < k_norm)%R -> row_ok (a, e) ->
  (e = 0 /\ chi_term k_norm a e = PosInf) \/
  (0 < e /\ exists x, chi_term k_norm a e = Finite x /\ (0 <= x)%R).
Proof.
  intros Hk (He & Ha & Hz). cbn [fst snd] in *. unfold chi_term, np_div.
  destruct (Z.eq_dec e 0) as [E|E].
  - left. split; [assumption|]. subst e. specialize (Hz eq_refl).
    assert (0 < IZR a)%R by (apply IZR_lt; assumption).
    assert (0 < (IZR a - 0 * k_norm) ^ 2)%R by nra.
    destruct (Req_dec_T (0 * k_norm) 0) as [_|Hn]; [|exfalso; apply Hn; ring].
    destruct (Req_dec_T ((IZR a - 0 * k_norm) ^ 2) 0); [lra|].
    destruct (Rlt_dec 0 ((IZR a - 0 * k_norm) ^ 2)); [reflexivity|lra].
  - right. split; [lia|].
    assert (0 < IZR e)%R by (apply IZR_lt; lia).
    assert (0 < IZR e * k_norm)%R by nra.
    destruct (Req_dec_T (IZR e * k_norm) 0); [lra|].
    eexists. split; [reflexivity|].
    unfold Rdiv. apply Rmult_le_pos; [apply pow2_ge_0|].
    left. now apply Rinv_0_lt_compat.
Qed.

Lemma np_add_inf_or_finite (c t : npfloat) :
  inf_or_finite c -> inf_or_finite t ->
  inf_or_finite (np_add c t) /\
  (np_add c t = PosInf <-> c = PosInf \/ t = PosInf).
Proof.
  intros [->|[x [-> Hx]]] [->|[y [-> Hy]]]; simpl.
  - split; [now left|]. tauto.
  - split; [now left|]. tauto.
  - split; [now left|]. tauto.
  - split.
    + right. exists (x + y)%R. split; [reflexivity|lra].
    + split; [discriminate|]. intros [|]; discriminate.
Qed.

Lemma fold_np_add_inf (l : list npfloat) (c : npfloat) :
  inf_or_finite c -> Forall inf_or_finite l ->
  inf_or_finite (fold_left np_add l c) /\
  (fold_left np_add l c = PosInf <-> c = PosInf \/ In PosInf l).
Proof.
  intros Hc Hl. revert c Hc. induction Hl as [|t l Ht Hl IH]; intros c Hc; simpl.
  - split; [assumption|]. tauto.
  - destruct (np_add_inf_or_finite c t Hc Ht) as [Hp Hiff].
    destruct (IH (np_add c t) Hp) as [Hq Hiff']. split; [assumption|].
    rewrite Hiff', Hiff. split.
    + intros [[E|E]|Hi]; [now left|right; left; now symmetry|right; now right].
    + intros [E|[E|Hi]]; [left; now left|left; right; now symmetry|now right].
Qed.

Lemma In_combine_snd (af ef : list Z) (e : Z) :
  List.length af = List.length ef ->
  (In e ef <-> exists a, In (a, e) (combine af ef)).
Proof.
  revert ef. induction af as [|a af IH]; intros [|e' ef]; simpl; try discriminate.
  - intros _. split; [intros []|intros [? []]].
  - intros [= Hl]. rewrite (IH ef Hl). split.
    + intros [->|[a' Ha']]; [exists a; now left|exists a'; now right].
    + intros [a' [[= _ ->]|Ha']]; [now left|right; now exists a'].
Qed.

(** X10. For non-empty series (and a generated key that occurs in neither)
    the chi-squared statistic is infinite exactly when some category has an
    expected count of 0, that is, a category that the reference series lacks;
    otherwise it is a finite number that is not negative. *)
Theorem chi_square_infinite_iff_unseen_category `{Libraries}
    (actual reference : list string) (mc : option Z) :
  actual <> [] -> reference <> [] ->
  ~ In other_key reference -> ~ In other_key actual ->
  exists mods af ef chi_square p_value rows,
    _calculate_frequencies actual reference mc = Ok (mods, af, ef) /\
    _calculate_chi_square actual reference mc = Ok (chi_square, p_value, rows) /\
    (chi_square = PosInf <-> In 0 ef) /\
    (~ In 0 ef -> exists x, chi_square = Finite x /\ (0 <= x)%R).
Proof.
  intros Hane Hrne Hr Ha.
  destruct (calculate_frequencies_total actual reference mc) as (mods & af & ef & Hf).
  pose proof (frequencies_table_ok actual reference mc mods af ef Hrne Hr Ha Hf) as Hok.
  destruct (frequencies_aligned _ _ _ _ _ _ Hf) as [La Le].
  pose proof (calculate_chi_square_eq actual reference mc mods af ef Hf Hrne) as Hc.
  cbv zeta in Hc.
  set (k_norm := (IZR (len actual) / IZR (len reference))%R) in *.
  assert (Hk : (0 < k_norm)%R).
  { unfold k_norm. apply Rdiv_lt_0_compat; apply IZR_lt; unfold len.
    - destruct actual; [congruence|simpl; lia].
    - destruct reference; [congruence|simpl; lia]. }
  set (terms := map (fun ae => chi_term k_norm (fst ae) (snd ae)) (combine af ef)) in *.
  assert (Hterms : Forall inf_or_finite terms).
  { unfold terms. apply Forall_forall. intros t Ht.
    apply in_map_iff in Ht as [[a e] [<- Hae]]. cbn [fst snd].
    unfold table_ok in Hok. rewrite Forall_forall in Hok.
    destruct (chi_term_cases a e k_norm Hk (Hok _ Hae)) as [[_ ->]|[_ Hx]];
      [now left|now right]. }
  assert (H0 : inf_or_finite (Finite 0)) by (right; exists 0%R; split; [reflexivity|lra]).
  destruct (fold_np_add_inf terms (Finite 0) H0 Hterms) as [Hfin Hiff].
  assert (Hin : In PosInf terms <-> In 0 ef).
  { rewrite (In_combine_snd af ef 0 ltac:(congruence)). unfold terms. split.
    - intros Ht. apply in_map_iff in Ht as [[a e] [Et Hae]]. cbn [fst snd] in Et.
      unfold table_ok in Hok. rewrite Forall_forall in Hok.
      destruct (chi_term_cases a e k_norm Hk (Hok _ Hae)) as [[-> _]|[_ [x [Ex _]]]].
      + now exists a.
      + congruence.
    - intros [a Hae]. apply in_map_iff. exists (a, 0). split; [|assumption].
      cbn [fst snd]. unfold table_ok in Hok. rewrite Forall_forall in Hok.
      destruct (chi_term_cases a 0 k_norm Hk (Hok _ Hae)) as [[_ E]|[Hlt _]];
        [assumption|lia]. }
  do 6 eexists. split; [exact Hf|]. split; [exact Hc|]. split.
  - rewrite Hiff, <- Hin. split; [intros [E|Hi]; [discriminate|assumption]|now right].
  - intros Hn. destruct Hfin as [E|Hx]; [|assumption].
    exfalso. apply Hn. apply Hin. apply Hiff in E as [E|Hi]; [discriminate|assumption].
Qed.

Lemma chi_square_infinite_iff_unseen_category_witness :
  ["a"; "b"; "c"] <> [] /\ ["a"; "a"; "b"] <> [] /\
  ~ In (other_key (H := sample_libraries)) ["a"; "a"; "b"] /\
  ~ In (other_key (H := sample_libraries)) ["a"; "b"; "c"] /\
  exists mods af ef chi_square p_value rows,
    _calculate_frequencies (H := sample_libraries) ["a"; "b"; "c"] ["a"; "a"; "b"] None
      = Ok (mods, af, ef) /\
    _calculate_chi_square (H := sample_libraries) ["a"; "b"; "c"] ["a"; "a"; "b"] None
      = Ok (chi_square, p_value, rows) /\
    (chi_square = PosInf <-> In 0 ef) /\
    (~ In 0 ef -> exists x, chi_square = Finite x /\ (0 <= x)%R).
Proof.
  assert (H1 : ["a"; "b"; "c"] <> []) by discriminate.
  assert (H2 : ["a"; "a"; "b"] <> []) by discriminate.
  assert (H3 : ~ In (other_key (H := sample_libraries)) ["a"; "a"; "b"])
    by (simpl; intuition discriminate).
  assert (H4 : ~ In (other_key (H := sample_libraries)) ["a"; "b"; "c"])
    by (simpl; intuition discriminate).
  split; [exact H1|]. split; [exact H2|]. split; [exact H3|]. split; [exact H4|].
  exact (chi_square_infinite_iff_unseen_category (H := sample_libraries) _ _ None
           H1 H2 H3 H4).
Defined.

(** X11. The diagnostic table of the chi-squared calculator (for a reference
    series that is not empty) has one row per category, in the order of the
    categories; its columns hold the expected and the actual counts, and the
    statistic is the sum of its column [Chi_square]. *)
Theorem chi_square_table_consistent `{Libraries}
    (actual reference : list string) (mc : option Z) :
  reference <> [] ->
  exists mods af ef chi_square p_value rows,
    _calculate_frequencies actual reference mc = Ok (mods, af, ef) /\
    _calculate_chi_square actual reference mc = Ok (chi_square, p_value, rows) /\
    map chi_Modality rows = mods /\
    map Reference_frequencies rows = ef /\
    map Actual_frequencies rows = af /\
    chi_square = fold_left np_add (map Chi_square rows) (Finite 0).
Proof.
  intros Hrne.
  destruct (calculate_frequencies_total actual reference mc) as (mods & af & ef & Hf).
  destruct (frequencies_aligned _ _ _ _ _ _ Hf) as [La Le].
  pose proof (calculate_chi_square_eq actual reference mc mods af ef Hf Hrne) as Hc.
  cbv zeta in Hc.
  do 6 eexists. split; [exact Hf|]. split; [exact Hc|].
  rewrite !map_map. cbn [chi_Modality Reference_frequencies Actual_frequencies Chi_square].
  split; [apply map_nth_seq|].
  split; [rewrite <- Le; apply map_nth_seq|].
  split; [rewrite <- La; apply map_nth_seq|].
  f_equal. rewrite <- La. symmetry. apply nth_combine_map. congruence.
Qed.

Lemma chi_square_table_consistent_witness :
  ["a"; "a"; "b"] <> [] /\
  exists mods af ef chi_square p_value rows,
    _calculate_frequencies (H := sample_libraries) ["a"; "b"; "c"] ["a"; "a"; "b"] (Some 1)
      = Ok (mods, af, ef) /\
    _calculate_chi_square (H := sample_libraries) ["a"; "b"; "c"] ["a"; "a"; "b"] (Some 1)
      = Ok (chi_square, p_value, rows) /\
    map chi_Modality rows = mods /\
    map Reference_frequencies rows = ef /\
    map Actual_frequencies rows = af /\
    chi_square = fold_left np_add (map Chi_square rows) (Finite 0).
Proof.
  assert (H1 : ["a"; "a"; "b"] <> []) by discriminate.
  split; [exact H1|].
  exact (chi_square_table_consistent (H := sample_libraries) ["a"; "b"; "c"] _ (Some 1) H1).
Defined.

(** *** A series against itself *)

Lemma combine_same (f : list Z) (a e : Z) : In (a, e) (combine f f) -> a = e.
Proof.
  induction f as [|x f IH]; simpl; [intros []|].
  intros [[= <- <-]|Hi]; [reflexivity|now apply IH].
Qed.

Lemma chi_term_same (e : Z) : 0 < e -> chi_term 1 e e = Finite 0.
Proof.
  intros He. assert (0 < IZR e)%R by (apply IZR_lt; assumption).
  unfold chi_term, np_div.
  destruct (Req_dec_T (IZR e * 1) 0) as [E|_]; [exfalso; lra|].
  f_equal. replace (IZR e - IZR e * 1)%R with 0%R by ring.
  unfold Rdiv. simpl. ring.
Qed.

Lemma fold_np_add_zeros (l : list npfloat) :
  Forall (fun t => t = Finite 0) l -> fold_left np_add l (Finite 0) = Finite 0.
Proof.
  induction 1 as [|t l -> _ IH]; simpl; [reflexivity|].
  replace (Finite (0 + 0)) with (Finite 0) by (f_equal; lra). exact IH.
Qed.

(** X12. A non-empty series compared with itself has a chi-squared statistic
    of exactly 0.  As the CDF of the chi-squared distribution is 0 at 0, the
    p-value is then forced to 0 (with one category it is 0 anyway), so the
    chi-squared test of a series against itself fails for every threshold that
    is not negative; it reports no drifting modality. *)
Theorem chi_square_of_series_with_itself `{Libraries}
    (s : list string) (test_data : string) (percent : R) (mc : option Z) (t : R) :
  (forall dof, 0 < dof -> chi2_cdf (Finite 0) dof = Finite 0) ->
  s <> [] -> ~ In other_key s -> (0 <= t)%R ->
  _test_series_drift_chi s s test_data percent mc (Some t)
  = Ok (None, Finite 0, false).
Proof.
  intros Hcdf Hne Hs Ht.
  destruct (frequencies_same_series s mc Hs) as (mods & f & Hf).
  pose proof (frequencies_table_ok s s mc mods f f Hne Hs Hs Hf) as Hok.
  destruct (frequencies_aligned _ _ _ _ _ _ Hf) as [La _].
  assert (Hk : (IZR (len s) / IZR (len s))%R = 1%R).
  { unfold Rdiv. apply Rinv_r. apply not_0_IZR. unfold len.
    destruct s; [congruence|simpl; lia]. }
  assert (Hterm : forall ae, In ae (combine f f) -> chi_term 1 (fst ae) (snd ae) = Finite 0).
  { intros [a e] Hae. cbn [fst snd]. pose proof (combine_same f a e Hae). subst a.
    unfold table_ok in Hok. rewrite Forall_forall in Hok.
    destruct (Hok _ Hae) as (He & _ & Hz). cbn [fst snd] in *.
    apply chi_term_same. destruct (Z.eq_dec e 0) as [E|E]; [specialize (Hz E)|]; lia. }
  assert (Hchi : fold_left np_add
                   (map (fun ae => chi_term 1 (fst ae) (snd ae)) (combine f f)) (Finite 0)
                 = Finite 0).
  { apply fold_np_add_zeros. apply Forall_forall. intros x Hx.
    apply in_map_iff in Hx as [ae [<- Hae]]. now apply Hterm. }
  unfold _test_series_drift_chi.
  rewrite (calculate_chi_square_eq s s mc mods f f Hf Hne). rewrite Hk, Hchi.
  cbn [bind].
  assert (Hp : (if len mods >? 1
                then if np_ne_zero (chi2_cdf (Finite 0) (len mods - 1))
                     then np_one_minus (chi2_cdf (Finite 0) (len mods - 1))
                     else Finite 0
                else Finite 0) = Finite 0).
  { destruct (Z.gtb_spec (len mods) 1) as [Hgt|_]; [|reflexivity].
    rewrite Hcdf by lia. simpl.
    destruct (Req_dec_T 0 0) as [_|Hn]; [reflexivity|contradiction]. }
  rewrite Hp. unfold py_gt. cbn [bind np_gt].
  destruct (Rlt_dec t 0) as [Hlt|_]; [exfalso; lra|].
  rewrite generate_message_none; [reflexivity|].
  rewrite map_map. cbn [Chi_square].
  rewrite <- La.
  rewrite (nth_combine_map
             (fun a e => np_gt (chi_term 1 a e) (np_scale percent (Finite 0))) f f eq_refl).
  apply Forall_forall. intros b Hb. apply in_map_iff in Hb as [ae [<- Hae]].
  cbn beta. rewrite (Hterm ae Hae). simpl.
  destruct (Rlt_dec (percent * 0) 0) as [Hlt|]; [|reflexivity].
  exfalso. rewrite Rmult_0_r in Hlt. lra.
Qed.

Lemma chi_square_of_series_with_itself_witness :
  (forall dof, 0 < dof ->
     chi2_cdf (Libraries := sample_libraries) (Finite 0) dof = Finite 0) /\
  ["a"; "a"; "b"] <> [] /\
  ~ In (other_key (H := sample_libraries)) ["a"; "a"; "b"] /\
  (0 <= 0.05)%R /\
  _test_series_drift_chi (H := sample_libraries) ["a"; "a"; "b"] ["a"; "a"; "b"]
    "data" 0.2%R (Some 20) (Some 0.05%R)
  = Ok (None, Finite 0, false).
Proof.
  assert (H0 : forall dof, 0 < dof ->
                 chi2_cdf (Libraries := sample_libraries) (Finite 0) dof = Finite 0).
  { intros dof _. simpl. destruct (Rlt_dec 0 0) as [Hlt|_]; [exfalso; lra|].
    f_equal. lra. }
  assert (H1 : ["a"; "a"; "b"] <> []) by discriminate.
  assert (H2 : ~ In (other_key (H := sample_libraries)) ["a"; "a"; "b"])
    by (simpl; intuition discriminate).
  assert (H3 : (0 <= 0.05)%R) by lra.
  split; [exact H0|]. split; [exact H1|]. split; [exact H2|]. split; [exact H3|].
  exact (chi_square_of_series_with_itself (H := sample_libraries) _ "data" 0.2%R
           (Some 20) 0.05%R H0 H1 H2 H3).
Defined.

(** ** The Earth-Mover calculator *)

(** X13. If [wasserstein_distance] is symmetric, so is the Earth-Mover
    calculator: the order in which the two series are passed (the test on a
    feature and the test on predictions pass them in opposite orders) does
    not matter. *)
Theorem earth_movers_distance_symmetric `{Libraries} (actual reference : list R) :
  (forall u v, wasserstein_distance u v = wasserstein_distance v u) ->
  _calculate_earth_movers_distance actual reference
  = _calculate_earth_movers_distance reference actual.
Proof.
  intros Hsym.
  destruct actual as [|a actual]; [destruct reference as [|r reference]|].
  - reflexivity.
  - destruct (earth_movers_cases [] (r :: reference)) as
        (lo & hi & _ & _ & Ilo & Ihi & B & Hdeg & Hnorm); [right; discriminate|].
    destruct (earth_movers_cases (r :: reference) []) as
        (lo' & hi' & _ & _ & Ilo' & Ihi' & B' & Hdeg' & Hnorm'); [left; discriminate|].
    assert (lo = lo') by (apply Rle_antisym; [apply B; tauto|apply B'; tauto]).
    assert (hi = hi') by (apply Rle_antisym; [apply B'; tauto|apply B; tauto]).
    subst lo' hi'. destruct (Req_dec_T hi lo) as [E|E].
    + now rewrite Hdeg, Hdeg'.
    + destruct (Hnorm E) as (_ & _ & _ & ->). destruct (Hnorm' E) as (_ & _ & _ & ->).
      apply Hsym.
  - set (act := a :: actual).
    destruct (earth_movers_cases act reference) as
        (lo & hi & _ & _ & Ilo & Ihi & B & Hdeg & Hnorm); [left; discriminate|].
    destruct (earth_movers_cases reference act) as
        (lo' & hi' & _ & _ & Ilo' & Ihi' & B' & Hdeg' & Hnorm'); [right; discriminate|].
    assert (lo = lo') by (apply Rle_antisym; [apply B; tauto|apply B'; tauto]).
    assert (hi = hi') by (apply Rle_antisym; [apply B'; tauto|apply B; tauto]).
    subst lo' hi'. destruct (Req_dec_T hi lo) as [E|E].
    + now rewrite Hdeg, Hdeg'.
    + destruct (Hnorm E) as (_ & _ & _ & ->). destruct (Hnorm' E) as (_ & _ & _ & ->).
      apply Hsym.
Qed.

Lemma earth_movers_distance_symmetric_witness :
  (forall u v, wasserstein_distance (Libraries := sample_libraries) u v
               = wasserstein_distance (Libraries := sample_libraries) v u) /\
  _calculate_earth_movers_distance (H := sample_libraries) [1%R; 2%R] [1%R; 3%R]
  = _calculate_earth_movers_distance (H := sample_libraries) [1%R; 3%R] [1%R; 2%R].
Proof.
  assert (H0 : forall u v, wasserstein_distance (Libraries := sample_libraries) u v
                           = wasserstein_distance (Libraries := sample_libraries) v u).
  { intros u v. simpl. f_equal. apply Rabs_minus_sym. }
  split; [exact H0|].
  exact (earth_movers_distance_symmetric (H := sample_libraries) _ _ H0).
Defined.

(** ** Extraction of the two series *)

Lemma getitem_Ok {V : Type} (l : list (string * V)) (k : string) (v : V) :
  getitem l k = Ok v <-> assoc l k = Some v.
Proof.
  unfold getitem. destruct (assoc l k); split; intros E; congruence.
Qed.

Lemma assoc_in_columns {V : Type} (l : list (string * V)) (k : string) :
  existsb (String.eqb k) (map fst l) = true <-> exists v, assoc l k = Some v.
Proof.
  induction l as [|[k' v'] l IH]; simpl.
  - split; [discriminate|intros [? ?]; discriminate].
  - rewrite (String.eqb_sym k k'). destruct (String.eqb k' k); simpl; [|exact IH].
    split; eauto.
Qed.

Lemma validate_feature_type_Ok (ds : Dataset) (column_name feature_type : string) (u : unit) :
  _validate_feature_type ds column_name feature_type = Ok u
  <-> assoc (feature_types ds) column_name = Some feature_type.
Proof.
  unfold _validate_feature_type, getitem, py_assert.
  destruct (assoc (feature_types ds) column_name) as [declared|]; cbn [bind].
  - destruct (String.eqb_spec declared feature_type) as [->|Hne]; destruct u.
    + tauto.
    + split; [discriminate|congruence].
  - split; discriminate.
Qed.

(** X14. [_extract_series] returns two series exactly when the column is in
    both data frames, both datasets declare the expected feature type for it,
    and neither column is empty; what it returns are the two columns. *)
Theorem extract_series_succeeds_iff (actual_ds reference_ds : Dataset)
    (column_name feature_type : string) (actual_series reference_series : Series) :
  _extract_series actual_ds reference_ds column_name feature_type
    = Ok (actual_series, reference_series)
  <->
  assoc (df actual_ds) column_name = Some actual_series /\
  assoc (df reference_ds) column_name = Some reference_series /\
  assoc (feature_types actual_ds) column_name = Some feature_type /\
  assoc (feature_types reference_ds) column_name = Some feature_type /\
  series_empty actual_series = false /\
  series_empty reference_series = false.
Proof.
  split.
  - intros Hx. pose proof (extract_series_notempty _ _ _ _ _ _ Hx) as [E1 E2].
    unfold _extract_series in Hx.
    apply bind_Ok_inv in Hx as (u1 & _ & Hx).
    apply bind_Ok_inv in Hx as (u2 & H2 & Hx).
    apply bind_Ok_inv in Hx as (u3 & H3 & Hx).
    apply bind_Ok_inv in Hx as (sa & H4 & Hx).
    apply bind_Ok_inv in Hx as (sr & H5 & Hx).
    apply bind_Ok_inv in Hx as (u4 & _ & Hx).
    injection Hx as -> ->.
    apply validate_feature_type_Ok in H2, H3. apply getitem_Ok in H4, H5. tauto.
  - intros (H4 & H5 & H2 & H3 & E1 & E2). unfold _extract_series.
    assert (Hc : _validate_column_name actual_ds reference_ds column_name = Ok tt).
    { unfold _validate_column_name, columns, py_assert.
      rewrite (proj2 (assoc_in_columns (df actual_ds) column_name)) by eauto.
      cbn [bind].
      rewrite (proj2 (assoc_in_columns (df reference_ds) column_name)) by eauto.
      reflexivity. }
    rewrite Hc. cbn [bind].
    rewrite (proj2 (validate_feature_type_Ok actual_ds _ _ tt) H2). cbn [bind].
    rewrite (proj2 (validate_feature_type_Ok reference_ds _ _ tt) H3). cbn [bind].
    rewrite (proj2 (getitem_Ok _ _ _) H4), (proj2 (getitem_Ok _ _ _) H5). cbn [bind].
    unfold _validate_series_notempty. rewrite E1, E2. reflexivity.
Qed.

Lemma existsb_eqb_false (k : string) (l : list string) :
  ~ In k l -> existsb (String.eqb k) l = false.
Proof.
  intros Hn. destruct (existsb (String.eqb k) l) eqn:E; [|reflexivity].
  apply existsb_exists in E as [x [Hx E]]. apply String.eqb_eq in E. subst x.
  contradiction.
Qed.

(** X15. When the column is missing from the actual dataset, each of the four
    tests on a feature stops with the [AssertionError] that names the column
    and lists the columns of the actual dataset, before the feature type or
    the reference dataset is looked at. *)
Theorem feature_tests_missing_column `{Libraries}
    (reference_ds actual_ds : Dataset) (column_name : string) :
  ~ In column_name (columns actual_ds) ->
  let e := AssertionError
             (dquote ++ column_name ++ dquote
                ++ " is not a column of Actual Dataset Columns: "
                ++ String.concat ", " (columns actual_ds))%string in
  (forall threshold max_categories percent,
     test_drift_psi reference_ds actual_ds column_name threshold max_categories percent
       = Raise e) /\
  (forall threshold max_categories percent,
     test_drift_chi_square reference_ds actual_ds column_name threshold max_categories
       percent = Raise e) /\
  (forall threshold,
     test_drift_ks reference_ds actual_ds column_name threshold = Raise e) /\
  (forall threshold,
     test_drift_earth_movers_distance reference_ds actual_ds column_name threshold
       = Raise e).
Proof.
  intros Hn e.
  assert (Hx : forall feature_type,
             _extract_series actual_ds reference_ds column_name feature_type = Raise e).
  { intros feature_type. unfold _extract_series, _validate_column_name, py_assert.
    rewrite (existsb_eqb_false _ _ Hn). reflexivity. }
  unfold test_drift_psi, test_drift_chi_square, test_drift_ks,
    test_drift_earth_movers_distance.
  repeat split; intros; rewrite Hx; reflexivity.
Qed.

Lemma feature_tests_missing_column_witness :
  ~ In "height" (columns (sample_numeric [1%R; 2%R])) /\
  forall threshold,
    test_drift_ks (H := sample_libraries) (sample_numeric [1%R; 3%R])
      (sample_numeric [1%R; 2%R]) "height" threshold
    = Raise (AssertionError
               (dquote ++ "height" ++ dquote
                  ++ " is not a column of Actual Dataset Columns: age")%string).
Proof.
  assert (H1 : ~ In "height" (columns (sample_numeric [1%R; 2%R])))
    by (simpl; intuition discriminate).
  split; [exact H1|].
  exact (proj1 (proj2 (proj2 (feature_tests_missing_column (H := sample_libraries)
                                (sample_numeric [1%R; 3%R]) (sample_numeric [1%R; 2%R])
                                "height" H1)))).
Defined.

(** ** Results of the KS and Earth-Mover tests *)

(** A result of one of the four KS and Earth-Mover tests has passed exactly
    when it carries no message. *)
Lemma ks_emd_passed_iff_no_message `{Libraries} :
  (forall reference_ds actual_ds column_name threshold r,
     test_drift_ks reference_ds actual_ds column_name threshold = Ok r ->
     (passed r = true <-> messages r = None)) /\
  (forall reference_ds actual_ds column_name threshold r,
     test_drift_earth_movers_distance reference_ds actual_ds column_name threshold
       = Ok r ->
     (passed r = true <-> messages r = None)) /\
  (forall reference_slice actual_slice model label threshold r log,
     test_drift_prediction_ks reference_slice actual_slice model label threshold
       = (Ok r, log) ->
     (passed r = true <-> messages r = None)) /\
  (forall reference_slice actual_slice model label threshold r log,
     test_drift_prediction_earth_movers_distance reference_slice actual_slice model
       label threshold = (Ok r, log) ->
     (passed r = true <-> messages r = None)).
Proof.
  repeat split.
  - revert H0. unfold test_drift_ks. intros Ht.
    apply bind_Ok_inv in Ht as ([sa sr] & _ & Ht).
    apply bind_Ok_inv in Ht as (a & _ & Ht).
    apply bind_Ok_inv in Ht as (rf & _ & Ht).
    apply bind_Ok_inv in Ht as (ks & _ & Ht).
    apply bind_Ok_inv in Ht as (p & _ & Ht).
    injection Ht as <-. cbn [passed messages new_TestResult]. intros ->. reflexivity.
  - revert H0. unfold test_drift_ks. intros Ht.
    apply bind_Ok_inv in Ht as ([sa sr] & _ & Ht).
    apply bind_Ok_inv in Ht as (a & _ & Ht).
    apply bind_Ok_inv in Ht as (rf & _ & Ht).
    apply bind_Ok_inv in Ht as (ks & _ & Ht).
    apply bind_Ok_inv in Ht as (p & _ & Ht).
    injection Ht as <-. cbn [passed messages new_TestResult].
    destruct p; [reflexivity|discriminate].
  - revert H0. unfold test_drift_earth_movers_distance. intros Ht.
    apply bind_Ok_inv in Ht as ([sa sr] & _ & Ht).
    apply bind_Ok_inv in Ht as (a & _ & Ht).
    apply bind_Ok_inv in Ht as (rf & _ & Ht).
    apply bind_Ok_inv in Ht as (m & _ & Ht).
    apply bind_Ok_inv in Ht as (p & Hle & Ht).
    injection Ht as <-. cbn [passed messages new_TestResult].
    destruct threshold as [t|]; [|discriminate]. intros ->. reflexivity.
  - revert H0. unfold test_drift_earth_movers_distance. intros Ht.
    apply bind_Ok_inv in Ht as ([sa sr] & _ & Ht).
    apply bind_Ok_inv in Ht as (a & _ & Ht).
    apply bind_Ok_inv in Ht as (rf & _ & Ht).
    apply bind_Ok_inv in Ht as (m & _ & Ht).
    apply bind_Ok_inv in Ht as (p & Hle & Ht).
    injection Ht as <-. cbn [passed messages new_TestResult].
    destruct threshold as [t|]; [|discriminate].
    destruct p; [reflexivity|discriminate].
  - revert H0. unfold test_drift_prediction_ks. intros Ht.
    apply bindM_Ok_inv in Ht as (u & l1 & l2 & _ & Ht & _).
    apply bindM_Ok_inv in Ht as (pr & l3 & l4 & _ & Ht & _).
    apply bindM_Ok_inv in Ht as (pa & l5 & l6 & _ & Ht & _).
    apply bindM_Ok_inv in Ht as (ks & l7 & l8 & _ & Ht & _).
    apply lift_Ok_inv in Ht. injection Ht as <-.
    cbn [passed messages new_TestResult]. intros ->. reflexivity.
  - revert H0. unfold test_drift_prediction_ks. intros Ht.
    apply bindM_Ok_inv in Ht as (u & l1 & l2 & _ & Ht & _).
    apply bindM_Ok_inv in Ht as (pr & l3 & l4 & _ & Ht & _).
    apply bindM_Ok_inv in Ht as (pa & l5 & l6 & _ & Ht & _).
    apply bindM_Ok_inv in Ht as (ks & l7 & l8 & _ & Ht & _).
    apply lift_Ok_inv in Ht. injection Ht as <-.
    cbn [passed messages new_TestResult].
    destruct (match threshold with None => true | Some t => Rle_bool t (pvalue ks) end);
      [reflexivity|discriminate].
  - revert H0. unfold test_drift_prediction_earth_movers_distance. intros Ht.
    apply bindM_Ok_inv in Ht as (pr & l3 & l4 & _ & Ht & _).
    apply bindM_Ok_inv in Ht as (pa & l5 & l6 & _ & Ht & _).
    apply bindM_Ok_inv in Ht as (m & l7 & l8 & _ & Ht & _).
    apply lift_Ok_inv in Ht. injection Ht as <-.
    cbn [passed messages new_TestResult]. intros ->. reflexivity.
  - revert H0. unfold test_drift_prediction_earth_movers_distance. intros Ht.
    apply bindM_Ok_inv in Ht as (pr & l3 & l4 & _ & Ht & _).
    apply bindM_Ok_inv in Ht as (pa & l5 & l6 & _ & Ht & _).
    apply bindM_Ok_inv in Ht as (m & l7 & l8 & _ & Ht & _).
    apply lift_Ok_inv in Ht. injection Ht as <-.
    cbn [passed messages new_TestResult].
    destruct (match threshold with None => true | Some t => Rle_bool m t end);
      [reflexivity|discriminate].
Qed.

(** X16. A result of one of the four KS and Earth-Mover tests has passed
    exactly when it carries no message, and then
    [map_result_to_single_test_result] cannot map it: it raises [TypeError]
    on iterating the missing messages.  A failed result is mapped. *)
Theorem ks_emd_passing_result_is_not_mapped `{Libraries} (r : TestResult) :
  returned_by_ks_or_emd_test r ->
  (passed r = true <-> messages r = None) /\
  (passed r = true ->
   map_result_to_single_test_result (PyTestResult r)
     = Raise (TypeError "'NoneType' object is not iterable")) /\
  (passed r = false ->
   exists s, map_result_to_single_test_result (PyTestResult r) = Ok s /\
             s_passed s = false /\ List.length (s_messages s) = 1%nat).
Proof.
  intros Hr.
  assert (Hiff : passed r = true <-> messages r = None).
  { destruct ks_emd_passed_iff_no_message as (H1 & H2 & H3 & H4).
    destruct Hr as [Hr|[Hr|[Hr|Hr]]].
    - destruct Hr as (a & b & c & d & Hr). exact (H1 _ _ _ _ _ Hr).
    - destruct Hr as (a & b & c & d & Hr). exact (H2 _ _ _ _ _ Hr).
    - destruct Hr as (a & b & c & d & e & l & Hr). exact (H3 _ _ _ _ _ _ _ Hr).
    - destruct Hr as (a & b & c & d & e & l & Hr). exact (H4 _ _ _ _ _ _ _ Hr). }
  split; [exact Hiff|]. split.
  - intros Hp. apply Hiff in Hp. unfold map_result_to_single_test_result.
    now rewrite Hp.
  - intros Hp.
    assert (Hone : exists m, messages r = Some [m]).
    { destruct Hr as [Hr|[Hr|[Hr|Hr]]].
      - destruct Hr as (a & b & c & d & Ht). unfold test_drift_ks in Ht.
        apply bind_Ok_inv in Ht as ([sa sr] & _ & Ht).
        apply bind_Ok_inv in Ht as (x1 & _ & Ht).
        apply bind_Ok_inv in Ht as (x2 & _ & Ht).
        apply bind_Ok_inv in Ht as (ks & _ & Ht).
        apply bind_Ok_inv in Ht as (p & _ & Ht).
        injection Ht as <-. cbn [passed messages new_TestResult] in *. subst p.
        cbn. eauto.
      - destruct Hr as (a & b & c & d & Ht).
        unfold test_drift_earth_movers_distance in Ht.
        apply bind_Ok_inv in Ht as ([sa sr] & _ & Ht).
        apply bind_Ok_inv in Ht as (x1 & _ & Ht).
        apply bind_Ok_inv in Ht as (x2 & _ & Ht).
        apply bind_Ok_inv in Ht as (m & _ & Ht).
        apply bind_Ok_inv in Ht as (p & _ & Ht).
        injection Ht as <-. cbn [passed messages new_TestResult] in *.
        destruct d as [t|]; [|discriminate]. subst p. cbn. eauto.
      - destruct Hr as (a & b & c & d & e & l & Ht).
        unfold test_drift_prediction_ks in Ht.
        apply bindM_Ok_inv in Ht as (u & l1 & l2 & _ & Ht & _).
        apply bindM_Ok_inv in Ht as (pr & l3 & l4 & _ & Ht & _).
        apply bindM_Ok_inv in Ht as (pa & l5 & l6 & _ & Ht & _).
        apply bindM_Ok_inv in Ht as (ks & l7 & l8 & _ & Ht & _).
        apply lift_Ok_inv in Ht. injection Ht as <-.
        cbn [passed messages new_TestResult] in *. rewrite Hp. cbn. eauto.
      - destruct Hr as (a & b & c & d & e & l & Ht).
        unfold test_drift_prediction_earth_movers_distance in Ht.
        apply bindM_Ok_inv in Ht as (pr & l3 & l4 & _ & Ht & _).
        apply bindM_Ok_inv in Ht as (pa & l5 & l6 & _ & Ht & _).
        apply bindM_Ok_inv in Ht as (m & l7 & l8 & _ & Ht & _).
        apply lift_Ok_inv in Ht. injection Ht as <-.
        cbn [passed messages new_TestResult] in *. rewrite Hp. cbn. eauto. }
    destruct Hone as (m & Hm). unfold map_result_to_single_test_result. rewrite Hm.
    eexists. split; [reflexivity|]. cbn. split; [exact Hp|reflexivity].
Qed.

Lemma ks_emd_passing_result_is_not_mapped_witness :
  let r := new_TestResult [2] [2] true (Finite 0.01) None in
  @returned_by_ks_or_emd_test sample_libraries r /\
  map_result_to_single_test_result (PyTestResult r)
    = Raise (TypeError "'NoneType' object is not iterable").
Proof.
  intros r.
  assert (Hr : @returned_by_ks_or_emd_test sample_libraries r).
  { right. right. left.
    exists (sample_numeric [1%R; 2%R]), (sample_numeric [3%R; 4%R]), constant_classifier,
           (Some "yes"%string), None,
           [sample_numeric [1%R; 2%R]; sample_numeric [3%R; 4%R]].
    reflexivity. }
  split; [exact Hr|].
  apply (@ks_emd_passing_result_is_not_mapped sample_libraries r Hr).
  reflexivity.
Defined.

(** ** The messages that name modalities *)

Lemma strip_prefix_app (p s : string) : strip_prefix p (p ++ s)%string = Some s.
Proof.
  induction p as [|c p IH]; simpl; [reflexivity|].
  now rewrite Ascii.eqb_refl.
Qed.

Lemma substring_whole (s : string) : String.substring 0 (String.length s) s = s.
Proof. induction s as [|c s IH]; simpl; [reflexivity|now rewrite IH]. Qed.

Lemma substring_end (s : string) : String.substring (String.length s) 0 s = ""%string.
Proof. induction s as [|c s IH]; simpl; [reflexivity|exact IH]. Qed.

(** The pattern recognises the generated key. *)
Lemma re_match_other_key `{Libraries} :
  well_formed_hex uuid1_hex -> re_match_other_modalities other_key = true.
Proof.
  intros [Hl Hc]. unfold re_match_other_modalities, other_key.
  rewrite strip_prefix_app. cbv zeta.
  pose proof (substring_whole uuid1_hex) as Hw.
  pose proof (substring_end uuid1_hex) as He.
  rewrite Hl in Hw, He. rewrite Hl, Nat.sub_diag, Hw, He, Hl, Hc. reflexivity.
Qed.

Lemma keys_dict_of_items_incl (items : list (string * Z)) (k : string) :
  In k (keys (dict_of_items items)) -> In k (map fst items).
Proof.
  unfold dict_of_items.
  assert (G : forall d, In k (keys (fold_left (fun d kv => dict_set d (fst kv) (snd kv))
                                       items d)) ->
                        In k (keys d) \/ In k (map fst items)).
  { induction items as [|[k' v] items IH]; simpl; intros d Hk; [now left|].
    apply IH in Hk as [Hk|Hk]; [|tauto].
    apply In_keys_dict_set in Hk as [->|Hk]; tauto. }
  intros Hk. apply G in Hk as [[]|Hk]. exact Hk.
Qed.

(** Every modality of the frequency table is the generated key or a value of
    one of the two series. *)
Lemma frequencies_modalities_origin `{Libraries}
    (actual reference : list string) (mc : option Z) mods af ef (w : string) :
  _calculate_frequencies actual reference mc = Ok (mods, af, ef) ->
  In w mods -> w = other_key \/ In w reference \/ In w actual.
Proof.
  unfold _calculate_frequencies.
  destruct (match mc with Some k => _ | None => false end).
  - set (d1 := dict_set _ other_key _). set (a1 := dict_set _ other_key _).
    destruct (mapM (dict_getitem d1) (keys d1)) as [e|]; cbn [bind]; [|discriminate].
    destruct (mapM (dict_getitem a1) (keys d1)) as [a|]; cbn [bind]; [|discriminate].
    intros [= <- <- <-] Hw. unfold d1 in Hw.
    apply In_keys_dict_set in Hw as [->|Hw]; [now left|].
    right. left. apply keys_dict_of_items_incl in Hw.
    apply in_map_iff in Hw as ([k v] & <- & Hkv).
    apply most_common_incl in Hkv. apply In_keys_Counter.
    unfold keys. apply in_map_iff. exists (k, v). split; [reflexivity|exact Hkv].
  - intros [= <- <- <-] Hw. right. now apply set_union_list_In.
Qed.

(** X17. When the PSI or the chi-squared test on two series returns a
    message, it is one error message that names a non-empty list of
    modalities; each of them is a value of one of the two series, and the
    generated key of the merged remainder ([uuid1] giving 32 characters of
    digits and lower-case letters) is never among them. *)
Theorem drift_messages_name_observed_categories `{Libraries}
    (actual reference : list string) (test_data : string) (mc : option Z)
    (percent : R) (threshold : option R) (msgs : list TestMessage) :
  well_formed_hex uuid1_hex ->
  (exists p total,
     _test_series_drift_psi actual reference test_data mc percent threshold
       = Ok (Some msgs, p, total)) \/
  (exists p_value p,
     _test_series_drift_chi actual reference test_data percent mc threshold
       = Ok (Some msgs, p_value, p)) ->
  exists listed,
    listed <> [] /\ msgs = [modalities_message test_data listed] /\
    ~ In other_key listed /\
    forall w, In w listed -> In w reference \/ In w actual.
Proof.
  intros Hhex Hrun.
  destruct (calculate_frequencies_total actual reference mc) as (mods & af & ef & Hf).
  assert (Hg : exists mask,
             _generate_message_modalities mask mods test_data = Some msgs).
  { destruct Hrun as [(p & total & Ht)|(p_value & p & Ht)].
    - unfold _test_series_drift_psi in Ht.
      pose proof (calculate_drift_psi_eq actual reference mc mods af ef Hf) as Hp.
      cbv zeta in Hp. rewrite Hp in Ht. cbn [bind] in Ht.
      injection Ht as Hm _ _. rewrite (map_map _ Modality) in Hm. cbn [Modality] in Hm.
      rewrite map_nth_seq in Hm. eauto.
    - unfold _test_series_drift_chi in Ht.
      destruct reference as [|x reference].
      { unfold _calculate_chi_square in Ht. rewrite Hf in Ht. discriminate. }
      pose proof (calculate_chi_square_eq actual (x :: reference) mc mods af ef Hf
                    ltac:(discriminate)) as Hc.
      cbv zeta in Hc. rewrite Hc in Ht. cbn [bind] in Ht.
      destruct (py_gt _ threshold) as [b|]; cbn [bind] in Ht; [|discriminate].
      injection Ht as Hm _ _. rewrite (map_map _ chi_Modality) in Hm. cbn [chi_Modality] in Hm.
      rewrite map_nth_seq in Hm. eauto. }
  destruct Hg as (mask & Hg).
  apply generate_message_modalities_some in Hg as (listed & Hne & Hm & Hl).
  exists listed. split; [exact Hne|]. split; [exact Hm|]. split.
  - intros Hin. apply Hl in Hin as [_ Hin].
    rewrite re_match_other_key in Hin by assumption. discriminate.
  - intros w Hw. destruct (Hl w Hw) as [Hc Hr].
    destruct (frequencies_modalities_origin _ _ _ _ _ _ w Hf Hc) as [->|Ho]; [|exact Ho].
    rewrite re_match_other_key in Hr by assumption. discriminate.
Qed.

Lemma drift_messages_name_observed_categories_witness :
  well_formed_hex (uuid1_hex (Libraries := sample_libraries)) /\
  exists listed,
    listed <> [] /\
    [modalities_message "data" ["a"; "b"]] = [modalities_message "data" listed] /\
    ~ In (other_key (H := sample_libraries)) listed /\
    forall w, In w listed -> In w ["a"; "a"] \/ In w ["b"; "b"].
Proof.
  assert (Hh : well_formed_hex (uuid1_hex (Libraries := sample_libraries)))
    by (split; reflexivity).
  split; [exact Hh|].
  apply (drift_messages_name_observed_categories (H := sample_libraries)
           ["b"; "b"] ["a"; "a"] "data" (Some 20) 0.2%R (Some 0.2%R) _ Hh).
  left. do 2 eexists. exact disjoint_series_psi.
Defined.

(** ** The calls of [model.predict] *)

Lemma bindM_lift {A B : Type} (c : result A) (k : A -> M B) :
  bindM (lift c) k = match c with Ok a => k a | Raise e => (Raise e, []) end.
Proof.
  unfold bindM, lift. destruct c as [a|e]; [|reflexivity].
  destruct (k a) as [r l]. reflexivity.
Qed.

Lemma bindM_call_predict {B : Type} (model : BaseModel) (dataset : Dataset)
      (k : ModelPredictionResults -> M B) :
  bindM (call_predict model dataset) k
  = (fst (k (predict model dataset)), dataset :: snd (k (predict model dataset))).
Proof.
  unfold bindM, call_predict. destruct (k (predict model dataset)) as [r l]. reflexivity.
Qed.

Lemma bindM_predicted_values {B : Type} (model : BaseModel) (slice : Dataset)
      (label : option string) (k : list R -> M B) :
  exists c : result (list R),
    bindM (predicted_values model slice label) k
    = match c with
      | Ok v => (fst (k v), slice :: snd (k v))
      | Raise e => (Raise e, [slice])
      end.
Proof.
  unfold predicted_values.
  destruct (is_classification model).
  - exists (match label with
            | Some l => getitem (all_predictions (predict model slice)) l
            | None => Raise (KeyError "None")
            end).
    unfold bindM at 2. unfold call_predict, lift.
    destruct (match label with Some l => _ | None => _ end) as [v|e]; simpl.
    + destruct (k v) as [r l]. reflexivity.
    + reflexivity.
  - exists (as_numbers (prediction (predict model slice))).
    unfold bindM at 2. unfold call_predict, lift.
    destruct (as_numbers _) as [v|e]; simpl.
    + destruct (k v) as [r l]. reflexivity.
    + reflexivity.
Qed.

(** Splits on the outcome of the next [predicted_values]; a raise closes the
    goal. *)
Ltac predicted_values_cases :=
  match goal with
  | |- context [bindM (predicted_values ?m ?s ?l) ?k] =>
      let c := fresh "c" in
      destruct (bindM_predicted_values m s l k) as (c & ->);
      destruct c as [?|?];
      [cbv beta|cbn; split; [eexists; reflexivity|discriminate]]
  end.

(** X18. Each of the four tests on predictions calls [model.predict] on the
    reference slice and then on the actual slice, and on nothing else: a run
    that returns a result has made exactly these two calls, and a run that
    raises has made a prefix of them. *)
Theorem prediction_tests_predict_reference_then_actual `{Libraries}
    (reference_slice actual_slice : Dataset) (model : BaseModel)
    (threshold : option R) :
  (forall max_categories percent,
     predicts_reference_then_actual reference_slice actual_slice
       (test_drift_prediction_psi reference_slice actual_slice model max_categories
          threshold percent)) /\
  (forall max_categories percent,
     predicts_reference_then_actual reference_slice actual_slice
       (test_drift_prediction_chi_square reference_slice actual_slice model
          max_categories threshold percent)) /\
  (forall label,
     predicts_reference_then_actual reference_slice actual_slice
       (test_drift_prediction_ks reference_slice actual_slice model label threshold)) /\
  (forall label,
     predicts_reference_then_actual reference_slice actual_slice
       (test_drift_prediction_earth_movers_distance reference_slice actual_slice model
          label threshold)).
Proof.
  unfold predicts_reference_then_actual.
  split; [|split; [|split]].
  - intros mc pct. unfold test_drift_prediction_psi.
    rewrite !bindM_call_predict, !bindM_lift.
    destruct (as_categories (prediction (predict model reference_slice))) as [pr|e];
      [|cbn; split; [exists []; reflexivity|discriminate]].
    rewrite bindM_lift.
    destruct (as_categories (prediction (predict model actual_slice))) as [pa|e];
      [|cbn; split; [exists []; reflexivity|discriminate]].
    rewrite bindM_lift.
    destruct (_test_series_drift_psi _ _ _ _ _ _) as [[[m p] t]|e];
      cbn; (split; [exists []; reflexivity|]); [reflexivity|discriminate].
  - intros mc pct. unfold test_drift_prediction_chi_square.
    rewrite !bindM_call_predict, !bindM_lift.
    destruct (as_categories (prediction (predict model reference_slice))) as [pr|e];
      [|cbn; split; [exists []; reflexivity|discriminate]].
    rewrite bindM_lift.
    destruct (as_categories (prediction (predict model actual_slice))) as [pa|e];
      [|cbn; split; [exists []; reflexivity|discriminate]].
    rewrite bindM_lift.
    destruct (_test_series_drift_chi _ _ _ _ _ _) as [[[m p] t]|e];
      cbn; (split; [exists []; reflexivity|]); [reflexivity|discriminate].
  - intros label. unfold test_drift_prediction_ks. rewrite bindM_lift.
    destruct (py_assert _ _) as [u|e];
      [|cbn; split; [eexists; reflexivity|discriminate]].
    predicted_values_cases.
    predicted_values_cases.
    rewrite bindM_lift.
    destruct (_calculate_ks _ _) as [ks|e];
      cbn; (split; [exists []; reflexivity|]); [reflexivity|discriminate].
  - intros label. unfold test_drift_prediction_earth_movers_distance.
    predicted_values_cases.
    predicted_values_cases.
    rewrite bindM_lift.
    destruct (_calculate_earth_movers_distance _ _) as [m|e];
      cbn; (split; [exists []; reflexivity|]); [reflexivity|discriminate].
Qed.

(** ** The arguments of a test *)

Lemma assoc_setitem {V : Type} (d : list (string * V)) (k : string) (v : V)
      (n : string) :
  assoc (setitem d k v) n = if String.eqb k n then Some v else assoc d n.
Proof.
  induction d as [|[k' v'] d IH]; simpl; [reflexivity|].
  destruct (String.eqb_spec k' k) as [->|Hne]; simpl.
  - destruct (String.eqb_spec k n); reflexivity.
  - rewrite IH. destruct (String.eqb_spec k' n) as [->|Hn]; [|reflexivity].
    destruct (String.eqb_spec k n); [congruence|reflexivity].
Qed.

Lemma find_snoc {A : Type} (p : A -> bool) (l : list A) (x : A) :
  find p (l ++ [x])
  = match find p l with
    | Some a => Some a
    | None => if p x then Some x else None
    end.
Proof.
  induction l as [|a l IH]; simpl; [reflexivity|].
  destruct (p a); [reflexivity|exact IH].
Qed.

Lemma parse_test_arguments_loop_spec `{Client}
    (request_arguments : list TestArgument)
    (start arguments : list (string * argument_value)) :
  parse_test_arguments_loop request_arguments start = Returns arguments ->
  forall n,
    assoc arguments n
    = match last_named n request_arguments with
      | Some arg =>
          match argument_value_of arg with
          | Returns value_ => Some value_
          | Throws _ => None
          end
      | None => assoc start n
      end.
Proof.
  revert start. induction request_arguments as [|arg rest IH]; intros start; simpl.
  - intros [= <-] n. reflexivity.
  - destruct (argument_value_of arg) as [v|e] eqn:Ev; [|discriminate].
    intros Hl n. rewrite (IH _ Hl n). unfold last_named. cbn [rev].
    rewrite find_snoc.
    destruct (find _ (rev rest)) as [a|]; [reflexivity|].
    rewrite assoc_setitem.
    destruct (String.eqb (name arg) n); [now rewrite Ev|reflexivity].
Qed.

(** X19. When [parse_test_arguments] returns, the dict maps each name to the
    value of the last argument of the request that bears it (an earlier
    argument of the same name is overwritten), and holds no other name. *)
Theorem parse_test_arguments_last_wins `{Client}
    (request_arguments : list TestArgument)
    (arguments : list (string * argument_value)) :
  parse_test_arguments request_arguments = Returns arguments ->
  forall n,
    match last_named n request_arguments with
    | Some arg =>
        exists value_, argument_value_of arg = Returns value_ /\
                       assoc arguments n = Some value_
    | None => assoc arguments n = None
    end.
Proof.
  unfold parse_test_arguments. intros Hp n.
  pose proof (parse_test_arguments_loop_spec _ _ _ Hp n) as Hn.
  assert (Hall : forall reqs start out,
             parse_test_arguments_loop reqs start = Returns out ->
             forall a, In a reqs -> exists v, argument_value_of a = Returns v).
  { induction reqs as [|a0 reqs IH]; simpl; intros start out Hl a Ha; [tauto|].
    destruct (argument_value_of a0) as [v|e] eqn:Ev; [|discriminate].
    destruct Ha as [<-|Ha]; [eauto|]. eapply IH; eauto. }
  destruct (last_named n request_arguments) as [arg|] eqn:El; [|exact Hn].
  unfold last_named in El. apply find_some in El as [Hin _].
  apply in_rev in Hin. destruct (Hall _ _ _ Hp arg Hin) as (v & Ev).
  rewrite Ev in Hn. eauto.
Qed.

Lemma parse_test_arguments_last_wins_witness :
  let first := {| name := "threshold"; arg_dataset := None; arg_model := None;
                  arg_float := Some 0.1%R; arg_string := None |} in
  let second := {| name := "threshold"; arg_dataset := None; arg_model := None;
                   arg_float := Some 0.5%R; arg_string := None |} in
  exists value_,
    argument_value_of (H := sample_client) second = Returns value_ /\
    assoc [("threshold"%string, FloatValue 0.5%R)] "threshold" = Some value_.
Proof.
  intros first second.
  exact (parse_test_arguments_last_wins (H := sample_client) [first; second]
           [("threshold"%string, FloatValue 0.5%R)] eq_refl "threshold"%string).
Defined.

(** X20. The first argument that cannot be given a value decides the
    outcome: when the arguments before it all have one, the exception of its
    load leaves [parse_test_arguments], and [IllegalArgumentError] does when
    none of its fields is set; the arguments after it are not looked at. *)
Theorem parse_test_arguments_first_failure `{Client}
    (before after : list TestArgument) (arg : TestArgument) :
  Forall (fun a => exists value_, argument_value_of a = Returns value_) before ->
  (forall e, argument_value_of arg = Throws e ->
             parse_test_arguments (before ++ arg :: after) = Throws e) /\
  (no_field arg ->
   parse_test_arguments (before ++ arg :: after)
     = Throws (IllegalArgumentError "Unknown argument type")).
Proof.
  intros Hb.
  assert (G : forall e, argument_value_of arg = Throws e ->
                        parse_test_arguments (before ++ arg :: after) = Throws e).
  { intros e He. unfold parse_test_arguments. generalize (@nil (string * argument_value)).
    induction Hb as [|a before [v Hv] Hb IH]; intros start; simpl.
    - now rewrite He.
    - rewrite Hv. apply IH. }
  split; [exact G|].
  intros (Hd & Hm & Hf & Hs). apply G.
  unfold argument_value_of. now rewrite Hd, Hm, Hf, Hs.
Qed.

Lemma parse_test_arguments_first_failure_witness :
  let good := {| name := "threshold"; arg_dataset := None; arg_model := None;
                 arg_float := Some 0.1%R; arg_string := None |} in
  let bad := {| name := "column"; arg_dataset := None; arg_model := None;
                arg_float := None; arg_string := None |} in
  parse_test_arguments (H := sample_client) ([good] ++ bad :: [good])
    = Throws (IllegalArgumentError "Unknown argument type").
Proof.
  intros good bad.
  refine (proj2 (parse_test_arguments_first_failure (H := sample_client)
                   [good] [good] bad _) _).
  - constructor; [|constructor]. exists (FloatValue 0.1%R). reflexivity.
  - repeat split.
Defined.

(** ** Receiving a file *)

Lemma string_app_assoc (a b c : string) : ((a ++ b) ++ c = a ++ (b ++ c))%string.
Proof. induction a as [|x a IH]; simpl; [reflexivity|now rewrite IH]. Qed.

Lemma string_app_empty (a : string) : (a ++ "" = a)%string.
Proof. induction a as [|x a IH]; simpl; [reflexivity|now rewrite IH]. Qed.

Lemma file_content_setitem (fs : filesystem) (path content p : string) :
  file_content (setitem fs path content) p
  = if String.eqb path p then content else file_content fs p.
Proof.
  unfold file_content. rewrite assoc_setitem.
  destruct (String.eqb path p); reflexivity.
Qed.

Lemma path_exists_setitem (fs : filesystem) (path content p : string) :
  path_exists (setitem fs path content) p
  = (String.eqb path p || path_exists fs p)%bool.
Proof.
  unfold path_exists. rewrite assoc_setitem.
  destruct (String.eqb path p); reflexivity.
Qed.

(** The chunks that follow a missed metadata message are appended to its
    file, in order. *)
Lemma upload_loop_chunks `{Paths} (chunks : list string)
      (metadata : option FileUploadMetadata) (path : string) (fs : filesystem)
      (ys : list StatusCode) :
  exists fs',
    upload_loop (map ChunkMessage chunks)
      {| meta_var := metadata; path_var := Some path; progress_var := true;
         files := fs; yielded := ys |}
    = (None, {| meta_var := metadata; path_var := Some path; progress_var := true;
                files := fs'; yielded := ys |}) /\
    file_content fs' path = (file_content fs path ++ join_chunks chunks)%string /\
    (forall p, p <> path -> assoc fs' p = assoc fs p) /\
    (chunks <> [] -> path_exists fs' path = true).
Proof.
  revert fs. induction chunks as [|c chunks IH]; intros fs.
  - exists fs. simpl. rewrite string_app_empty. repeat split. congruence.
  - cbn [map upload_loop upload_step path_var progress_var meta_var files yielded].
    destruct (IH (setitem fs path (file_content fs path ++ c)%string))
      as (fs' & Hl & Hc & Ho & He).
    exists fs'. split; [exact Hl|]. split; [|split].
    + rewrite Hc, file_content_setitem, String.eqb_refl. cbn [join_chunks fold_right].
      apply string_app_assoc.
    + intros p Hp. rewrite (Ho p Hp), assoc_setitem.
      destruct (String.eqb_spec path p); [congruence|reflexivity].
    + intros _. destruct chunks as [|c' chunks].
      * cbn in Hl. injection Hl as <-.
        rewrite path_exists_setitem, String.eqb_refl. reflexivity.
      * apply He. discriminate.
Qed.

(** X21. A stream that opens with the metadata of a file that is not there
    yet and goes on with chunks yields [CacheMiss] and then [Ok]; afterwards
    the file holds the chunks one after the other and every other file is as
    before. *)
Theorem upload_new_file `{Paths} (fs : filesystem) (metadata : FileUploadMetadata)
    (path : string) (chunks : list string) :
  file_already_exists fs metadata = Returns (false, path) ->
  exists fs',
    upload (MetadataMessage metadata :: map ChunkMessage chunks) fs
      = (None, [CacheMiss; StatusOk], fs') /\
    file_content fs' path = join_chunks chunks /\
    (forall p, p <> path -> assoc fs' p = assoc fs p).
Proof.
  intros Hm. unfold upload.
  cbn [upload_loop upload_step path_var progress_var meta_var files yielded].
  rewrite Hm. cbn [negb app].
  destruct (upload_loop_chunks chunks (Some metadata) path fs [CacheMiss])
    as (fs' & -> & Hc & Ho & _).
  exists fs'. cbn [yielded files app]. split; [reflexivity|]. split; [|exact Ho].
  rewrite Hc.
  assert (E : file_content fs path = ""%string).
  { unfold file_already_exists in Hm. unfold file_content.
    destruct (file_type metadata); try discriminate;
      injection Hm as He <-; unfold path_exists in He;
      destruct (assoc fs _); [discriminate|reflexivity|discriminate|reflexivity]. }
  now rewrite E.
Qed.

Lemma upload_new_file_witness :
  let metadata := {| file_type := MODEL; meta_project_key := "credit";
                     meta_name := "m1" |} in
  exists fs',
    upload (H := sample_paths)
      (MetadataMessage metadata :: map ChunkMessage ["ab"; "cd"]%string)
      [("datasets/credit/d1", "xyz")]%string
      = (None, [CacheMiss; StatusOk], fs') /\
    file_content fs' "models/credit/m1" = join_chunks ["ab"; "cd"]%string /\
    (forall p, p <> "models/credit/m1"%string ->
               assoc fs' p = assoc [("datasets/credit/d1", "xyz")]%string p).
Proof.
  intros metadata.
  exact (upload_new_file (H := sample_paths) [("datasets/credit/d1", "xyz")]%string
           metadata "models/credit/m1" ["ab"; "cd"]%string eq_refl).
Defined.

Lemma upload_cache_hit `{Paths} (fs : filesystem) (metadata : FileUploadMetadata)
      (path : string) (rest : list UploadMessage) :
  file_already_exists fs metadata = Returns (true, path) ->
  upload (MetadataMessage metadata :: rest) fs = (None, [StatusOk], fs).
Proof.
  intros Hm. unfold upload.
  cbn [upload_loop upload_step path_var progress_var meta_var files yielded].
  rewrite Hm. reflexivity.
Qed.

(** X22. Once a file has been received with at least one chunk, a later
    stream for the same metadata is a cache hit: it yields [Ok] alone and
    leaves every file as it is, whatever chunks it carries. *)
Theorem upload_again_is_cache_hit `{Paths} (fs fs' : filesystem)
    (metadata : FileUploadMetadata) (chunks : list string)
    (ys : list StatusCode) (rest : list UploadMessage) :
  chunks <> [] ->
  upload (MetadataMessage metadata :: map ChunkMessage chunks) fs = (None, ys, fs') ->
  upload (MetadataMessage metadata :: rest) fs' = (None, [StatusOk], fs').
Proof.
  intros Hne. unfold upload at 1.
  cbn [upload_loop upload_step path_var progress_var meta_var files yielded].
  destruct (file_already_exists fs metadata) as [[file_exists path]|e] eqn:Hm;
    [|discriminate].
  assert (Hp : forall fs0, file_already_exists fs0 metadata
                           = Returns (path_exists fs0 path, path)).
  { intros fs0. unfold file_already_exists in *.
    destruct (file_type metadata); try discriminate;
      injection Hm as _ <-; reflexivity. }
  destruct file_exists; cbn [negb].
  - intros [= _ <-]. apply (upload_cache_hit fs metadata path). exact Hm.
  - destruct (upload_loop_chunks chunks (Some metadata) path fs ([] ++ [CacheMiss]))
      as (fs1 & -> & _ & _ & He).
    cbn [files yielded]. intros [= _ <-].
    apply (upload_cache_hit fs1 metadata path). rewrite Hp, (He Hne). reflexivity.
Qed.

Lemma upload_again_is_cache_hit_witness :
  let metadata := {| file_type := DATASET; meta_project_key := "credit";
                     meta_name := "d1" |} in
  upload (H := sample_paths)
    (MetadataMessage metadata :: [ChunkMessage "other"%string])
    [("datasets/credit/d1", "ab")]%string
  = (None, [StatusOk], [("datasets/credit/d1", "ab")]%string).
Proof.
  intros metadata.
  refine (upload_again_is_cache_hit (H := sample_paths) [] _ metadata ["ab"%string]
            [CacheMiss; StatusOk] [ChunkMessage "other"%string] _ _).
  - discriminate.
  - reflexivity.
Defined.

(** X23. Two streams end in an exception that leaves the generator before
    anything is yielded: one whose first message with a field is a chunk
    ([AttributeError], from the handler that reads the name of the missing
    metadata), and one whose first such message is the metadata of a file
    type other than model and dataset ([ValueError]).  No file is written. *)
Theorem upload_raises_before_first_status `{Paths} (fs : filesystem)
    (before rest : list UploadMessage) :
  Forall (fun upload_msg => upload_msg = EmptyMessage) before ->
  (forall content,
     upload (before ++ ChunkMessage content :: rest) fs
       = (Some (AttributeError "'NoneType' object has no attribute 'name'"), [], fs)) /\
  (forall metadata printed,
     file_type metadata = OTHER_FILE_TYPE printed ->
     upload (before ++ MetadataMessage metadata :: rest) fs
       = (Some (Builtin (ValueError ("Illegal file type: " ++ printed)%string)), [], fs)).
Proof.
  intros Hb. unfold upload.
  set (s := {| meta_var := None; path_var := None; progress_var := false;
               files := fs; yielded := [] |}).
  assert (Hs : forall tail, upload_loop (before ++ tail) s = upload_loop tail s).
  { intros tail. induction Hb as [|m before -> Hb IH]; [reflexivity|exact IH]. }
  split.
  - intros content. rewrite Hs. reflexivity.
  - intros metadata printed Ht. rewrite Hs.
    cbn [upload_loop upload_step path_var progress_var meta_var files yielded s].
    unfold file_already_exists. rewrite Ht. reflexivity.
Qed.

Lemma upload_raises_before_first_status_witness :
  upload (H := sample_paths) ([EmptyMessage] ++ ChunkMessage "ab" :: []) []
  = (Some (AttributeError "'NoneType' object has no attribute 'name'"), [], []).
Proof.
  refine (proj1 (upload_raises_before_first_status (H := sample_paths) []
                   [EmptyMessage] [] _) "ab"%string).
  constructor; [reflexivity|constructor].
Defined.

Lemma upload_step_grows `{Paths} (s : upload_state) (upload_msg : UploadMessage) :
  let s' := match upload_step s upload_msg with
            | Continue s' | Break s' | Raised _ s' => s'
            end in
  forall p, (exists suffix, file_content (files s') p
                            = (file_content (files s) p ++ suffix)%string) /\
            (path_exists (files s) p = true -> path_exists (files s') p = true).
Proof.
  assert (Hsame : forall (fs : filesystem) p,
             (exists suffix, file_content fs p = (file_content fs p ++ suffix)%string) /\
             (path_exists fs p = true -> path_exists fs p = true)).
  { intros fs p. split; [exists ""%string; now rewrite string_app_empty|tauto]. }
  assert (Hset : forall (fs : filesystem) path c p,
             (exists suffix,
                file_content (setitem fs path (file_content fs path ++ c)%string) p
                = (file_content fs p ++ suffix)%string) /\
             (path_exists fs p = true ->
              path_exists (setitem fs path (file_content fs path ++ c)%string) p = true)).
  { intros fs path c p. rewrite file_content_setitem, path_exists_setitem.
    destruct (String.eqb_spec path p) as [->|Hne].
    - split; [now exists c|reflexivity].
    - split; [exists ""%string; now rewrite string_app_empty|tauto]. }
  intros s' p. subst s'. destruct upload_msg as [metadata|content|]; cbn [upload_step].
  - destruct (file_already_exists _ metadata) as [[file_exists path]|e]; cbn [files].
    + destruct (negb file_exists); cbn [files]; apply Hsame.
    + apply Hsame.
  - destruct (path_var s) as [path|].
    + destruct (progress_var s); cbn [files]; apply Hset.
    + destruct (meta_var s); cbn [files]; apply Hsame.
  - apply Hsame.
Qed.

(** X24. [upload] only ever appends: whatever the stream is, every file that
    was there is still there afterwards, and the content of each file starts
    with what it held before. *)
Theorem upload_only_appends `{Paths} (request_iterator : list UploadMessage)
    (fs : filesystem) (p : string) :
  let fs' := snd (upload request_iterator fs) in
  (exists suffix, file_content fs' p = (file_content fs p ++ suffix)%string) /\
  (path_exists fs p = true -> path_exists fs' p = true).
Proof.
  assert (Hloop : forall reqs s,
             (exists suffix, file_content (files (snd (upload_loop reqs s))) p
                             = (file_content (files s) p ++ suffix)%string) /\
             (path_exists (files s) p = true ->
              path_exists (files (snd (upload_loop reqs s))) p = true)).
  { induction reqs as [|m reqs IH]; intros s.
    - split; [exists ""%string; now rewrite string_app_empty|tauto].
    - pose proof (upload_step_grows s m p) as Hstep. cbv zeta in Hstep.
      cbn [upload_loop]. destruct (upload_step s m) as [s1|s1|e s1]; cbn [snd].
      + destruct Hstep as [[x Hx] He]. destruct (IH s1) as [[y Hy] He1].
        split; [|tauto]. exists (x ++ y)%string.
        now rewrite Hy, Hx, string_app_assoc.
      + exact Hstep.
      + exact Hstep. }
  intros fs'. subst fs'. unfold upload.
  set (s := {| meta_var := None; path_var := None; progress_var := false;
               files := fs; yielded := [] |}).
  specialize (Hloop request_iterator s).
  destruct (upload_loop request_iterator s) as [[e|] s']; exact Hloop.
Qed.

(** ** A threshold that is [None] *)

(** X25. With the threshold [None], the KS test on a feature and both
    chi-squared tests never return a result (the comparison of the p-value
    with [None] raises), whereas a result returned by the two PSI tests and
    by the KS and Earth-Mover tests on predictions has passed. *)
Theorem unset_threshold_raises_or_passes `{Libraries} :
  (forall reference_ds actual_ds column_name r,
     test_drift_ks reference_ds actual_ds column_name None <> Ok r) /\
  (forall reference_ds actual_ds column_name max_categories percent r,
     test_drift_chi_square reference_ds actual_ds column_name None max_categories
       percent <> Ok r) /\
  (forall reference_slice actual_slice model max_categories percent r,
     fst (test_drift_prediction_chi_square reference_slice actual_slice model
            max_categories None percent) <> Ok r) /\
  (forall reference_ds actual_ds column_name max_categories percent r,
     test_drift_psi reference_ds actual_ds column_name None max_categories percent
       = Ok r -> passed r = true) /\
  (forall reference_slice actual_slice model max_categories percent r,
     fst (test_drift_prediction_psi reference_slice actual_slice model max_categories
            None percent) = Ok r -> passed r = true) /\
  (forall reference_slice actual_slice model label r,
     fst (test_drift_prediction_ks reference_slice actual_slice model label None)
       = Ok r -> passed r = true) /\
  (forall reference_slice actual_slice model label r,
     fst (test_drift_prediction_earth_movers_distance reference_slice actual_slice
            model label None) = Ok r -> passed r = true).
Proof.
  assert (Hchi : forall a rf td pct mc x,
             _test_series_drift_chi a rf td pct mc None <> Ok x).
  { intros a rf td pct mc x Ht. unfold _test_series_drift_chi in Ht.
    apply bind_Ok_inv in Ht as ([[c p] rows] & _ & Ht).
    apply bind_Ok_inv in Ht as (b & Hb & _). discriminate. }
  assert (Hpsi : forall a rf td mc pct m p t,
             _test_series_drift_psi a rf td mc pct None = Ok (m, p, t) -> p = true).
  { intros a rf td mc pct m p t Ht. unfold _test_series_drift_psi in Ht.
    apply bind_Ok_inv in Ht as ([total rows] & _ & Ht). now injection Ht as _ <- _. }
  assert (Hfst : forall (A : Type) (c : M A) (a : A),
             fst c = Ok a -> exists log, c = (Ok a, log)).
  { intros A [c l] a. simpl. intros ->. eauto. }
  split; [|split; [|split; [|split; [|split; [|split]]]]].
  - intros rd ad col r Ht. unfold test_drift_ks in Ht.
    apply bind_Ok_inv in Ht as ([sa sr] & _ & Ht).
    apply bind_Ok_inv in Ht as (x1 & _ & Ht).
    apply bind_Ok_inv in Ht as (x2 & _ & Ht).
    apply bind_Ok_inv in Ht as (ks & _ & Ht).
    apply bind_Ok_inv in Ht as (p & Hp & _). discriminate.
  - intros rd ad col mc pct r Ht. unfold test_drift_chi_square in Ht.
    apply bind_Ok_inv in Ht as ([sa sr] & _ & Ht).
    apply bind_Ok_inv in Ht as (x1 & _ & Ht).
    apply bind_Ok_inv in Ht as (x2 & _ & Ht).
    apply bind_Ok_inv in Ht as (x & Hx & _). exact (Hchi _ _ _ _ _ _ Hx).
  - intros rs as_ model mc pct r Ht. apply Hfst in Ht as (log & Ht).
    unfold test_drift_prediction_chi_square in Ht.
    apply bindM_Ok_inv in Ht as (rr & l1 & l2 & _ & Ht & _).
    apply bindM_Ok_inv in Ht as (ar & l3 & l4 & _ & Ht & _).
    apply bindM_Ok_inv in Ht as (pr & l5 & l6 & _ & Ht & _).
    apply bindM_Ok_inv in Ht as (pa & l7 & l8 & _ & Ht & _).
    apply bindM_Ok_inv in Ht as (x & l9 & l10 & Hx & _ & _).
    apply lift_Ok_inv in Hx. exact (Hchi _ _ _ _ _ _ Hx).
  - intros rd ad col mc pct r Ht. unfold test_drift_psi in Ht.
    apply bind_Ok_inv in Ht as ([sa sr] & _ & Ht).
    apply bind_Ok_inv in Ht as (x1 & _ & Ht).
    apply bind_Ok_inv in Ht as (x2 & _ & Ht).
    apply bind_Ok_inv in Ht as ([[m p] t] & Hx & Ht).
    injection Ht as <-. cbn [passed new_TestResult]. exact (Hpsi _ _ _ _ _ _ _ _ Hx).
  - intros rs as_ model mc pct r Ht. apply Hfst in Ht as (log & Ht).
    unfold test_drift_prediction_psi in Ht.
    apply bindM_Ok_inv in Ht as (rr & l1 & l2 & _ & Ht & _).
    apply bindM_Ok_inv in Ht as (ar & l3 & l4 & _ & Ht & _).
    apply bindM_Ok_inv in Ht as (pr & l5 & l6 & _ & Ht & _).
    apply bindM_Ok_inv in Ht as (pa & l7 & l8 & _ & Ht & _).
    apply bindM_Ok_inv in Ht as ([[m p] t] & l9 & l10 & Hx & Ht & _).
    apply lift_Ok_inv in Hx. apply lift_Ok_inv in Ht. injection Ht as <-.
    cbn [passed new_TestResult]. exact (Hpsi _ _ _ _ _ _ _ _ Hx).
  - intros rs as_ model label r Ht. apply Hfst in Ht as (log & Ht).
    unfold test_drift_prediction_ks in Ht.
    apply bindM_Ok_inv in Ht as (u & l1 & l2 & _ & Ht & _).
    apply bindM_Ok_inv in Ht as (pr & l3 & l4 & _ & Ht & _).
    apply bindM_Ok_inv in Ht as (pa & l5 & l6 & _ & Ht & _).
    apply bindM_Ok_inv in Ht as (ks & l7 & l8 & _ & Ht & _).
    apply lift_Ok_inv in Ht. injection Ht as <-. reflexivity.
  - intros rs as_ model label r Ht. apply Hfst in Ht as (log & Ht).
    unfold test_drift_prediction_earth_movers_distance in Ht.
    apply bindM_Ok_inv in Ht as (pr & l3 & l4 & _ & Ht & _).
    apply bindM_Ok_inv in Ht as (pa & l5 & l6 & _ & Ht & _).
    apply bindM_Ok_inv in Ht as (m & l7 & l8 & _ & Ht & _).
    apply lift_Ok_inv in Ht. injection Ht as <-. reflexivity.
Qed.

Lemma unset_threshold_raises_or_passes_witness :
  let r := new_TestResult [2] [2] true (Finite 0.01) None in
  fst (test_drift_prediction_ks (H := sample_libraries) (sample_numeric [1%R; 2%R])
         (sample_numeric [3%R; 4%R]) constant_classifier (Some "yes"%string) None)
    = Ok r /\
  passed r = true.
Proof.
  intros r. split; [reflexivity|].
  destruct (unset_threshold_raises_or_passes (H := sample_libraries))
    as (_ & _ & _ & _ & _ & Hks & _).
  exact (Hks (sample_numeric [1%R; 2%R]) (sample_numeric [3%R; 4%R])
           constant_classifier (Some "yes"%string) r eq_refl).
Defined.
